(** * Modern Sabahlar player: navigation, listing and progress engine

    A shallow embedding of [app.py] and the properties of its specification.

    Modelling conventions.
    - A Python [str] is a [string]; a character is read as the code point
      U+0000..U+00FF it holds, and [str.lower], [str.strip] and the regular
      expression classes are the restrictions of Python's to that range.
    - A Python [int] is a [Z].
    - A directory entry of a listing reply is a record whose fields are the
      keys the program reads; [None] stands for a missing or null key.
    - The progress record is what [json.load] returns: a [pyval].
    - Code with effects runs in the monad [prog] over [world], which holds
      the Streamlit session state, the working directory, the
      [st.cache_data] entry of the token and a log of the requests sent. *)

From Stdlib Require Import ZArith NArith Ascii String List Bool Lia.
From Stdlib Require Import Permutation Sorted OrdersEx DecimalString.
From stdpp Require Import gmap strings list fin_maps.

Local Open Scope string_scope.

(** ** Strings *)

Module Str.

Definition code (c : ascii) : N := N_of_ascii c.

(** [str.isspace] on one character. *)
Definition isspace (c : ascii) : bool :=
  let n := code c in
  ((9 <=? n) && (n <=? 13) || (28 <=? n) && (n <=? 32) || (n =? 133) || (n =? 160))%N.

Definition isdigit (c : ascii) : bool :=
  let n := code c in ((48 <=? n) && (n <=? 57))%N.

Definition lower_char (c : ascii) : ascii :=
  let n := code c in
  if ((65 <=? n) && (n <=? 90) || (192 <=? n) && (n <=? 222) && negb (n =? 215))%N
  then ascii_of_N (n + 32) else c.

(** [s.lower()] *)
Fixpoint lower (s : string) : string :=
  match s with
  | EmptyString => EmptyString
  | String c s' => String (lower_char c) (lower s')
  end.

(** [s.lstrip(chars)], with the stripped characters given as a predicate. *)
Fixpoint lstrip (p : ascii -> bool) (s : string) : string :=
  match s with
  | EmptyString => EmptyString
  | String c s' => if p c then lstrip p s' else s
  end.

(** [s.rstrip(chars)] *)
Fixpoint rstrip (p : ascii -> bool) (s : string) : string :=
  match s with
  | EmptyString => EmptyString
  | String c s' =>
      match rstrip p s' with
      | EmptyString => if p c then EmptyString else String c EmptyString
      | r => String c r
      end
  end.

(** [s.strip(chars)] *)
Definition strip (p : ascii -> bool) (s : string) : string :=
  rstrip p (lstrip p s).

Definition is_slash (c : ascii) : bool := Ascii.eqb c "/".

(** Every character of [s] satisfies [p]. *)
Fixpoint all_in (p : ascii -> bool) (s : string) : bool :=
  match s with
  | EmptyString => true
  | String c s' => p c && all_in p s'
  end.

(** [s.startswith(t)] *)
Fixpoint startswith (s t : string) : bool :=
  match t, s with
  | EmptyString, _ => true
  | String _ _, EmptyString => false
  | String b t', String a s' => Ascii.eqb a b && startswith s' t'
  end.

(** [s.endswith(t)] *)
Fixpoint endswith (s t : string) : bool :=
  String.eqb s t ||
  match s with
  | EmptyString => false
  | String _ s' => endswith s' t
  end.

(** [s1 < s2] on [str]: lexicographic on code points. *)
Definition ltb (s1 s2 : string) : bool :=
  match String.compare s1 s2 with Lt => true | _ => false end.

(** [int(s)] for a string of decimal digits. *)
Definition digit_value (c : ascii) : Z := Z.of_N (code c - 48).

Definition int_of_digits (s : string) : Z :=
  fold_left (fun acc c => (10 * acc + digit_value c)%Z) (list_ascii_of_string s) 0%Z.

End Str.

(** ** Regular expressions, as far as [date_re] needs them *)

Module Re.

(** One position of a pattern compiled with [re.IGNORECASE]. On the
    characters of the model a letter matches its two cases and a digit
    position matches [0]..[9]; Python also lets [s] match U+017F and a digit
    position match any decimal digit of Unicode, which no string of the
    model holds. *)
Inductive piece :=
| Ch (c : ascii)          (* a literal character *)
| OneOf (cs : string)     (* a class [[...]] *)
| Digits2.                (* a group [(\d{2})] *)

Definition lits (s : string) : list piece := map Ch (list_ascii_of_string s).

Definition in_class (cs : string) (c : ascii) : bool :=
  existsb (Ascii.eqb c) (list_ascii_of_string cs).

(** Match the pattern at the start of [s]; the groups and the rest of [s]. *)
Fixpoint match_here (p : list piece) (s : string) : option (list string * string) :=
  match p with
  | [] => Some ([], s)
  | Ch c :: p' =>
      match s with
      | String x s' =>
          if Ascii.eqb (Str.lower_char x) (Str.lower_char c) then match_here p' s' else None
      | EmptyString => None
      end
  | OneOf cs :: p' =>
      match s with
      | String x s' => if in_class cs x then match_here p' s' else None
      | EmptyString => None
      end
  | Digits2 :: p' =>
      match s with
      | String x (String y s') =>
          if Str.isdigit x && Str.isdigit y then
            match match_here p' s' with
            | Some (gs, rest) => Some (String x (String y EmptyString) :: gs, rest)
            | None => None
            end
          else None
      | _ => None
      end
  end.

(** [$]: the end of the string, or just before a final newline. *)
Definition at_end (rest : string) : bool :=
  String.eqb rest "" || String.eqb rest (String "010" "").

Definition match_to_end (p : list piece) (s : string) : option (list string) :=
  match match_here p s with
  | Some (gs, rest) => if at_end rest then Some gs else None
  | None => None
  end.

(** [re.search] of a pattern that ends in [$]: the leftmost match. *)
Fixpoint search (p : list piece) (s : string) : option (list string) :=
  match match_to_end p s with
  | Some gs => Some gs
  | None =>
      match s with
      | EmptyString => None
      | String _ s' => search p s'
      end
  end.

End Re.

(** ** Python's order on the sort keys, and [sorted] *)

(** The [<] of the values used as sort keys. *)
Class PyLt (K : Type) := py_lt : K -> K -> bool.

#[global] Instance str_lt : PyLt string := Str.ltb.
#[global] Instance int_lt : PyLt Z := Z.ltb.

(** Tuples compare at the first position where they differ. *)
Definition date_lt (a b : Z * Z * Z) : bool :=
  let '(y1, m1, d1) := a in
  let '(y2, m2, d2) := b in
  if negb (y1 =? y2)%Z then (y1 <? y2)%Z
  else if negb (m1 =? m2)%Z then (m1 <? m2)%Z
  else (d1 <? d2)%Z.

#[global] Instance date_key_lt : PyLt (Z * Z * Z) := date_lt.

Definition date_eqb (a b : Z * Z * Z) : bool :=
  let '(y1, m1, d1) := a in
  let '(y2, m2, d2) := b in
  (y1 =? y2)%Z && (m1 =? m2)%Z && (d1 =? d2)%Z.

(** The two shapes of key that [file_sort_key] returns. *)
Inductive sort_key :=
| DateKey (dk : Z * Z * Z) (lname : string)   (* (0, dk, name.lower()) *)
| NameKey (lname : string).                   (* (1, name.lower()) *)

Definition sort_key_lt (a b : sort_key) : bool :=
  match a, b with
  | DateKey _ _, NameKey _ => true            (* 0 < 1 *)
  | NameKey _, DateKey _ _ => false
  | DateKey d1 n1, DateKey d2 n2 =>
      if negb (date_eqb d1 d2) then py_lt d1 d2 else py_lt n1 n2
  | NameKey n1, NameKey n2 => py_lt n1 n2
  end.

#[global] Instance file_key_lt : PyLt sort_key := sort_key_lt.

Section Sorted.
Context {A K : Type} `{PyLt K} (key : A -> K).

(** [x] goes in front of the first element that is not smaller than it. *)
Fixpoint insert_by (x : A) (l : list A) : list A :=
  match l with
  | [] => [x]
  | y :: l' => if py_lt (key y) (key x) then y :: insert_by x l' else x :: l
  end.

(** [sorted(l, key=key)]: the stable arrangement of [l] by [key]. *)
Definition sorted (l : list A) : list A := foldr insert_by [] l.

(** [a] may stand before [b]: the key of [b] is not smaller. *)
Definition key_le (a b : A) : Prop := py_lt (key b) (key a) = false.
End Sorted.

(** ** Directory entries and their keys *)

Record entry := {
  e_type : option string;
  e_name : option string;
  e_weblink : option string
}.

(** [item.get(k, "") or ""] *)
Definition or_empty (v : option string) : string := default "" v.

Definition date_re : list Re.piece :=
  Re.lits "Modern" ++ [Re.OneOf "_ "] ++ Re.lits "Sabahlar" ++
  [Re.OneOf "_ "; Re.Digits2; Re.Ch "_"; Re.Digits2; Re.Ch "_"; Re.Digits2] ++
  Re.lits ".mp3".

Definition parse_date_key (name : string) : option (Z * Z * Z) :=
  match Re.search date_re (Str.strip Str.isspace name) with
  | Some [g1; g2; g3] =>
      let d := Str.int_of_digits g1 in
      let mo := Str.int_of_digits g2 in
      let yy := Str.int_of_digits g3 in
      let year := if (yy <? 70)%Z then (2000 + yy)%Z else (1900 + yy)%Z in
      Some (year, mo, d)
  | _ => None
  end.

Definition file_sort_key (item : entry) : sort_key :=
  let name := Str.strip Str.isspace (or_empty (e_name item)) in
  match parse_date_key name with
  | None => NameKey (Str.lower name)
  | Some dk => DateKey dk (Str.lower name)
  end.

Definition folder_sort_key (item : entry) : string :=
  Str.lower (or_empty (e_name item)).

(** ** Python values held by the progress record *)

#[warnings="-register-all"]
Inductive pyval :=
| PNone
| PBool (b : bool)
| PInt (n : Z)
| PStr (s : string)
| PList (l : list pyval)
| PDict (m : gmap string pyval).

(** [bool(v)] *)
Definition truthy (v : pyval) : bool :=
  match v with
  | PNone => false
  | PBool b => b
  | PInt n => negb (n =? 0)%Z
  | PStr s => negb (String.eqb s "")
  | PList l => negb (Nat.eqb (length l) 0)
  | PDict m => negb (Nat.eqb (size m) 0)
  end.

(** [v or d] *)
Definition py_or (v d : pyval) : pyval := if truthy v then v else d.

(** [v == s] for a [str] [s]. *)
Definition py_eq_str (v : pyval) (s : string) : bool :=
  match v with
  | PStr t => String.eqb t s
  | _ => false
  end.

(** [v in names] for a list of [str]. *)
Definition py_in (v : pyval) (names : list string) : bool :=
  existsb (py_eq_str v) names.

(** ** The state of the program and its effects *)

Inductive exn :=
| FileNotFoundError
| IsADirectoryError
| PermissionError
| FileExistsError
| ValueError          (* json.JSONDecodeError, UnicodeDecodeError *)
| AttributeError
| TypeError
| RequestException.   (* a failed request, a bad status, an unusable body *)

(** What a path of the working directory names. *)
Inductive node :=
| File (readable : bool) (data : string)
| Dir.

(** A reply of the folder API: [body.list] and [body.count]. *)
Record listing := {
  l_items : list entry;
  l_folders : Z;
  l_files : Z
}.

(** One request sent to the folder API, and the reply if there was one. *)
Record fetch := {
  f_weblink : string;
  f_offset : Z;
  f_limit : Z;
  f_reply : option listing
}.

(** [st.session_state] *)
Record session_state := {
  now_ts : option Z;
  token : option string;
  token_ts : option Z;
  nav : list string;
  offset : Z;
  loaded_files : list entry;
  loaded_folders : list entry;
  selected_name : option string
}.

Record world := {
  session : session_state;
  files : gmap string node;          (* the working directory *)
  tmp_names : list string;           (* what the temporary-name generator yields next *)
  lifetime : option nat;             (* [Some n]: the process is killed at its system call n+1 *)
  clock : Z;                         (* wall-clock time in seconds *)
  token_memo : option (string * Z);  (* the [st.cache_data] entry: value and time stored *)
  token_requests : nat;              (* requests sent to API_TOKEN *)
  list_log : list fetch              (* requests sent to API_FOLDER, oldest first *)
}.

Definition set_session (s : session_state) (w : world) : world :=
  {| session := s; files := files w; tmp_names := tmp_names w; lifetime := lifetime w;
     clock := clock w; token_memo := token_memo w; token_requests := token_requests w;
     list_log := list_log w |}.

Definition set_files (fs : gmap string node) (w : world) : world :=
  {| session := session w; files := fs; tmp_names := tmp_names w; lifetime := lifetime w;
     clock := clock w; token_memo := token_memo w; token_requests := token_requests w;
     list_log := list_log w |}.

Definition set_tmp_names (l : list string) (w : world) : world :=
  {| session := session w; files := files w; tmp_names := l; lifetime := lifetime w;
     clock := clock w; token_memo := token_memo w; token_requests := token_requests w;
     list_log := list_log w |}.

Definition set_lifetime (n : option nat) (w : world) : world :=
  {| session := session w; files := files w; tmp_names := tmp_names w; lifetime := n;
     clock := clock w; token_memo := token_memo w; token_requests := token_requests w;
     list_log := list_log w |}.

Definition set_token_memo (m : option (string * Z)) (w : world) : world :=
  {| session := session w; files := files w; tmp_names := tmp_names w; lifetime := lifetime w;
     clock := clock w; token_memo := m; token_requests := token_requests w;
     list_log := list_log w |}.

Definition set_clock (t : Z) (w : world) : world :=
  {| session := session w; files := files w; tmp_names := tmp_names w; lifetime := lifetime w;
     clock := t; token_memo := token_memo w; token_requests := token_requests w;
     list_log := list_log w |}.

Definition set_token_requests (n : nat) (w : world) : world :=
  {| session := session w; files := files w; tmp_names := tmp_names w; lifetime := lifetime w;
     clock := clock w; token_memo := token_memo w; token_requests := n;
     list_log := list_log w |}.

Definition set_list_log (l : list fetch) (w : world) : world :=
  {| session := session w; files := files w; tmp_names := tmp_names w; lifetime := lifetime w;
     clock := clock w; token_memo := token_memo w; token_requests := token_requests w;
     list_log := l |}.

(** How a computation ends: a value, an exception, or the death of the process. *)
Inductive outcome (A : Type) :=
| Ret (a : A)
| Raise (e : exn)
| Killed.
Arguments Ret {A} a.
Arguments Raise {A} e.
Arguments Killed {A}.

Definition prog (A : Type) : Type := world -> outcome A * world.

#[global] Instance prog_ret : MRet prog := fun A a w => (Ret a, w).

#[global] Instance prog_bind : MBind prog := fun A B k c w =>
  match c w with
  | (Ret a, w') => k a w'
  | (Raise e, w') => (Raise e, w')
  | (Killed, w') => (Killed, w')
  end.

Definition raise {A} (e : exn) : prog A := fun w => (Raise e, w).

(** [try: body / except Exception: handler] *)
Definition try_except {A} (body : prog A) (handler : exn -> prog A) : prog A := fun w =>
  match body w with
  | (Raise e, w') => handler e w'
  | r => r
  end.

(** [try: body / finally: fin]; a killed process runs no [finally]. *)
Definition try_finally {A} (body : prog A) (fin : prog unit) : prog A := fun w =>
  match body w with
  | (Killed, w') => (Killed, w')
  | (r, w') =>
      match fin w' with
      | (Ret _, w'') => (r, w'')
      | (Raise e, w'') => (Raise e, w'')
      | (Killed, w'') => (Killed, w'')
      end
  end.

(** *** The session state *)

Definition get_session : prog session_state := fun w => (Ret (session w), w).

Definition put_session (s : session_state) : prog unit := fun w => (Ret tt, set_session s w).

Definition set_token (t : option string) (s : session_state) : session_state :=
  {| now_ts := now_ts s; token := t; token_ts := token_ts s; nav := nav s;
     offset := offset s; loaded_files := loaded_files s;
     loaded_folders := loaded_folders s; selected_name := selected_name s |}.

Definition set_token_ts (t : option Z) (s : session_state) : session_state :=
  {| now_ts := now_ts s; token := token s; token_ts := t; nav := nav s;
     offset := offset s; loaded_files := loaded_files s;
     loaded_folders := loaded_folders s; selected_name := selected_name s |}.

Definition set_now_ts (t : option Z) (s : session_state) : session_state :=
  {| now_ts := t; token := token s; token_ts := token_ts s; nav := nav s;
     offset := offset s; loaded_files := loaded_files s;
     loaded_folders := loaded_folders s; selected_name := selected_name s |}.

Definition set_offset (o : Z) (s : session_state) : session_state :=
  {| now_ts := now_ts s; token := token s; token_ts := token_ts s; nav := nav s;
     offset := o; loaded_files := loaded_files s;
     loaded_folders := loaded_folders s; selected_name := selected_name s |}.

Definition set_loaded_files (l : list entry) (s : session_state) : session_state :=
  {| now_ts := now_ts s; token := token s; token_ts := token_ts s; nav := nav s;
     offset := offset s; loaded_files := l;
     loaded_folders := loaded_folders s; selected_name := selected_name s |}.

Definition set_loaded_folders (l : list entry) (s : session_state) : session_state :=
  {| now_ts := now_ts s; token := token s; token_ts := token_ts s; nav := nav s;
     offset := offset s; loaded_files := loaded_files s;
     loaded_folders := l; selected_name := selected_name s |}.

Definition set_selected_name (n : option string) (s : session_state) : session_state :=
  {| now_ts := now_ts s; token := token s; token_ts := token_ts s; nav := nav s;
     offset := offset s; loaded_files := loaded_files s;
     loaded_folders := loaded_folders s; selected_name := n |}.

(** *** The working directory *)

(** A step written as a function of the world. *)
Definition act {A} (f : world -> outcome A * world) : prog A := f.

(** Every call into the file system is a point where the process can die. *)
Definition sys_enter : prog unit := fun w =>
  match lifetime w with
  | None => (Ret tt, w)
  | Some (S n) => (Ret tt, set_lifetime (Some n) w)
  | Some O => (Killed, w)
  end.

(** [open(path, "r")] and reading the file to its end. *)
Definition read_file (path : string) : prog string :=
  sys_enter;;
  act (fun w =>
    match files w !! path with
    | None => (Raise FileNotFoundError, w)
    | Some Dir => (Raise IsADirectoryError, w)
    | Some (File false _) => (Raise PermissionError, w)
    | Some (File true data) => (Ret data, w)
    end).

(** [os.makedirs(path, exist_ok=True)] of the working directory itself. *)
Definition makedirs_exist_ok (path : string) : prog unit := sys_enter.

(** The first name the generator yields that no file has, and what it yields
    after it. *)
Fixpoint first_free (fs : gmap string node) (pre suf : string) (cands : list string)
  : option (string * list string) :=
  match cands with
  | [] => None
  | c :: cands' =>
      let name := pre ++ c ++ suf in
      match fs !! name with
      | None => Some (name, cands')
      | Some _ => first_free fs pre suf cands'
      end
  end.

(** [tempfile.mkstemp(prefix=pre, suffix=suf, dir=".")]: creates an empty file
    under a name that was free and returns the name. *)
Definition mkstemp (pre suf : string) : prog string :=
  sys_enter;;
  act (fun w =>
    match first_free (files w) pre suf (tmp_names w) with
    | Some (name, rest) =>
        (Ret name, set_files (<[name := File true ""]> (files w)) (set_tmp_names rest w))
    | None => (Raise FileExistsError, set_tmp_names [] w)
    end).

(** Writing [data] through the descriptor of [path] and closing it. The
    write is taken to succeed: every string of the model can be encoded, and
    an error of the operating system in lines 38-39 (a full disk, a
    directory that cannot be written) is outside the model, as it is for
    [mkstemp]. What is proved of [write_progress] below is therefore read
    outcome by outcome, and not as a list of all the ways it can fail. *)
Definition write_file (path data : string) : prog unit :=
  sys_enter;;
  act (fun w => (Ret tt, set_files (<[path := File true data]> (files w)) w)).

(** [os.replace(src, dst)]: one atomic rename. *)
Definition os_replace (src dst : string) : prog unit :=
  sys_enter;;
  act (fun w =>
    match files w !! src with
    | None => (Raise FileNotFoundError, w)
    | Some n =>
        match files w !! dst with
        | Some Dir => (Raise IsADirectoryError, w)
        | _ => (Ret tt, set_files (<[dst := n]> (delete src (files w))) w)
        end
    end).

(** [os.path.exists(path)] *)
Definition path_exists (path : string) : prog bool :=
  sys_enter;;
  act (fun w => (Ret (bool_decide (is_Some (files w !! path))), w)).

(** [os.remove(path)] *)
Definition os_remove (path : string) : prog unit :=
  sys_enter;;
  act (fun w =>
    match files w !! path with
    | None => (Raise FileNotFoundError, w)
    | Some Dir => (Raise IsADirectoryError, w)
    | Some (File _ _) => (Ret tt, set_files (delete path (files w)) w)
    end).

(** *** Dictionaries *)

(** [v.get(k, dflt)] *)
Definition py_get (v : pyval) (k : string) (dflt : pyval) : prog pyval :=
  match v with
  | PDict m => mret (default dflt (m !! k))
  | _ => raise AttributeError
  end.

(** [v[k] = x]; the dictionary after the assignment. *)
Definition py_setitem (v : pyval) (k : string) (x : pyval) : prog pyval :=
  match v with
  | PDict m => mret (PDict (<[k := x]> m))
  | _ => raise TypeError
  end.

(** ** The program *)

Definition PROGRESS_PATH : string := "progress.json".
Definition PAGE_SIZE : Z := 200.

Section App.

(** [json.dump(d, f, ensure_ascii=False, indent=2)] as the bytes that reach
    the file, and [json.load] of a file with these bytes ([None]: it raises). *)
Variable json_dumps : pyval -> string.
Variable json_loads : string -> option pyval.

(** What the token API answers to the request number [n]; [None] when
    [get_download_token_cached] raises on it. *)
Variable token_reply : nat -> option string.

(** What the folder API answers to the request number [n] for a weblink,
    an offset and a limit; [None] when [list_dir] raises on it. *)
Variable folder_reply : nat -> string -> Z -> Z -> option listing.

Definition json_load (data : string) : prog pyval :=
  match json_loads data with
  | Some v => mret v
  | None => raise ValueError
  end.

Definition read_progress : prog pyval :=
  try_except
    (data ← read_file PROGRESS_PATH; json_load data)
    (fun _ => mret (PDict ∅)).

Definition write_progress (d : pyval) : prog unit :=
  let tmp_dir := "." in
  makedirs_exist_ok tmp_dir;;
  tmp_path ← mkstemp "progress_" ".json";
  try_finally
    (write_file tmp_path (json_dumps d);;
     os_replace tmp_path PROGRESS_PATH)
    (try_except
       (b ← path_exists tmp_path;
        if b : bool then os_remove tmp_path else mret tt)
       (fun _ => mret tt)).

(** The memoised request: [st.cache_data(ttl=60 * 5)] serves the stored
    value while it is younger than the ttl. *)
Definition get_download_token_cached : prog string := fun w =>
  let request :=
    let n := token_requests w in
    let w1 := set_token_requests (S n) w in
    match token_reply n with
    | Some tok => (Ret tok, set_token_memo (Some (tok, clock w)) w1)
    | None => (Raise RequestException, w1)
    end in
  match token_memo w with
  | Some (tok, stored) => if (clock w - stored <? 60 * 5)%Z then (Ret tok, w) else request
  | None => request
  end.

(** Lines 57-58 and 62-63: fetch, then store the token and the tick. *)
Definition store_new_token : prog string :=
  tok ← get_download_token_cached;
  ss ← get_session;
  put_session (set_token (Some tok) ss);;
  ss ← get_session;
  put_session (set_token_ts (Some (default 0%Z (now_ts ss))) ss);;
  mret tok.

Definition get_download_token : prog string :=
  ss ← get_session;
  match token ss, token_ts ss with
  | Some held, Some ts =>
      let age := (default 0 (now_ts ss) - ts)%Z in
      if (60 * 4 <? age)%Z then store_new_token else mret held
  | _, _ => store_new_token
  end.

(** The handler of the "Refresh token" button. *)
Definition refresh_token_button : prog unit :=
  ss ← get_session;
  put_session (set_token None ss);;
  ss ← get_session;
  put_session (set_token_ts None ss).

(** The handler of the "Refresh now" button. *)
Definition refresh_now_button : prog unit :=
  act (fun w => (Ret tt, set_token_memo None w));;
  ss ← get_session;
  put_session (set_selected_name None
                 (set_loaded_folders [] (set_loaded_files [] (set_offset 0 ss)))).

(** Line 149: every run of the script advances the counter. *)
Definition advance_now_ts : prog unit :=
  ss ← get_session;
  put_session (set_now_ts (Some (default 0 (now_ts ss) + 1)%Z) ss).

Definition list_dir (share : string) (offset limit : Z) : prog listing := fun w =>
  let weblink := Str.strip Str.is_slash share in
  let reply := folder_reply (length (list_log w)) weblink offset limit in
  let w' := set_list_log (list_log w ++
              [{| f_weblink := weblink; f_offset := offset; f_limit := limit;
                  f_reply := reply |}]) w in
  match reply with
  | Some r => (Ret r, w')
  | None => (Raise RequestException, w')
  end.

Definition has_type (t : string) (it : entry) : bool :=
  bool_decide (e_type it = Some t).

(** [current] is the global of line 180, the last element of [nav]. *)
Definition load_first_page_if_needed (current : string) : prog unit :=
  ss ← get_session;
  if (0 <? offset ss)%Z || negb (Nat.eqb (length (loaded_files ss)) 0)
     || negb (Nat.eqb (length (loaded_folders ss)) 0)
  then mret tt
  else
    body ← list_dir current 0 PAGE_SIZE;
    let items := l_items body in
    let folders := List.filter (has_type "folder") items in
    let files := List.filter (has_type "file") items in
    ss ← get_session;
    put_session (set_loaded_folders (sorted folder_sort_key folders) ss);;
    ss ← get_session;
    put_session (set_loaded_files (sorted file_sort_key files) ss);;
    ss ← get_session;
    put_session (set_offset (Z.of_nat (length items)) ss).

Definition load_more (current : string) : prog listing :=
  ss ← get_session;
  body ← list_dir current (offset ss) PAGE_SIZE;
  let items := l_items body in
  let folders := List.filter (has_type "folder") items in
  let files := List.filter (has_type "file") items in
  ss ← get_session;
  put_session (set_loaded_folders (sorted folder_sort_key (loaded_folders ss ++ folders)) ss);;
  ss ← get_session;
  put_session (set_loaded_files (sorted file_sort_key (loaded_files ss ++ files)) ss);;
  ss ← get_session;
  put_session (set_offset (offset ss + Z.of_nat (length items)) ss);;
  mret body.

Definition update_progress (folder filename : string) : prog unit :=
  p ← read_progress;
  p ← py_setitem p "last_folder" (PStr folder);
  p ← py_setitem p "last_file" (PStr filename);
  pf ← py_get p "per_folder" (PDict ∅);
  let pf := py_or pf (PDict ∅) in
  pf ← py_setitem pf folder (PStr filename);
  p ← py_setitem p "per_folder" pf;
  write_progress p.

Definition pick_last_for_folder (folder : string) (names : list string) : prog pyval :=
  p ← read_progress;
  pf ← py_get p "per_folder" (PDict ∅);
  let pf := py_or pf (PDict ∅) in
  cand ← py_get pf folder PNone;
  if py_in cand names then mret cand
  else
    last_folder ← py_get p "last_folder" PNone;
    if py_eq_str last_folder folder then
      last_file ← py_get p "last_file" PNone;
      if py_in last_file names then mret last_file else mret PNone
    else mret PNone.

End App.

Definition normalize_child_weblink (parent : string) (item : entry) : string :=
  let w := or_empty (e_weblink item) in
  let name := or_empty (e_name item) in
  if String.eqb w "" then ""
  else
    let w :=
      if negb (String.eqb name "") && negb (Str.endswith w ("/" ++ name))
      then Str.rstrip Str.is_slash w ++ "/" ++ name
      else w in
    Str.strip Str.is_slash w.

(** ** Runs of the page loader *)

Inductive page_action :=
| FirstPage    (* a run of the script: [load_first_page_if_needed()] *)
| LoadMore.    (* the "Load more files" button: [load_more()] *)

Section Pages.
Variable folder_reply : nat -> string -> Z -> Z -> option listing.
Variable current : string.

(** The request that [list_dir current o PAGE_SIZE] sends and logs in [w]. *)
Definition logged (w : world) (o : Z) : fetch :=
  let weblink := Str.strip Str.is_slash current in
  {| f_weblink := weblink; f_offset := o; f_limit := PAGE_SIZE;
     f_reply := folder_reply (length (list_log w)) weblink o PAGE_SIZE |}.

Definition page_step (a : page_action) : prog unit :=
  match a with
  | FirstPage => load_first_page_if_needed folder_reply current
  | LoadMore => load_more folder_reply current;; mret tt
  end.

(** The script reports an exception of either call and goes on with the
    next interaction. *)
Definition run_pages (actions : list page_action) (w : world) : world :=
  fold_left (fun w a => snd (page_step a w)) actions w.
End Pages.

(** The guard of [load_first_page_if_needed] lets the request through. *)
Definition nothing_loaded (ss : session_state) : bool :=
  negb ((0 <? offset ss)%Z || negb (Nat.eqb (length (loaded_files ss)) 0)
        || negb (Nat.eqb (length (loaded_folders ss)) 0)).

(** The number of items that the logged requests returned. *)
Definition fetched_items (log : list fetch) : Z :=
  foldr (fun f acc =>
           match f_reply f with
           | Some r => (Z.of_nat (length (l_items r)) + acc)%Z
           | None => acc
           end) 0%Z log.

(** Lines 163-166, 185-188, 194-197, 211-214 and 275-278. *)
Definition reset_listing (s : session_state) : session_state :=
  set_selected_name None (set_loaded_folders [] (set_loaded_files [] (set_offset 0 s))).

(** The world when a directory has just been entered: nothing loaded, no
    request sent yet. *)
Definition enter_directory (w : world) : world :=
  set_list_log [] (set_session (reset_listing (session w)) w).

(** ** Reading the progress record *)

(** What [read_progress] finds in a working directory. *)
Definition stored_progress (json_loads : string -> option pyval)
    (fs : gmap string node) : pyval :=
  match fs !! PROGRESS_PATH with
  | Some (File true data) => default (PDict ∅) (json_loads data)
  | _ => PDict ∅
  end.

(** The per-folder mapping of a record, empty when the record has none. *)
Definition per_folder_of (m : gmap string pyval) : gmap string pyval :=
  match m !! "per_folder" with
  | Some (PDict pf) => pf
  | _ => ∅
  end.

(** [p.get("per_folder", {}) or {}] is a mapping. *)
Definition per_folder_usable (m : gmap string pyval) : bool :=
  match m !! "per_folder" with
  | None => true
  | Some (PDict _) => true
  | Some v => negb (truthy v)
  end.

(** The process starts again after it was killed. *)
Definition restart (w : world) : world := set_lifetime None w.

(** ** The child path in the words of the specification *)

(** "parent path + "/" + name, normalized". *)
Definition joined_child_path (parent name : string) : string :=
  Str.strip Str.is_slash (parent ++ "/" ++ name).

(** Chronological order on decoded dates [(year, month, day)]. *)
Definition date_le (a b : Z * Z * Z) : Prop :=
  let '(y1, m1, d1) := a in
  let '(y2, m2, d2) := b in
  (y1 < y2 \/ (y1 = y2 /\ (m1 < m2 \/ (m1 = m2 /\ d1 <= d2))))%Z.

(** The decoding of a two-digit year. *)
Definition year_of (yy : Z) : Z := if (yy <? 70)%Z then (2000 + yy)%Z else (1900 + yy)%Z.

(** The decoded date of a file, if its name matches [date_re]. *)
Definition file_date (f : entry) : option (Z * Z * Z) :=
  parse_date_key (or_empty (e_name f)).

(** The name as the file key compares it: trimmed, in lower case. *)
Definition trimmed_lower_name (f : entry) : string :=
  Str.lower (Str.strip Str.isspace (or_empty (e_name f))).

(** The name in lower case. *)
Definition lower_name (f : entry) : string := Str.lower (or_empty (e_name f)).

(** [int] of a group of two digits. *)
Definition two_digits (a b : ascii) : Z := Str.int_of_digits (String a (String b "")).

(** A name of the form [Modern_Sabahlar_DD_MM_YY.mp3]. *)
Definition episode_name (d1 d2 m1 m2 y1 y2 : ascii) : string :=
  "Modern_Sabahlar_" ++ String d1 (String d2 "_") ++ String m1 (String m2 "_") ++
  String y1 (String y2 ".mp3").

(** ** A compact JSON codec, to run the program on concrete files *)

Module MiniJson.

Definition quote : ascii := "034".
Definition backslash : ascii := "092".

Fixpoint escape (s : string) : string :=
  match s with
  | EmptyString => EmptyString
  | String c s' =>
      if Ascii.eqb c quote || Ascii.eqb c backslash
      then String backslash (String c (escape s'))
      else String c (escape s')
  end.

Definition write_str (s : string) : string :=
  String quote (escape s ++ String quote "").

Definition join (sep : string) (l : list string) : string :=
  match l with
  | [] => ""
  | x :: l' => fold_left (fun acc y => acc ++ sep ++ y) l' x
  end.

Fixpoint dumps (v : pyval) : string :=
  match v with
  | PNone => "null"
  | PBool true => "true"
  | PBool false => "false"
  | PInt n => NilZero.string_of_int (Z.to_int n)
  | PStr s => write_str s
  | PList l => "[" ++ join "," (map dumps l) ++ "]"
  | PDict m =>
      "{" ++ join "," (map_fold (fun k x acc => (write_str k ++ ":" ++ dumps x) :: acc) [] m) ++ "}"
  end.

Definition is_ws (c : ascii) : bool :=
  Ascii.eqb c " " || Ascii.eqb c "010" || Ascii.eqb c "013" || Ascii.eqb c "009".

Fixpoint skip_ws (s : string) : string :=
  match s with
  | String c s' => if is_ws c then skip_ws s' else s
  | EmptyString => EmptyString
  end.

(** The text of a string literal after its opening quote, and what follows it. *)
Fixpoint read_str (s : string) : option (string * string) :=
  match s with
  | EmptyString => None
  | String c s' =>
      if Ascii.eqb c quote then Some ("", s')
      else if Ascii.eqb c backslash then
        match s' with
        | String e s'' =>
            match read_str s'' with
            | Some (t, rest) => Some (String e t, rest)
            | None => None
            end
        | EmptyString => None
        end
      else
        match read_str s' with
        | Some (t, rest) => Some (String c t, rest)
        | None => None
        end
  end.

Definition is_digit (c : ascii) : bool :=
  (48 <=? N_of_ascii c)%N && (N_of_ascii c <=? 57)%N.

Fixpoint read_digits (acc : Z) (s : string) : Z * string :=
  match s with
  | String c s' =>
      if is_digit c then read_digits (10 * acc + Z.of_N (N_of_ascii c - 48)) s' else (acc, s)
  | EmptyString => (acc, s)
  end.

Definition expect (lit : string) (v : pyval) (s : string) : option (pyval * string) :=
  if String.prefix lit s then Some (v, String.substring (String.length lit) (String.length s - String.length lit) s)
  else None.

Fixpoint read_value (fuel : nat) (s : string) : option (pyval * string) :=
  match fuel with
  | O => None
  | S fuel' =>
      let read_items := fix items (n : nat) (s : string) : option (list pyval * string) :=
        match n with
        | O => None
        | S n' =>
            match read_value fuel' s with
            | Some (v, rest) =>
                match skip_ws rest with
                | String "," rest' =>
                    match items n' rest' with
                    | Some (vs, rest'') => Some (v :: vs, rest'')
                    | None => None
                    end
                | String "]" rest' => Some ([v], rest')
                | _ => None
                end
            | None => None
            end
        end in
      let read_members := fix members (n : nat) (s : string) : option (list (string * pyval) * string) :=
        match n with
        | O => None
        | S n' =>
            match skip_ws s with
            | String c s1 =>
                if Ascii.eqb c quote then
                  match read_str s1 with
                  | Some (k, s2) =>
                      match skip_ws s2 with
                      | String ":" s3 =>
                          match read_value fuel' s3 with
                          | Some (v, rest) =>
                              match skip_ws rest with
                              | String "," rest' =>
                                  match members n' rest' with
                                  | Some (kvs, rest'') => Some ((k, v) :: kvs, rest'')
                                  | None => None
                                  end
                              | String "}" rest' => Some ([(k, v)], rest')
                              | _ => None
                              end
                          | None => None
                          end
                      | _ => None
                      end
                  | None => None
                  end
                else None
            | EmptyString => None
            end
        end in
      match skip_ws s with
      | EmptyString => None
      | String c s' =>
          if Ascii.eqb c quote then
            match read_str s' with
            | Some (t, rest) => Some (PStr t, rest)
            | None => None
            end
          else if Ascii.eqb c "[" then
            match skip_ws s' with
            | String "]" rest => Some (PList [], rest)
            | _ =>
                match read_items (String.length s') s' with
                | Some (vs, rest) => Some (PList vs, rest)
                | None => None
                end
            end
          else if Ascii.eqb c "{" then
            match skip_ws s' with
            | String "}" rest => Some (PDict ∅, rest)
            | _ =>
                match read_members (String.length s') s' with
                | Some (kvs, rest) => Some (PDict (list_to_map (reverse kvs)), rest)
                | None => None
                end
            end
          else if Ascii.eqb c "-" then
            match s' with
            | String d _ =>
                if is_digit d then let '(n, rest) := read_digits 0 s' in Some (PInt (- n), rest)
                else None
            | EmptyString => None
            end
          else if is_digit c then
            let '(n, rest) := read_digits 0 (String c s') in Some (PInt n, rest)
          else if Ascii.eqb c "n" then expect "ull" PNone s'
          else if Ascii.eqb c "t" then expect "rue" (PBool true) s'
          else if Ascii.eqb c "f" then expect "alse" (PBool false) s'
          else None
      end
  end.

Definition loads (s : string) : option pyval :=
  match read_value (S (String.length s)) s with
  | Some (v, rest) => if String.eqb (skip_ws rest) "" then Some v else None
  | None => None
  end.

End MiniJson.

(** ** Concrete worlds *)

Definition empty_session : session_state :=
  {| now_ts := None; token := None; token_ts := None; nav := ["4RaM/vXuYxiCgD"];
     offset := 0; loaded_files := []; loaded_folders := []; selected_name := None |}.

(** A new process in a working directory [fs]. *)
Definition boot (fs : gmap string node) : world :=
  {| session := empty_session; files := fs; tmp_names := ["x7k2m9qa"; "b3n8w1zc"];
     lifetime := None; clock := 0; token_memo := None; token_requests := 0;
     list_log := [] |}.

(** [n] interactions: each run of the script advances the counter by one. *)
Definition ticks (n : nat) (w : world) : world :=
  Nat.iter n (fun w => snd (advance_now_ts w)) w.

(** The record of the specification's example: [per_folder = {X: a.mp3}]. *)
Definition example_record : gmap string pyval :=
  {[ "per_folder" := PDict {[ "X" := PStr "a.mp3" ]} ]}.

(** A record as [update_progress "Y" "c.mp3"] leaves it after the example. *)
Definition later_record : gmap string pyval :=
  <["last_folder" := PStr "Y"]>
    (<["last_file" := PStr "c.mp3"]>
       {[ "per_folder" := PDict (<["Y" := PStr "c.mp3"]> {[ "X" := PStr "a.mp3" ]}) ]}).

(** A working directory whose progress file holds [m]. *)
Definition with_progress (m : gmap string pyval) : gmap string node :=
  {[ PROGRESS_PATH := File true (MiniJson.dumps (PDict m)) ]}.

(** A token API that issues a new token on every request. *)
Definition issue (n : nat) : option string :=
  Some ("token-" ++ NilZero.string_of_uint (Nat.to_uint n)).

(** A folder API over a directory that does not change. *)
Definition serve (dir : list entry) (n : nat) (weblink : string) (offset limit : Z)
  : option listing :=
  Some {| l_items := take (Z.to_nat limit) (drop (Z.to_nat offset) dir);
          l_folders := Z.of_nat (length (List.filter (has_type "folder") dir));
          l_files := Z.of_nat (length (List.filter (has_type "file") dir)) |}.

Definition file_named (n : string) : entry :=
  {| e_type := Some "file"; e_name := Some n; e_weblink := None |}.

Definition folder_named (n : string) : entry :=
  {| e_type := Some "folder"; e_name := Some n; e_weblink := None |}.

(** ** The rest of the program *)

(** *** [safe_quote] and the stream URL *)

Module Url.

(** One hexadecimal digit, in upper case as ["%02X"] prints it. *)
Definition hex_digit (n : N) : ascii :=
  if (n <? 10)%N then ascii_of_N (48 + n) else ascii_of_N (55 + n).

(** ["%{:02X}"] of one byte. *)
Definition percent (b : N) : string :=
  String "%" (String (hex_digit (b / 16)) (String (hex_digit (b mod 16)) "")).

(** The UTF-8 bytes of a code point below 256. *)
Definition utf8 (c : ascii) : list N :=
  let n := Str.code c in
  if (n <? 128)%N then [n] else [192 + n / 64; 128 + n mod 64]%N.

(** The characters [urllib.parse.quote] never escapes. *)
Definition always_safe (c : ascii) : bool :=
  let n := Str.code c in
  ((65 <=? n) && (n <=? 90) || (97 <=? n) && (n <=? 122) || (48 <=? n) && (n <=? 57))%N
  || Re.in_class "_.-~" c.

(** What [quote] writes for one character. *)
Definition quote_char (safe : string) (c : ascii) : string :=
  if (Str.code c <? 128)%N && (always_safe c || Re.in_class safe c)
  then String c ""
  else fold_right (fun b acc => percent b ++ acc) "" (utf8 c).

(** [urllib.parse.quote(s, safe=safe)] *)
Fixpoint quote (safe : string) (s : string) : string :=
  match s with
  | EmptyString => EmptyString
  | String c s' => quote_char safe c ++ quote safe s'
  end.

End Url.

Definition SAFE : string := "~@#$()*!=:;,.?/\'".

Definition safe_quote (s : string) : string := Url.quote SAFE s.

(** The characters [safe_quote] leaves as they are. *)
Definition url_safe (c : ascii) : bool :=
  (Str.code c <? 128)%N && (Url.always_safe c || Re.in_class SAFE c).

(** The characters [safe_quote] writes. *)
Definition url_char (c : ascii) : bool := url_safe c || Ascii.eqb c "%".

Definition build_file_url (base_url token file_weblink : string) : string :=
  base_url ++ "/" ++ safe_quote (Str.strip Str.is_slash file_weblink) ++ "?key=" ++ token.

(** *** [audio_html] *)

Definition dquote : ascii := "034".
Definition newline : ascii := "010".

(** [s.replace(old, new)] for a one-character [old]. *)
Fixpoint replace_char (old : ascii) (new : string) (s : string) : string :=
  match s with
  | EmptyString => EmptyString
  | String c s' =>
      if Ascii.eqb c old then new ++ replace_char old new s'
      else String c (replace_char old new s')
  end.

(** The number of times [c] occurs in [s]. *)
Fixpoint count_char (c : ascii) (s : string) : nat :=
  match s with
  | EmptyString => O
  | String x s' => (if Ascii.eqb x c then 1 else 0) + count_char c s'
  end.

Definition audio_html (src : string) : string :=
  let esc := replace_char dquote "%22" src in
  let q := String dquote "" in
  let nl := String newline "" in
  nl ++ "    <audio controls preload=" ++ q ++ "none" ++ q ++ " style=" ++ q ++
  "width: 100%;" ++ q ++ ">" ++ nl ++
  "      <source src=" ++ q ++ esc ++ q ++ " type=" ++ q ++ "audio/mpeg" ++ q ++ ">" ++ nl ++
  "    </audio>" ++ nl ++ "    ".

(** *** The filter of the loaded files (lines 282-288) *)

(** [q in s] *)
Fixpoint contains (s q : string) : bool :=
  Str.startswith s q ||
  match s with
  | EmptyString => false
  | String _ s' => contains s' q
  end.

(** [text] is what the search box holds. *)
Definition filter_files (text : string) (files : list entry) : list entry :=
  let q := Str.lower (Str.strip Str.isspace text) in
  List.filter
    (fun f => String.eqb q "" || contains (Str.lower (or_empty (e_name f))) q)
    files.

(** *** Navigation (lines 183-198 and 272-279) *)

Definition set_nav (l : list string) (s : session_state) : session_state :=
  {| now_ts := now_ts s; token := token s; token_ts := token_ts s; nav := l;
     offset := offset s; loaded_files := loaded_files s;
     loaded_folders := loaded_folders s; selected_name := selected_name s |}.

(** [nav[-1]], the global [current] of line 180. *)
Definition current_of (s : session_state) : string := List.last (nav s) "".

Inductive nav_action :=
| ResetToRoot               (* the "Reset to root" button *)
| UpOneLevel                (* the "Up one level" button *)
| OpenFolder (f : entry).   (* an entry picked in "Open folder" *)

(** [nav.pop()] *)
Definition pop (l : list string) : list string := removelast l.

Definition nav_step (share : string) (a : nav_action) (s : session_state) : session_state :=
  match a with
  | ResetToRoot => reset_listing (set_nav [share] s)
  | UpOneLevel =>
      if (1 <? length (nav s))%nat then reset_listing (set_nav (pop (nav s)) s) else s
  | OpenFolder f =>
      let child := normalize_child_weblink (current_of s) f in
      if negb (String.eqb child "") then reset_listing (set_nav (nav s ++ [child]) s) else s
  end.

Definition run_nav (share : string) (actions : list nav_action) (s : session_state)
  : session_state :=
  fold_left (fun s a => nav_step share a s) actions s.

(** Line 169: the first run of the script. *)
Definition start_nav (share : string) (s : session_state) : session_state :=
  set_nav [share] s.

(** A path as [normalize_child_weblink] returns it when it is not empty. *)
Definition trimmed_path (p : string) : Prop :=
  p <> "" /\ Str.startswith p "/" = false /\ Str.endswith p "/" = false.

(** *** The default selection (lines 307-312) *)

(** [names.index(v)] *)
Fixpoint index_of (v : pyval) (names : list string) : option nat :=
  match names with
  | [] => None
  | n :: names' => if py_eq_str v n then Some O else option_map S (index_of v names')
  end.

Definition names_index (v : pyval) (names : list string) : prog nat :=
  match index_of v names with
  | Some i => mret i
  | None => raise ValueError
  end.

Definition is_none (v : pyval) : bool :=
  match v with PNone => true | _ => false end.

(** [st.session_state.get("selected_name")] as a value. *)
Definition selected_value (s : session_state) : pyval :=
  match selected_name s with Some n => PStr n | None => PNone end.

Section Default.
Variable json_loads : string -> option pyval.

Definition default_index (current : string) (names : list string) : prog nat :=
  preferred ← pick_last_for_folder json_loads current names;
  if negb (is_none preferred) then names_index preferred names
  else
    ss ← get_session;
    if py_in (selected_value ss) names then names_index (selected_value ss) names
    else mret O.
End Default.

(** *** What [update_progress] writes *)

(** The record after lines 132-136, from the mapping [m] read and its
    effective per-folder mapping. *)
Definition updated_record (m : gmap string pyval) (folder filename : string)
  : gmap string pyval :=
  <["per_folder" := PDict (<[folder := PStr filename]> (per_folder_of m))]>
    (<["last_file" := PStr filename]> (<["last_folder" := PStr folder]> m)).

(** The file entries and the folder entries of the pages a log holds. *)
Definition fetched_entries (t : string) (log : list fetch) : list entry :=
  flat_map (fun f =>
              match f_reply f with
              | Some r => List.filter (has_type t) (l_items r)
              | None => []
              end) log.

(** What the two loaded lists are made of, and how they stand. *)
Definition loaded_ok (w : world) : Prop :=
  Permutation (loaded_files (session w)) (fetched_entries "file" (list_log w)) /\
  Permutation (loaded_folders (session w)) (fetched_entries "folder" (list_log w)) /\
  StronglySorted (key_le file_sort_key) (loaded_files (session w)) /\
  StronglySorted (key_le folder_sort_key) (loaded_folders (session w)).

(** *** The token over several runs of the script *)

Section Runs.
Variable token_reply : nat -> option string.

(** A run of the script at the time [c] in which a button is found pressed:
    line 149 advances the counter, the handler [h] runs and ends the run
    with [st.rerun()], before line 228 is reached. *)
Definition press (h : prog unit) (c : Z) (w : world) : world :=
  snd (h (snd (advance_now_ts (set_clock c w)))).

(** A run of the script at the time [c] with no button pressed, as far as
    line 228: the counter advances and the token is asked for. *)
Definition rerun (c : Z) (w : world) : outcome string * world :=
  get_download_token token_reply (snd (advance_now_ts (set_clock c w))).

(** Such runs one after the other, at the times [cs]. *)
Definition reruns (cs : list Z) (w : world) : world :=
  fold_left (fun w c => snd (rerun c w)) cs w.

(** The token [tok] was issued by one of the requests [n], [n+1], ... sent
    so far. *)
Definition issued_since (n : nat) (w : world) (tok : string) : Prop :=
  exists k : nat, (n <= k < token_requests w)%nat /\ token_reply k = Some tok.

(** The memo holds no token issued before the request [n], and the
    requests so far are at least [n]. *)
Definition memo_since (n : nat) (w : world) : Prop :=
  (n <= token_requests w)%nat /\
  forall (tok : string) (stored : Z),
    token_memo w = Some (tok, stored) -> issued_since n w tok.

End Runs.

(** *** Reading back what [quote] wrote *)

Module Unquote.

Definition hex_value (c : ascii) : option N :=
  let n := Str.code c in
  if ((48 <=? n) && (n <=? 57))%N then Some (n - 48)%N
  else if ((65 <=? n) && (n <=? 70))%N then Some (n - 55)%N
  else None.

(** A byte written as [%XY] at the start of [s], and what follows it. *)
Definition read_byte (s : string) : option (N * string) :=
  match s with
  | String "%" (String h (String l r)) =>
      match hex_value h, hex_value l with
      | Some a, Some b => Some (16 * a + b, r)%N
      | _, _ => None
      end
  | _ => None
  end.

(** The first character of the text that a quoted string stands for. *)
Definition head (s : string) : option (ascii * string) :=
  match s with
  | EmptyString => None
  | String c r =>
      if Ascii.eqb c "%" then
        match read_byte s with
        | Some (b, r1) =>
            if (b <? 128)%N then Some (ascii_of_N b, r1)
            else
              match read_byte r1 with
              | Some (b2, r2) => Some (ascii_of_N ((b - 192) * 64 + (b2 - 128)), r2)
              | None => None
              end
        | None => None
        end
      else Some (c, r)
  end.

End Unquote.

(** * Properties *)

(** ** Strings *)

Lemma endswith_unfold (s t : string) :
  Str.endswith s t =
  String.eqb s t || match s with "" => false | String _ s' => Str.endswith s' t end.
Proof. destruct s; reflexivity. Qed.

Lemma endswith_app (u t : string) : Str.endswith (u ++ t) t = true.
Proof.
  induction u as [|c u IH]; rewrite endswith_unfold.
  - simpl. now rewrite String.eqb_refl.
  - simpl. rewrite IH. apply orb_true_r.
Qed.

Lemma endswith_inv (s t : string) :
  Str.endswith s t = true -> exists u, s = u ++ t.
Proof.
  induction s as [|c s IH]; rewrite endswith_unfold; intros H.
  - rewrite orb_false_r in H. apply String.eqb_eq in H. exists "". now subst.
  - apply orb_true_iff in H as [H|H].
    + apply String.eqb_eq in H. exists "". now subst.
    + destruct (IH H) as [u ->]. now exists (String c u).
Qed.

Section Strip.
Variable p : ascii -> bool.

Lemma lstrip_head c s s' : Str.lstrip p s = String c s' -> p c = false.
Proof.
  induction s as [|a s IH]; simpl; [discriminate|].
  destruct (p a) eqn:Ha; [exact IH|].
  intros [= <- _]. exact Ha.
Qed.

Lemma rstrip_head c s r : Str.rstrip p s = String c r -> exists s', s = String c s'.
Proof.
  destruct s as [|a s]; simpl; [discriminate|].
  destruct (Str.rstrip p s); [destruct (p a)|]; intros [= <- _]; eauto.
Qed.

Lemma rstrip_snoc s : forall u c, Str.rstrip p s = u ++ String c "" -> p c = false.
Proof.
  induction s as [|a s IH]; simpl; intros u c H.
  - destruct u; discriminate.
  - destruct (Str.rstrip p s) as [|b r] eqn:Hr.
    + destruct (p a) eqn:Ha.
      * destruct u; discriminate.
      * destruct u as [|x u]; simpl in H.
        -- now injection H as <-.
        -- injection H as _ H. destruct u; discriminate.
    + destruct u as [|x u]; simpl in H; [discriminate|].
      injection H as _ H. eapply IH. exact H.
Qed.

Lemma rstrip_last c s :
  Str.endswith (Str.rstrip p s) (String c "") = true -> p c = false.
Proof.
  intros H. apply endswith_inv in H as [u Hu]. eapply rstrip_snoc, Hu.
Qed.

Lemma lstrip_empty s : Str.lstrip p s = "" <-> Str.all_in p s = true.
Proof.
  induction s as [|a s IH]; simpl; [tauto|].
  destruct (p a); simpl; [exact IH|]. split; discriminate.
Qed.

Lemma all_in_rstrip s : Str.all_in p (Str.rstrip p s) = Str.all_in p s.
Proof.
  induction s as [|a s IH]; simpl; [reflexivity|].
  destruct (Str.rstrip p s) as [|b r] eqn:Hr.
  - simpl in IH. rewrite <- IH. destruct (p a) eqn:Ha; simpl; rewrite ?Ha; reflexivity.
  - change (p a && Str.all_in p (String b r) = p a && Str.all_in p s).
    now rewrite IH.
Qed.

Lemma lstrip_app a b :
  Str.lstrip p a <> "" -> Str.lstrip p (a ++ b) = Str.lstrip p a ++ b.
Proof.
  induction a as [|c a IH]; simpl; [congruence|].
  destruct (p c); [exact IH | reflexivity].
Qed.

Lemma rstrip_app a t :
  Str.rstrip p t <> "" -> Str.rstrip p (a ++ t) = a ++ Str.rstrip p t.
Proof.
  intros Ht. induction a as [|c a IH]; simpl; [reflexivity|].
  rewrite IH. destruct (a ++ Str.rstrip p t) eqn:E; [|now rewrite <- E].
  destruct a; [destruct (Ht E) | discriminate].
Qed.

Lemma rstrip_id s :
  s <> "" -> (forall c, Str.endswith s (String c "") = true -> p c = false) ->
  Str.rstrip p s = s.
Proof.
  induction s as [|a s IH]; [congruence|]. intros _ Hlast. simpl.
  destruct s as [|b s].
  - simpl. rewrite (Hlast a); [reflexivity|].
    simpl. now rewrite Ascii.eqb_refl.
  - rewrite IH; [reflexivity | discriminate |].
    intros c Hc. apply Hlast.
    change (String.eqb (String a (String b s)) (String c "")
            || Str.endswith (String b s) (String c "") = true).
    rewrite Hc. apply orb_true_r.
Qed.

Lemma rstrip_idem s : Str.rstrip p (Str.rstrip p s) = Str.rstrip p s.
Proof.
  induction s as [|a s IH]; simpl; [reflexivity|].
  destruct (Str.rstrip p s) as [|b r] eqn:Hr.
  - destruct (p a) eqn:Ha; simpl; rewrite ?Ha; reflexivity.
  - change (Str.rstrip p (String a (String b r))) with
      (match Str.rstrip p (String b r) with
       | "" => if p a then "" else String a ""
       | String x y => String a (String x y)
       end).
    now rewrite IH.
Qed.

Lemma strip_idem s : Str.strip p (Str.strip p s) = Str.strip p s.
Proof.
  unfold Str.strip.
  destruct (Str.rstrip p (Str.lstrip p s)) as [|c r] eqn:E; [reflexivity|].
  assert (Hc : p c = false).
  { destruct (rstrip_head _ _ _ E) as [s' Hs']. eapply lstrip_head, Hs'. }
  simpl. rewrite Hc. rewrite <- E. apply rstrip_idem.
Qed.

End Strip.

Lemma is_slash_true c : Str.is_slash c = true <-> c = "/"%char.
Proof. apply Ascii.eqb_eq. Qed.

Lemma strip_not_startswith_slash s :
  Str.startswith (Str.strip Str.is_slash s) "/" = false.
Proof.
  unfold Str.startswith, Str.strip.
  destruct (Str.rstrip Str.is_slash (Str.lstrip Str.is_slash s)) as [|c r] eqn:E;
    [reflexivity|].
  destruct (rstrip_head _ _ _ _ E) as [s' Hs'].
  apply lstrip_head in Hs'. simpl. unfold Str.is_slash in Hs'. now rewrite Hs'.
Qed.

Lemma strip_not_endswith_slash s :
  Str.endswith (Str.strip Str.is_slash s) "/" = false.
Proof.
  destruct (Str.endswith _ _) eqn:E; [|reflexivity].
  apply rstrip_last in E. discriminate.
Qed.

(** ** C4 and C5: [normalize_child_weblink] *)

Lemma slash_name_kept (name : string) :
  name <> "" -> Str.endswith name "/" = false ->
  Str.rstrip Str.is_slash ("/" ++ name) = "/" ++ name.
Proof.
  intros Hne Hend. apply rstrip_id; [discriminate|].
  intros c Hc. change ("/" ++ name) with (String "/" name) in Hc.
  rewrite endswith_unfold in Hc. apply orb_true_iff in Hc as [Hc|Hc].
  - apply String.eqb_eq in Hc. injection Hc as _ Hc. contradiction.
  - destruct (Str.is_slash c) eqn:E; [|reflexivity].
    apply is_slash_true in E. subst c. congruence.
Qed.

Lemma normalize_appends (parent : string) (item : entry) (w name : string) :
  e_weblink item = Some w -> e_name item = Some name ->
  Str.all_in Str.is_slash w = false ->
  name <> "" -> Str.endswith name "/" = false ->
  Str.endswith w ("/" ++ name) = false ->
  normalize_child_weblink parent item =
  Str.lstrip Str.is_slash (Str.rstrip Str.is_slash w) ++ "/" ++ name.
Proof.
  intros Hw Hn Hall Hne Hslash Hend. unfold normalize_child_weblink.
  rewrite Hw, Hn. simpl or_empty.
  destruct (String.eqb_spec w "") as [->|_]; [discriminate|].
  destruct (String.eqb_spec name "") as [|_]; [contradiction|].
  rewrite Hend. simpl negb. simpl andb. cbv iota.
  unfold Str.strip.
  assert (Hu : Str.lstrip Str.is_slash (Str.rstrip Str.is_slash w) <> "").
  { intros E. apply lstrip_empty in E. rewrite all_in_rstrip in E. congruence. }
  rewrite lstrip_app by exact Hu.
  assert (Ht := slash_name_kept name Hne Hslash).
  rewrite rstrip_app; rewrite Ht; [reflexivity | discriminate].
Qed.

(** C4 (amended). For every parent path and every entry: when the entry's
    remote path is empty or missing the result is the empty string; the result
    never starts or ends with a slash; and when the entry's name is not empty
    and does not end in a slash, and its remote path is not made of slashes
    only and does not already end in "/"+name, the result ends in "/"+name. *)
Theorem C4_normalize_child_weblink (parent : string) (item : entry) :
  (or_empty (e_weblink item) = "" -> normalize_child_weblink parent item = "") /\
  Str.startswith (normalize_child_weblink parent item) "/" = false /\
  Str.endswith (normalize_child_weblink parent item) "/" = false /\
  (forall w name : string,
     e_weblink item = Some w -> e_name item = Some name ->
     Str.all_in Str.is_slash w = false ->
     name <> "" -> Str.endswith name "/" = false ->
     Str.endswith w ("/" ++ name) = false ->
     Str.endswith (normalize_child_weblink parent item) ("/" ++ name) = true).
Proof.
  split; [|split; [|split]].
  - intros H. unfold normalize_child_weblink. now rewrite H.
  - unfold normalize_child_weblink.
    destruct (String.eqb _ ""); [reflexivity | apply strip_not_startswith_slash].
  - unfold normalize_child_weblink.
    destruct (String.eqb _ ""); [reflexivity | apply strip_not_endswith_slash].
  - intros w name Hw Hn Hall Hne Hslash Hend.
    rewrite (normalize_appends parent item w name) by assumption.
    apply endswith_app.
Qed.

Lemma C4_witness :
  let item := {| e_type := Some "folder"; e_name := Some "2023";
                 e_weblink := Some "/4RaM/vXuYxiCgD/" |} in
  Str.all_in Str.is_slash "/4RaM/vXuYxiCgD/" = false /\
  Str.endswith "/4RaM/vXuYxiCgD/" "/2023" = false /\
  normalize_child_weblink "4RaM/vXuYxiCgD" item = "4RaM/vXuYxiCgD/2023" /\
  Str.endswith (normalize_child_weblink "4RaM/vXuYxiCgD" item) "/2023" = true.
Proof.
  intros item. split; [reflexivity|]. split; [reflexivity|]. split; [reflexivity|].
  refine (proj2 (proj2 (proj2 (C4_normalize_child_weblink "4RaM/vXuYxiCgD" item)))
            "/4RaM/vXuYxiCgD/" "2023" eq_refl eq_refl eq_refl _ eq_refl eq_refl).
  discriminate.
Defined.

(** C4 as stated fails: a remote path made of one slash is not empty and does
    not end in "/"+name, and the result is the bare name. *)
Lemma C4_counterexample :
  let item := {| e_type := Some "folder"; e_name := Some "2023"; e_weblink := Some "/" |} in
  String.eqb "/" "" = false /\
  Str.endswith "/" "/2023" = false /\
  normalize_child_weblink "4RaM/vXuYxiCgD" item = "2023" /\
  Str.endswith (normalize_child_weblink "4RaM/vXuYxiCgD" item) "/2023" = false.
Proof. repeat split. Qed.

(** The append of lines 91-92, for a remote path that is the parent path. *)
Lemma normalize_under_parent (parent : string) (item : entry) (name : string) :
  e_name item = Some name -> name <> "" ->
  e_weblink item = Some parent ->
  parent <> "" -> Str.endswith parent "/" = false ->
  Str.endswith parent ("/" ++ name) = false ->
  normalize_child_weblink parent item = joined_child_path parent name.
Proof.
  intros Hn Hne Hw Hp Hslash Hend. unfold normalize_child_weblink, joined_child_path.
  rewrite Hw, Hn. simpl or_empty.
  destruct (String.eqb_spec parent "") as [|_]; [contradiction|].
  destruct (String.eqb_spec name "") as [|_]; [contradiction|].
  rewrite Hend. simpl negb. simpl andb. cbv iota.
  rewrite (rstrip_id Str.is_slash parent Hp); [reflexivity|].
  intros c Hc. destruct (Str.is_slash c) eqn:E; [|reflexivity].
  apply is_slash_true in E. subst c. congruence.
Qed.

(** C5 (amended). The derived child path is computed from the entry's own
    remote path and name and does not depend on the parent path; it is the
    empty string for an entry without a remote path. For an entry with a
    name it is the parent path joined with "/" and the name, without leading
    and trailing slashes, in both cases in which the remote path is about
    the parent: when the remote path is the parent path joined with "/" and
    the name, which is then not appended again; and when the remote path is
    the parent path itself, not empty, not ending in a slash and not already
    ending in "/"+name, to which the name is then appended. *)
Theorem C5_derived_child_path (parent : string) (item : entry) :
  (forall parent' : string,
     normalize_child_weblink parent' item = normalize_child_weblink parent item) /\
  (or_empty (e_weblink item) = "" -> normalize_child_weblink parent item = "") /\
  (forall name : string,
     e_name item = Some name -> name <> "" ->
     e_weblink item = Some (parent ++ "/" ++ name) ->
     normalize_child_weblink parent item = joined_child_path parent name) /\
  (forall name : string,
     e_name item = Some name -> name <> "" ->
     e_weblink item = Some parent ->
     parent <> "" -> Str.endswith parent "/" = false ->
     Str.endswith parent ("/" ++ name) = false ->
     normalize_child_weblink parent item = joined_child_path parent name).
Proof.
  split; [reflexivity|]. split; [|split].
  - intros H. unfold normalize_child_weblink. now rewrite H.
  - intros name Hn Hne Hw. unfold normalize_child_weblink, joined_child_path.
    rewrite Hw, Hn. simpl or_empty.
    destruct (String.eqb_spec (parent ++ "/" ++ name) "") as [E|_].
    { destruct parent; discriminate. }
    rewrite endswith_app. now rewrite andb_false_r.
  - intros name. apply normalize_under_parent.
Qed.

Lemma C5_witness :
  let item := {| e_type := Some "file"; e_name := Some "a.mp3";
                 e_weblink := Some "4RaM/vXuYxiCgD/a.mp3" |} in
  let under := {| e_type := Some "file"; e_name := Some "a.mp3";
                  e_weblink := Some "4RaM/vXuYxiCgD" |} in
  normalize_child_weblink "4RaM/vXuYxiCgD" item = joined_child_path "4RaM/vXuYxiCgD" "a.mp3" /\
  normalize_child_weblink "4RaM/vXuYxiCgD" under = joined_child_path "4RaM/vXuYxiCgD" "a.mp3" /\
  joined_child_path "4RaM/vXuYxiCgD" "a.mp3" = "4RaM/vXuYxiCgD/a.mp3".
Proof.
  intros item under. split; [|split; [|reflexivity]].
  - refine (proj1 (proj2 (proj2 (C5_derived_child_path "4RaM/vXuYxiCgD" item)))
              "a.mp3" eq_refl _ eq_refl).
    discriminate.
  - refine (proj2 (proj2 (proj2 (C5_derived_child_path "4RaM/vXuYxiCgD" under)))
              "a.mp3" eq_refl _ eq_refl _ eq_refl eq_refl); discriminate.
Defined.

(** C5 as stated fails: an entry with a name and no remote path gets the empty
    path, not the parent path joined with its name. *)
Lemma C5_counterexample :
  let item := {| e_type := Some "folder"; e_name := Some "2023"; e_weblink := None |} in
  normalize_child_weblink "4RaM/vXuYxiCgD" item = "" /\
  joined_child_path "4RaM/vXuYxiCgD" "2023" = "4RaM/vXuYxiCgD/2023" /\
  String.eqb (normalize_child_weblink "4RaM/vXuYxiCgD" item)
             (joined_child_path "4RaM/vXuYxiCgD" "2023") = false.
Proof. repeat split. Qed.

(** ** The order of the sort keys *)

Lemma str_compare_le_trans (a : string) :
  forall b c : string,
    String.compare a b <> Gt -> String.compare b c <> Gt -> String.compare a c <> Gt.
Proof.
  induction a as [|x a IH]; intros [|y b] [|z c]; simpl; try congruence.
  unfold Ascii.compare.
  destruct (N.compare_spec (N_of_ascii x) (N_of_ascii y)) as [Exy|Lxy|Gxy];
    destruct (N.compare_spec (N_of_ascii y) (N_of_ascii z)) as [Eyz|Lyz|Gyz];
    destruct (N.compare_spec (N_of_ascii x) (N_of_ascii z)) as [Exz|Lxz|Gxz];
    try congruence; try lia.
  apply IH.
Qed.

Lemma str_ltb_asym (a b : string) : Str.ltb a b = true -> Str.ltb b a = false.
Proof.
  unfold Str.ltb. rewrite (String.compare_antisym a b).
  destruct (String.compare b a); simpl; congruence.
Qed.

Lemma str_ltb_negtrans (a b c : string) :
  Str.ltb b a = false -> Str.ltb c b = false -> Str.ltb c a = false.
Proof.
  unfold Str.ltb. intros Hab Hbc.
  assert (H1 : String.compare a b <> Gt).
  { rewrite String.compare_antisym. destruct (String.compare b a); simpl; congruence. }
  assert (H2 : String.compare b c <> Gt).
  { rewrite String.compare_antisym. destruct (String.compare c b); simpl; congruence. }
  pose proof (str_compare_le_trans a b c H1 H2) as H3.
  rewrite String.compare_antisym in H3.
  destruct (String.compare c a); simpl in H3; congruence.
Qed.

Lemma date_eqb_eq (a b : Z * Z * Z) : date_eqb a b = true <-> a = b.
Proof.
  destruct a as [[y1 m1] d1], b as [[y2 m2] d2]. unfold date_eqb.
  rewrite !andb_true_iff, !Z.eqb_eq. split; [intros [[-> ->] ->]; reflexivity|].
  intros [= -> -> ->]. auto.
Qed.

Lemma date_lt_spec (a b : Z * Z * Z) :
  date_lt b a = false <-> date_le a b.
Proof.
  destruct a as [[y1 m1] d1], b as [[y2 m2] d2]. unfold date_lt, date_le.
  destruct (Z.eqb_spec y2 y1), (Z.eqb_spec m2 m1); simpl;
    rewrite Z.ltb_ge; lia.
Qed.

Lemma date_le_trans (a b c : Z * Z * Z) : date_le a b -> date_le b c -> date_le a c.
Proof.
  destruct a as [[y1 m1] d1], b as [[y2 m2] d2], c as [[y3 m3] d3].
  unfold date_le. lia.
Qed.

Lemma date_le_antisym (a b : Z * Z * Z) : date_le a b -> date_le b a -> a = b.
Proof.
  destruct a as [[y1 m1] d1], b as [[y2 m2] d2]. unfold date_le.
  intros H1 H2. assert (y1 = y2 /\ m1 = m2 /\ d1 = d2)%Z as (-> & -> & ->) by lia.
  reflexivity.
Qed.

Lemma date_le_total (a b : Z * Z * Z) : date_le a b \/ date_le b a.
Proof.
  destruct a as [[y1 m1] d1], b as [[y2 m2] d2]. unfold date_le. lia.
Qed.

Lemma sort_key_lt_asym (a b : sort_key) :
  sort_key_lt a b = true -> sort_key_lt b a = false.
Proof.
  destruct a as [d1 n1|n1], b as [d2 n2|n2]; simpl; try congruence.
  - destruct (date_eqb d1 d2) eqn:E12; destruct (date_eqb d2 d1) eqn:E21; simpl.
    + apply str_ltb_asym.
    + apply date_eqb_eq in E12. subst. rewrite (proj2 (date_eqb_eq d2 d2) eq_refl) in E21.
      discriminate.
    + apply date_eqb_eq in E21. subst. rewrite (proj2 (date_eqb_eq d1 d1) eq_refl) in E12.
      discriminate.
    + unfold py_lt, date_key_lt. intros H. apply date_lt_spec.
      destruct (date_le_total d1 d2) as [Hle|Hle]; [exact Hle|].
      apply date_lt_spec in Hle. congruence.
  - apply str_ltb_asym.
Qed.

Lemma sort_key_lt_negtrans (a b c : sort_key) :
  sort_key_lt b a = false -> sort_key_lt c b = false -> sort_key_lt c a = false.
Proof.
  destruct a as [d1 n1|n1], b as [d2 n2|n2], c as [d3 n3|n3]; simpl; try congruence.
  - unfold py_lt, date_key_lt, str_lt.
    destruct (date_eqb d2 d1) eqn:E21; destruct (date_eqb d3 d2) eqn:E32; simpl;
      try (apply date_eqb_eq in E21; subst d2); try (apply date_eqb_eq in E32; subst d3).
    + rewrite (proj2 (date_eqb_eq d1 d1) eq_refl). simpl. apply str_ltb_negtrans.
    + rewrite E32. simpl. auto.
    + rewrite E21. simpl. auto.
    + intros H1 H2. apply date_lt_spec in H1, H2.
      destruct (date_eqb d3 d1) eqn:E31; simpl.
      * apply date_eqb_eq in E31. subst d3.
        rewrite (date_le_antisym d1 d2 H1 H2) in E21.
        rewrite (proj2 (date_eqb_eq d2 d2) eq_refl) in E21. discriminate.
      * apply date_lt_spec. eapply date_le_trans; eassumption.
  - apply str_ltb_negtrans.
Qed.

(** ** [sorted] *)

Section SortedFacts.
Context {A K : Type} `{PyLt K} (key : A -> K).
Hypothesis lt_asym : forall a b : K, py_lt a b = true -> py_lt b a = false.
Hypothesis lt_negtrans :
  forall a b c : K, py_lt b a = false -> py_lt c b = false -> py_lt c a = false.

Lemma insert_by_perm (x : A) (l : list A) : insert_by key x l ≡ₚ x :: l.
Proof.
  induction l as [|y l IH]; simpl; [reflexivity|].
  destruct (py_lt (key y) (key x)); [|reflexivity].
  rewrite IH. apply Permutation_swap.
Qed.

Lemma sorted_perm (l : list A) : sorted key l ≡ₚ l.
Proof.
  induction l as [|x l IH]; simpl; [reflexivity|].
  unfold sorted in *. simpl. rewrite insert_by_perm. now rewrite IH.
Qed.

Lemma insert_by_sorted (x : A) (l : list A) :
  StronglySorted (key_le key) l -> StronglySorted (key_le key) (insert_by key x l).
Proof.
  induction 1 as [|y l Hs IH Hy]; simpl.
  - repeat constructor.
  - destruct (py_lt (key y) (key x)) eqn:E.
    + constructor; [exact IH|].
      rewrite insert_by_perm. constructor; [|exact Hy].
      unfold key_le. now apply lt_asym.
    + constructor; [now constructor|].
      constructor; [exact E|].
      eapply Forall_impl; [exact Hy|].
      intros z Hz. unfold key_le in *. eapply lt_negtrans; eassumption.
Qed.

Lemma sorted_strongly (l : list A) : StronglySorted (key_le key) (sorted key l).
Proof.
  induction l as [|x l IH]; [constructor|].
  apply insert_by_sorted, IH.
Qed.

End SortedFacts.

Lemma strongly_sorted_lookup {A} (R : A -> A -> Prop) (l : list A) :
  StronglySorted R l ->
  forall i j a b, (i < j)%nat -> l !! i = Some a -> l !! j = Some b -> R a b.
Proof.
  induction 1 as [|x l Hs IH Hx]; intros i j a b Hij Ha Hb.
  - rewrite lookup_nil in Ha. discriminate.
  - destruct j as [|j]; [lia|]. simpl in Hb.
    destruct i as [|i]; simpl in Ha.
    + injection Ha as <-. rewrite Forall_forall in Hx. apply Hx.
      eapply list_elem_of_lookup_2, Hb.
    + eapply IH; [|eassumption..]. lia.
Qed.

(** ** C1: the order of the files *)

Lemma parse_date_key_strip (name : string) :
  parse_date_key (Str.strip Str.isspace name) = parse_date_key name.
Proof. unfold parse_date_key. now rewrite strip_idem. Qed.

Lemma file_sort_key_spec (f : entry) :
  file_sort_key f =
  match file_date f with
  | None => NameKey (trimmed_lower_name f)
  | Some dk => DateKey dk (trimmed_lower_name f)
  end.
Proof.
  unfold file_sort_key, file_date, trimmed_lower_name.
  now rewrite parse_date_key_strip.
Qed.

Lemma file_key_le (a b : entry) :
  key_le file_sort_key a b ->
  (file_date a = None -> file_date b = None) /\
  (forall da db, file_date a = Some da -> file_date b = Some db -> date_le da db) /\
  (file_date a = None -> file_date b = None ->
   Str.ltb (trimmed_lower_name b) (trimmed_lower_name a) = false).
Proof.
  unfold key_le, py_lt, file_key_lt. rewrite !file_sort_key_spec.
  destruct (file_date a) as [da|], (file_date b) as [db|]; simpl; intros H;
    repeat split; try congruence.
  - intros ? ? [= <-] [= <-].
    destruct (date_eqb db da) eqn:E; simpl in H.
    + apply date_eqb_eq in E. subst. apply date_lt_spec.
      destruct (date_le_total da da) as [Hle|Hle]; now apply date_lt_spec in Hle.
    + now apply date_lt_spec.
  - intros _ _. exact H.
Qed.

Lemma search_hit (p : list Re.piece) (s : string) (gs : list string) :
  Re.match_to_end p s = Some gs -> Re.search p s = Some gs.
Proof. intros H. destruct s; simpl; now rewrite H. Qed.

Lemma parse_episode_name (d1 d2 m1 m2 y1 y2 : ascii) :
  Str.isdigit d1 = true -> Str.isdigit d2 = true ->
  Str.isdigit m1 = true -> Str.isdigit m2 = true ->
  Str.isdigit y1 = true -> Str.isdigit y2 = true ->
  parse_date_key (episode_name d1 d2 m1 m2 y1 y2) =
  Some (year_of (two_digits y1 y2), two_digits m1 m2, two_digits d1 d2).
Proof.
  intros Hd1 Hd2 Hm1 Hm2 Hy1 Hy2. unfold parse_date_key.
  assert (Hstrip : Str.strip Str.isspace (episode_name d1 d2 m1 m2 y1 y2)
                   = episode_name d1 d2 m1 m2 y1 y2) by reflexivity.
  rewrite Hstrip.
  rewrite (search_hit _ _ [String d1 (String d2 ""); String m1 (String m2 "");
                           String y1 (String y2 "")]); [reflexivity|].
  unfold Re.match_to_end.
  cbv -[Str.isdigit].
  now rewrite Hd1, Hd2, Hm1, Hm2, Hy1, Hy2.
Qed.

Example parse_date_key_69 :
  parse_date_key "modern sabahlar_01_02_69.MP3" = Some (2069, 2, 1)%Z.
Proof. reflexivity. Qed.

Example parse_date_key_70 :
  parse_date_key " Archive Modern_Sabahlar_01_02_70.mp3 " = Some (1970, 2, 1)%Z.
Proof. reflexivity. Qed.

Example parse_date_key_blank_in_date :
  parse_date_key "Modern_Sabahlar_01 02 23.mp3" = None.
Proof. reflexivity. Qed.

Example parse_date_key_other : parse_date_key "random.mp3" = None.
Proof. reflexivity. Qed.

(** C1 (amended). For every list of file entries, [sorted] with
    [file_sort_key] returns a permutation of the list in which no file whose
    name does not match [date_re] stands before one whose name matches; the
    matching files stand in chronological order of the decoded date (year,
    then month, then day); the other files stand in the order of their names
    trimmed of surrounding whitespace and in lower case. A name
    [Modern_Sabahlar_DD_MM_YY.mp3] decodes to the year 2000+YY when YY < 70 and
    1900+YY otherwise, the month MM and the day DD. The three files of the
    example sort as the specification says. *)
Theorem C1_file_order (files : list entry) :
  let out := sorted file_sort_key files in
  Permutation out files /\
  (forall (i j : nat) (a b : entry),
     (i < j)%nat -> out !! i = Some a -> out !! j = Some b ->
     (file_date a = None -> file_date b = None) /\
     (forall da db : Z * Z * Z,
        file_date a = Some da -> file_date b = Some db -> date_le da db) /\
     (file_date a = None -> file_date b = None ->
      Str.ltb (trimmed_lower_name b) (trimmed_lower_name a) = false)) /\
  (forall d1 d2 m1 m2 y1 y2 : ascii,
     Str.isdigit d1 = true -> Str.isdigit d2 = true ->
     Str.isdigit m1 = true -> Str.isdigit m2 = true ->
     Str.isdigit y1 = true -> Str.isdigit y2 = true ->
     parse_date_key (episode_name d1 d2 m1 m2 y1 y2) =
     Some (year_of (two_digits y1 y2), two_digits m1 m2, two_digits d1 d2)) /\
  map e_name (sorted file_sort_key
                [file_named "Modern_Sabahlar_01_02_23.mp3";
                 file_named "Modern_Sabahlar_15_01_23.mp3";
                 file_named "random.mp3"])
  = [Some "Modern_Sabahlar_15_01_23.mp3"; Some "Modern_Sabahlar_01_02_23.mp3";
     Some "random.mp3"].
Proof.
  intros out. split; [apply sorted_perm|]. split; [|split].
  - intros i j a b Hij Ha Hb. apply file_key_le.
    eapply (strongly_sorted_lookup (key_le file_sort_key) out); try eassumption.
    apply sorted_strongly.
    + exact sort_key_lt_asym.
    + exact sort_key_lt_negtrans.
  - exact parse_episode_name.
  - reflexivity.
Qed.

Lemma C1_witness :
  let early := file_named "Modern_Sabahlar_15_01_23.mp3" in
  let late := file_named "Modern_Sabahlar_01_02_23.mp3" in
  sorted file_sort_key [late; early; file_named "random.mp3"]
    = [early; late; file_named "random.mp3"] /\
  file_date early = Some (2023, 1, 15)%Z /\
  file_date late = Some (2023, 2, 1)%Z /\
  date_le (2023, 1, 15)%Z (2023, 2, 1)%Z /\
  parse_date_key (episode_name "0" "1" "0" "2" "7" "0") = Some (1970, 2, 1)%Z.
Proof.
  intros early late.
  pose proof (C1_file_order [late; early; file_named "random.mp3"]) as H.
  destruct H as (_ & Hord & Hdec & _).
  split; [reflexivity|]. split; [reflexivity|]. split; [reflexivity|]. split.
  - exact (proj1 (proj2 (Hord 0%nat 1%nat early late (le_n 1) eq_refl eq_refl))
             _ _ eq_refl eq_refl).
  - exact (Hdec "0"%char "1"%char "0"%char "2"%char "7"%char "0"%char eq_refl eq_refl eq_refl eq_refl eq_refl eq_refl).
Defined.

(** C1 as stated fails: the names are compared after trimming, so a name with
    a leading blank does not stand where its lower-case form would put it. *)
Lemma C1_counterexample :
  let a := file_named "alpha.mp3" in
  let z := file_named " zeta.mp3" in
  sorted file_sort_key [z; a] = [a; z] /\
  file_date a = None /\ file_date z = None /\
  Str.ltb (lower_name z) (lower_name a) = true.
Proof. repeat split. Qed.

(** ** C3: the load offset *)

Section PageFacts.
Variable folder_reply : nat -> string -> Z -> Z -> option listing.
Variable current : string.

Lemma load_first_page_eq (w : world) :
  load_first_page_if_needed folder_reply current w =
  if nothing_loaded (session w) then
    let w1 := set_list_log (list_log w ++ [logged folder_reply current w 0]) w in
    match f_reply (logged folder_reply current w 0) with
    | Some r =>
        (Ret tt,
         set_session
           (set_offset (Z.of_nat (length (l_items r)))
              (set_loaded_files
                 (sorted file_sort_key (List.filter (has_type "file") (l_items r)))
                 (set_loaded_folders
                    (sorted folder_sort_key (List.filter (has_type "folder") (l_items r)))
                    (session w)))) w1)
    | None => (Raise RequestException, w1)
    end
  else (Ret tt, w).
Proof.
  unfold load_first_page_if_needed, nothing_loaded, mbind, prog_bind, get_session.
  destruct (_ || _ || _); simpl; [reflexivity|].
  unfold list_dir, logged. simpl.
  destruct (folder_reply _ _ _ _); reflexivity.
Qed.

Lemma load_more_eq (w : world) :
  load_more folder_reply current w =
  let o := offset (session w) in
  let w1 := set_list_log (list_log w ++ [logged folder_reply current w o]) w in
  match f_reply (logged folder_reply current w o) with
  | Some r =>
      (Ret r,
       set_session
         (set_offset (o + Z.of_nat (length (l_items r)))
            (set_loaded_files
               (sorted file_sort_key
                  (loaded_files (session w) ++ List.filter (has_type "file") (l_items r)))
               (set_loaded_folders
                  (sorted folder_sort_key
                     (loaded_folders (session w) ++ List.filter (has_type "folder") (l_items r)))
                  (session w)))) w1)
  | None => (Raise RequestException, w1)
  end.
Proof.
  unfold load_more, mbind, prog_bind, get_session, list_dir, logged. simpl.
  destruct (folder_reply _ _ _ _); reflexivity.
Qed.

Lemma fetched_items_app (l1 l2 : list fetch) :
  fetched_items (l1 ++ l2)%list = (fetched_items l1 + fetched_items l2)%Z.
Proof.
  induction l1 as [|f l1 IH]; simpl; [reflexivity|].
  unfold fetched_items in *. simpl. rewrite IH. destruct (f_reply f); lia.
Qed.

Lemma fetched_items_nonneg (l : list fetch) : (0 <= fetched_items l)%Z.
Proof.
  induction l as [|f l IH]; simpl; [reflexivity|].
  unfold fetched_items in *. simpl. destruct (f_reply f); lia.
Qed.

Lemma fetched_items_one (f : fetch) :
  fetched_items [f] =
  match f_reply f with Some r => Z.of_nat (length (l_items r)) | None => 0%Z end.
Proof. unfold fetched_items. simpl. destruct (f_reply f); lia. Qed.

(** What one interaction does to the log and to the offset. *)
Lemma page_step_offset (a : page_action) (w : world) :
  offset (session w) = fetched_items (list_log w) ->
  let w' := snd (page_step folder_reply current a w) in
  exists new : list fetch,
    list_log w' = (list_log w ++ new)%list /\
    (new = [] \/ exists f, new = [f] /\ f_offset f = offset (session w)) /\
    offset (session w') = (offset (session w) + fetched_items new)%Z.
Proof.
  intros Hinv. destruct a; simpl.
  - rewrite load_first_page_eq.
    destruct (nothing_loaded (session w)) eqn:Hguard.
    2:{ exists []. rewrite app_nil_r. split; [reflexivity|]. split; [now left|].
        cbn. lia. }
    assert (H0 : offset (session w) = 0%Z).
    { pose proof (fetched_items_nonneg (list_log w)) as Hnn.
      unfold nothing_loaded in Hguard. apply negb_true_iff in Hguard.
      apply orb_false_iff in Hguard as [Hguard _].
      apply orb_false_iff in Hguard as [Hguard _].
      apply Z.ltb_ge in Hguard. lia. }
    cbv zeta. remember (logged folder_reply current w 0) as f eqn:Ef.
    exists [f]. rewrite fetched_items_one.
    assert (Hf : f_offset f = offset (session w)) by (subst f; simpl; lia).
    destruct (f_reply f); simpl;
      (split; [reflexivity|]); (split; [right; now exists f|]); lia.
  - unfold mbind, prog_bind. rewrite load_more_eq. cbv zeta.
    remember (logged folder_reply current w (offset (session w))) as f eqn:Ef.
    exists [f]. rewrite fetched_items_one.
    assert (Hf : f_offset f = offset (session w)) by (subst f; reflexivity).
    destruct (f_reply f); simpl;
      (split; [reflexivity|]); (split; [right; now exists f|]); lia.
Qed.

Lemma run_pages_snoc (actions : list page_action) (a : page_action) (w : world) :
  run_pages folder_reply current (actions ++ [a])%list w =
  snd (page_step folder_reply current a (run_pages folder_reply current actions w)).
Proof. unfold run_pages. now rewrite fold_left_app. Qed.

(** A property that every interaction keeps holds after every run. *)
Lemma run_pages_inv (P : world -> Prop) (actions : list page_action) (w : world) :
  P w ->
  (forall a w, P w -> P (snd (page_step folder_reply current a w))) ->
  P (run_pages folder_reply current actions w).
Proof.
  intros H0 Hstep. induction actions as [|a actions IH] using rev_ind; [exact H0|].
  rewrite run_pages_snoc. now apply Hstep.
Qed.

Lemma run_pages_offset (actions : list page_action) (w : world) :
  let w' := run_pages folder_reply current actions (enter_directory w) in
  offset (session w') = fetched_items (list_log w').
Proof.
  apply (run_pages_inv (fun w => offset (session w) = fetched_items (list_log w)));
    [reflexivity|].
  intros a w1 Hinv. destruct (page_step_offset a w1 Hinv) as (new & Hlog & _ & Hoff).
  rewrite Hlog, fetched_items_app. lia.
Qed.

Lemma run_pages_bounded (total : Z) (actions : list page_action) (w : world) :
  (0 <= total)%Z ->
  (forall n weblink o limit r,
     folder_reply n weblink o limit = Some r ->
     (Z.of_nat (length (l_items r)) <= Z.max 0 (total - o))%Z) ->
  let w' := run_pages folder_reply current actions (enter_directory w) in
  (offset (session w') <= total)%Z.
Proof.
  intros Htot Hremote.
  apply (run_pages_inv (fun w => offset (session w) <= total)%Z); [exact Htot|].
  intros a w1 Hle. destruct a; simpl.
  - rewrite load_first_page_eq. destruct (nothing_loaded (session w1)); [|exact Hle].
    cbv zeta. destruct (f_reply _) as [r|] eqn:E; simpl; [|exact Hle].
    apply Hremote in E. lia.
  - unfold mbind, prog_bind. rewrite load_more_eq. cbv zeta.
    destruct (f_reply _) as [r|] eqn:E; simpl; [|exact Hle].
    apply Hremote in E. lia.
Qed.

Lemma filter_types_length (items : list entry) :
  (forall it, it ∈ items -> e_type it = Some "folder" \/ e_type it = Some "file") ->
  (length (List.filter (has_type "folder") items) +
   length (List.filter (has_type "file") items) = length items)%nat.
Proof.
  induction items as [|it items IH]; intros Hty; [reflexivity|].
  assert (Hit := Hty it (list_elem_of_here _ _)).
  assert (IH' := IH (fun x Hx => Hty x (list_elem_of_further _ _ _ Hx))).
  cbn [List.filter].
  assert (Hb : has_type "folder" it = negb (has_type "file" it)).
  { unfold has_type. destruct Hit as [-> | ->]; reflexivity. }
  rewrite Hb. destruct (has_type "file" it); cbn [negb length]; lia.
Qed.

Lemma sorted_length {A K} `{PyLt K} (key : A -> K) (l : list A) :
  length (sorted key l) = length l.
Proof. apply Permutation_length, sorted_perm. Qed.

Lemma run_pages_counts (actions : list page_action) (w : world) :
  (forall n weblink o limit r it,
     folder_reply n weblink o limit = Some r -> it ∈ l_items r ->
     e_type it = Some "folder" \/ e_type it = Some "file") ->
  let w' := run_pages folder_reply current actions (enter_directory w) in
  offset (session w') =
  Z.of_nat (length (loaded_folders (session w')) + length (loaded_files (session w'))).
Proof.
  intros Hty.
  apply (run_pages_inv (fun w => offset (session w) =
    Z.of_nat (length (loaded_folders (session w)) + length (loaded_files (session w)))));
    [reflexivity|].
  intros a w1 Hinv. destruct a; simpl.
  - rewrite load_first_page_eq. destruct (nothing_loaded (session w1)); [|exact Hinv].
    cbv zeta. destruct (f_reply _) as [r|] eqn:E; simpl; [|exact Hinv].
    rewrite !sorted_length. f_equal. symmetry. apply filter_types_length.
    intros it Hit. exact (Hty _ _ _ _ _ it E Hit).
  - unfold mbind, prog_bind. rewrite load_more_eq. cbv zeta.
    destruct (f_reply _) as [r|] eqn:E; simpl; [|exact Hinv].
    rewrite !sorted_length, !length_app, Hinv.
    pose proof (filter_types_length (l_items r) (fun it Hit => Hty _ _ _ _ _ it E Hit)).
    lia.
Qed.

End PageFacts.

(** C3. Starting in a directory where nothing is loaded, after every sequence
    of page loads the offset equals the number of items fetched so far; every
    interaction sends at most one request, at the offset reached so far, and
    moves the offset up by the number of items the request returned; if the
    remote never returns more items than remain of a total past the requested
    offset, the offset never exceeds that total; and if every returned entry
    is a folder or a file, the offset is the number of folders and files
    loaded. *)
Theorem C3_load_offset
    (folder_reply : nat -> string -> Z -> Z -> option listing)
    (current : string) (actions : list page_action) (w0 : world) :
  let w := run_pages folder_reply current actions (enter_directory w0) in
  offset (session w) = fetched_items (list_log w) /\
  (forall a : page_action,
     let w' := snd (page_step folder_reply current a w) in
     exists new : list fetch,
       list_log w' = (list_log w ++ new)%list /\
       (new = [] \/ exists f, new = [f] /\ f_offset f = offset (session w)) /\
       offset (session w') = (offset (session w) + fetched_items new)%Z /\
       ((0 < fetched_items new)%Z -> (offset (session w) < offset (session w'))%Z)) /\
  (forall total : Z,
     (0 <= total)%Z ->
     (forall n weblink o limit r,
        folder_reply n weblink o limit = Some r ->
        (Z.of_nat (length (l_items r)) <= Z.max 0 (total - o))%Z) ->
     (offset (session w) <= total)%Z) /\
  ((forall n weblink o limit r it,
      folder_reply n weblink o limit = Some r -> it ∈ l_items r ->
      e_type it = Some "folder" \/ e_type it = Some "file") ->
   offset (session w) =
   Z.of_nat (length (loaded_folders (session w)) + length (loaded_files (session w)))).
Proof.
  intros w. split; [apply run_pages_offset|]. split; [|split].
  - intros a w'.
    destruct (page_step_offset folder_reply current a w (run_pages_offset _ _ _ _))
      as (new & Hlog & Hone & Hoff).
    exists new. subst w'. repeat split; try assumption. lia.
  - intros total Htot Hremote. now apply run_pages_bounded.
  - intros Hty. now apply run_pages_counts.
Qed.

Lemma serve_within (dir : list entry) (n : nat) (weblink : string) (o limit : Z)
    (r : listing) :
  serve dir n weblink o limit = Some r ->
  (Z.of_nat (length (l_items r)) <= Z.max 0 (Z.of_nat (length dir) - o))%Z.
Proof.
  intros [= <-]. simpl. rewrite length_take, length_drop. lia.
Qed.

Lemma C3_witness :
  let dir := [folder_named "2023"; file_named "a.mp3"; file_named "b.mp3"] in
  let w := run_pages (serve dir) "4RaM/vXuYxiCgD" [FirstPage; LoadMore; FirstPage]
             (enter_directory (boot ∅)) in
  offset (session w) = 3%Z /\
  fetched_items (list_log w) = 3%Z /\
  length (list_log w) = 2%nat /\
  (offset (session w) <= 3)%Z /\
  offset (session w) =
  Z.of_nat (length (loaded_folders (session w)) + length (loaded_files (session w))).
Proof.
  intros dir w.
  pose proof (C3_load_offset (serve dir) "4RaM/vXuYxiCgD"
                [FirstPage; LoadMore; FirstPage] (boot ∅)) as H.
  destruct H as (_ & _ & Hbound & Hcount).
  split; [reflexivity|]. split; [reflexivity|]. split; [reflexivity|]. split.
  - apply (Hbound 3%Z); [lia|]. intros n weblink o limit r Hr.
    exact (serve_within dir n weblink o limit r Hr).
  - apply Hcount. intros n weblink o limit r it [= <-] Hit. simpl in Hit.
    assert (Hin : it ∈ dir).
    { apply elem_of_take in Hit as (i & Hi & _). rewrite lookup_drop in Hi.
      eapply list_elem_of_lookup_2, Hi. }
    unfold dir in Hin. rewrite !elem_of_cons in Hin. rewrite elem_of_nil in Hin.
    destruct Hin as [-> | [-> | [-> | []]]]; simpl; auto.
Defined.

(** ** C2 and C9: the token *)

Section TokenFacts.
Variable token_reply : nat -> option string.

Lemma cached_keeps_session (w : world) :
  session (snd (get_download_token_cached token_reply w)) = session w.
Proof.
  unfold get_download_token_cached.
  destruct (token_memo w) as [[tok stored]|]; [destruct (_ <? _)%Z|];
    try reflexivity; destruct (token_reply _); reflexivity.
Qed.

Lemma store_new_token_eq (w : world) :
  store_new_token token_reply w =
  match get_download_token_cached token_reply w with
  | (Ret tok, w1) =>
      (Ret tok,
       set_session (set_token_ts (Some (default 0%Z (now_ts (session w))))
                      (set_token (Some tok) (session w))) w1)
  | (Raise e, w1) => (Raise e, w1)
  | (Killed, w1) => (Killed, w1)
  end.
Proof.
  unfold store_new_token, mbind, prog_bind.
  pose proof (cached_keeps_session w) as Hs.
  destruct (get_download_token_cached token_reply w) as [[tok|e|] w1]; try reflexivity.
  simpl in Hs. unfold get_session, put_session, mret, prog_ret. simpl. now rewrite Hs.
Qed.

(** A request is sent when the memo is empty or as old as its ttl. *)
Lemma cached_requests (w : world) (tok : string) :
  (forall tok0 stored, token_memo w = Some (tok0, stored) -> (60 * 5 <= clock w - stored)%Z) ->
  token_reply (token_requests w) = Some tok ->
  get_download_token_cached token_reply w =
  (Ret tok, set_token_memo (Some (tok, clock w)) (set_token_requests (S (token_requests w)) w)).
Proof.
  intros Hold Hreply. unfold get_download_token_cached. rewrite Hreply.
  destruct (token_memo w) as [[tok0 stored]|]; [|reflexivity].
  specialize (Hold tok0 stored eq_refl).
  destruct (Z.ltb_spec (clock w - stored) (60 * 5)); [lia | reflexivity].
Qed.

(** The memo answers without a request while it is younger than its ttl. *)
Lemma cached_hit (w : world) (tok : string) (stored : Z) :
  token_memo w = Some (tok, stored) -> (clock w - stored < 60 * 5)%Z ->
  get_download_token_cached token_reply w = (Ret tok, w).
Proof.
  intros Hmemo Hage. unfold get_download_token_cached. rewrite Hmemo.
  destruct (Z.ltb_spec (clock w - stored) (60 * 5)); [reflexivity | lia].
Qed.

End TokenFacts.

(** C2 (amended). With a token held since tick [ts]: while the tick-age is at
    most 240 (60 * 4) the held token is returned and nothing else happens; once
    the tick-age exceeds 240 the token is obtained again through
    [get_download_token_cached], stored with the current tick and returned;
    and if the memo of that function is empty or has expired, this sends a
    request and returns the token the request issues. *)
Theorem C2_refresh_threshold
    (token_reply : nat -> option string) (w : world) (held : string) (ts : Z) :
  token (session w) = Some held -> token_ts (session w) = Some ts ->
  let now := default 0%Z (now_ts (session w)) in
  ((now - ts <= 60 * 4)%Z -> get_download_token token_reply w = (Ret held, w)) /\
  ((60 * 4 < now - ts)%Z ->
   get_download_token token_reply w =
   match get_download_token_cached token_reply w with
   | (Ret tok, w1) =>
       (Ret tok, set_session (set_token_ts (Some now) (set_token (Some tok) (session w))) w1)
   | (Raise e, w1) => (Raise e, w1)
   | (Killed, w1) => (Killed, w1)
   end) /\
  ((60 * 4 < now - ts)%Z ->
   (forall tok0 stored,
      token_memo w = Some (tok0, stored) -> (60 * 5 <= clock w - stored)%Z) ->
   forall tok : string,
     token_reply (token_requests w) = Some tok ->
     exists w' : world,
       get_download_token token_reply w = (Ret tok, w') /\
       token_requests w' = S (token_requests w) /\
       token (session w') = Some tok /\ token_ts (session w') = Some now).
Proof.
  intros Htok Hts now.
  assert (Heq : get_download_token token_reply w =
                if (60 * 4 <? now - ts)%Z then store_new_token token_reply w
                else (Ret held, w)).
  { unfold get_download_token, mbind, prog_bind, get_session. simpl.
    rewrite Htok, Hts. fold now. destruct (_ <? _)%Z; reflexivity. }
  split; [|split].
  - intros Hage. rewrite Heq. destruct (Z.ltb_spec (60 * 4) (now - ts)); [lia | reflexivity].
  - intros Hage. rewrite Heq. destruct (Z.ltb_spec (60 * 4) (now - ts)); [|lia].
    apply store_new_token_eq.
  - intros Hage Hmemo tok Hreply. rewrite Heq.
    destruct (Z.ltb_spec (60 * 4) (now - ts)); [|lia].
    rewrite store_new_token_eq, (cached_requests token_reply w tok Hmemo Hreply).
    eexists. split; [reflexivity|]. repeat split.
Qed.

Lemma C2_witness :
  let w0 := snd (get_download_token issue (boot ∅)) in
  let w3 := ticks 3 w0 in
  let w5 := ticks 5 w0 in
  let w241 := set_clock 14460 (ticks 241 w0) in
  token (session w0) = Some "token-0" /\ token_ts (session w0) = Some 0%Z /\
  get_download_token issue w3 = (Ret "token-0", w3) /\
  get_download_token issue w5 = (Ret "token-0", w5) /\
  exists w' : world,
    get_download_token issue w241 = (Ret "token-1", w') /\
    token_requests w' = 2%nat /\
    token (session w') = Some "token-1" /\ token_ts (session w') = Some 241%Z.
Proof.
  intros w0 w3 w5 w241.
  split; [vm_compute; reflexivity|]. split; [vm_compute; reflexivity|].
  assert (H3 : token (session w3) = Some "token-0" /\ token_ts (session w3) = Some 0%Z /\
               (default 0 (now_ts (session w3)) - 0 <= 60 * 4)%Z)
    by (vm_compute; repeat split; discriminate).
  assert (H5 : token (session w5) = Some "token-0" /\ token_ts (session w5) = Some 0%Z /\
               (default 0 (now_ts (session w5)) - 0 <= 60 * 4)%Z)
    by (vm_compute; repeat split; discriminate).
  assert (H241 : token (session w241) = Some "token-0" /\
                 token_ts (session w241) = Some 0%Z /\
                 (60 * 4 < default 0 (now_ts (session w241)) - 0)%Z /\
                 token_memo w241 = Some ("token-0", 0%Z) /\ (60 * 5 <= clock w241 - 0)%Z /\
                 issue (token_requests w241) = Some "token-1" /\
                 S (token_requests w241) = 2%nat /\
                 default 0%Z (now_ts (session w241)) = 241%Z)
    by (vm_compute; repeat split; discriminate).
  destruct H3 as (H3a & H3b & H3c), H5 as (H5a & H5b & H5c).
  destruct H241 as (Ha & Hb & Hc & Hd & He & Hf & Hg & Hh).
  split; [exact (proj1 (C2_refresh_threshold issue w3 "token-0" 0 H3a H3b) H3c)|].
  split; [exact (proj1 (C2_refresh_threshold issue w5 "token-0" 0 H5a H5b) H5c)|].
  destruct (proj2 (proj2 (C2_refresh_threshold issue w241 "token-0" 0 Ha Hb)) Hc)
    with (tok := "token-1") as (w' & Hget & Hreq & Htok & Hts).
  - intros tok0 stored Hmemo. rewrite Hd in Hmemo. injection Hmemo as <- <-. exact He.
  - exact Hf.
  - exists w'. rewrite Hg in Hreq. rewrite Hh in Hts. now repeat split.
Defined.

(** C2 as stated fails: five interactions after the token was issued the held
    token is returned and no request is sent, although a request would have
    issued a new token. *)
Lemma C2_counterexample :
  let w0 := snd (get_download_token issue (boot ∅)) in
  let w5 := set_clock 14460 (ticks 5 w0) in
  fst (get_download_token issue (boot ∅)) = Ret "token-0" /\
  token_ts (session w0) = Some 0%Z /\ now_ts (session w5) = Some 5%Z /\
  get_download_token issue w5 = (Ret "token-0", w5) /\
  token_requests w5 = 1%nat /\
  fst (get_download_token_cached issue w5) = Ret "token-1".
Proof. vm_compute. repeat split. Qed.

(** C9, at the failing input. Ten seconds after a token was issued the user
    presses "Refresh token": the held token is dropped, and the next request
    for a token returns the same token from the memo without asking the API,
    which would have issued another one. After "Refresh now", which clears
    the memo, the same step does fetch the new token. *)
Theorem C9_refresh_token_returns_memoized :
  let w1 := set_clock 10 (snd (get_download_token issue (boot ∅))) in
  let w2 := snd (refresh_token_button w1) in
  let w3 := snd (refresh_token_button (snd (refresh_now_button w1))) in
  fst (get_download_token issue (boot ∅)) = Ret "token-0" /\
  token_requests w1 = 1%nat /\
  token (session w2) = None /\ token_ts (session w2) = None /\
  fst (get_download_token issue w2) = Ret "token-0" /\
  token_requests (snd (get_download_token issue w2)) = 1%nat /\
  issue 1 = Some "token-1" /\
  fst (get_download_token issue w3) = Ret "token-1".
Proof. vm_compute. repeat split. Qed.

(** ** The progress store *)

Lemma sys_enter_alive (w : world) : lifetime w = None -> sys_enter w = (Ret tt, w).
Proof. unfold sys_enter. now intros ->. Qed.

Lemma sys_enter_spend (w : world) (n : nat) :
  lifetime w = Some (S n) -> sys_enter w = (Ret tt, set_lifetime (Some n) w).
Proof. unfold sys_enter. now intros ->. Qed.

Lemma sys_enter_killed (w : world) : lifetime w = Some O -> sys_enter w = (Killed, w).
Proof. unfold sys_enter. now intros ->. Qed.

Lemma first_free_spec (fs : gmap string node) (pre suf : string) (cands : list string)
    (name : string) (rest : list string) :
  first_free fs pre suf cands = Some (name, rest) ->
  fs !! name = None /\ exists c, name = pre ++ c ++ suf.
Proof.
  induction cands as [|c cands IH]; simpl; [discriminate|].
  destruct (fs !! (pre ++ c ++ suf)) eqn:E; [exact IH|].
  intros [= <- <-]. split; [exact E | now exists c].
Qed.

Lemma tmp_path_fresh (fs : gmap string node) (cands : list string)
    (tmp : string) (rest : list string) :
  first_free fs "progress_" ".json" cands = Some (tmp, rest) ->
  fs !! tmp = None /\ tmp <> PROGRESS_PATH.
Proof.
  intros H. apply first_free_spec in H as [Hfree [c ->]]. split; [exact Hfree|].
  discriminate.
Qed.

(** Runs the system calls of a process that is not killed. *)
Ltac alive H :=
  repeat first
    [ (rewrite sys_enter_alive by exact H)
    | (progress cbn beta iota zeta delta
         [files set_files set_tmp_names tmp_names set_lifetime lifetime fst snd]) ].

(** Runs the system calls of a process up to the one that kills it. *)
Ltac dying H :=
  repeat first
    [ (erewrite sys_enter_spend by first [exact H | reflexivity])
    | (rewrite sys_enter_killed by first [exact H | reflexivity])
    | (progress cbn beta iota zeta delta
         [files set_files set_tmp_names tmp_names set_lifetime lifetime fst snd]) ].

Section ProgressFacts.
Variable json_dumps : pyval -> string.
Variable json_loads : string -> option pyval.

Lemma read_progress_eq (w : world) :
  lifetime w = None ->
  read_progress json_loads w = (Ret (stored_progress json_loads (files w)), w).
Proof.
  intros Hlife.
  unfold read_progress, try_except, read_file, mbind, prog_bind, act, stored_progress.
  rewrite (sys_enter_alive w Hlife).
  destruct (files w !! PROGRESS_PATH) as [[[|] data|]|]; try reflexivity.
  unfold json_load. destruct (json_loads data); reflexivity.
Qed.

Lemma read_progress_no_raise (w : world) (e : exn) (w' : world) :
  read_progress json_loads w <> (Raise e, w').
Proof.
  unfold read_progress, try_except, read_file, mbind, prog_bind, act, sys_enter.
  destruct (lifetime w) as [[|n]|]; simpl; try discriminate;
    (destruct (files w !! PROGRESS_PATH) as [[[|] data|]|]; try discriminate;
     unfold json_load; destruct (json_loads data); discriminate).
Qed.


(** The working directory when [write_progress] ends, with [tmp] the
    temporary file it made. *)
Lemma write_progress_eq (d : pyval) (w : world) :
  lifetime w = None ->
  write_progress json_dumps d w =
  match first_free (files w) "progress_" ".json" (tmp_names w) with
  | None => (Raise FileExistsError, set_tmp_names [] w)
  | Some (tmp, rest) =>
      let written := <[tmp := File true (json_dumps d)]> (<[tmp := File true ""]> (files w)) in
      match files w !! PROGRESS_PATH with
      | Some Dir =>
          (Raise IsADirectoryError, set_files (delete tmp written) (set_tmp_names rest w))
      | _ =>
          (Ret tt,
           set_files (<[PROGRESS_PATH := File true (json_dumps d)]> (delete tmp written))
             (set_tmp_names rest w))
      end
  end.
Proof.
  intros Hlife.
  unfold write_progress, makedirs_exist_ok, mkstemp, mbind, prog_bind, act.
  alive Hlife.
  destruct (first_free _ _ _ _) as [[tmp rest]|] eqn:Hfree; [|reflexivity].
  destruct (tmp_path_fresh _ _ _ _ Hfree) as [Hnone Hne].
  unfold try_finally, try_except, write_file, os_replace, path_exists, os_remove,
    mbind, prog_bind, act.
  alive Hlife. rewrite lookup_insert_eq, !lookup_insert_ne by exact Hne.
  destruct (files w !! PROGRESS_PATH) as [[r data|]|] eqn:Hp; alive Hlife.
  - rewrite lookup_insert_ne by congruence. rewrite lookup_delete_eq.
    rewrite bool_decide_false by (intros [? ?]; discriminate). reflexivity.
  - rewrite lookup_insert_eq, bool_decide_true by eauto.
    alive Hlife. rewrite lookup_insert_eq. reflexivity.
  - rewrite lookup_insert_ne by congruence. rewrite lookup_delete_eq.
    rewrite bool_decide_false by (intros [? ?]; discriminate). reflexivity.
Qed.

(** A process killed before the rename leaves the progress file as it was. *)
Lemma write_progress_killed (d : pyval) (w : world) (n : nat) :
  lifetime w = Some n -> (n <= 3)%nat ->
  files (snd (write_progress json_dumps d w)) !! PROGRESS_PATH = files w !! PROGRESS_PATH.
Proof.
  intros Hlife Hn.
  unfold write_progress, makedirs_exist_ok, mkstemp, mbind, prog_bind, act.
  destruct n as [|[|[|[|n]]]]; try lia; dying Hlife; try reflexivity.
  - destruct (first_free _ _ _ _) as [[tmp rest]|] eqn:Hfree; [|reflexivity].
    destruct (tmp_path_fresh _ _ _ _ Hfree) as [Hnone Hne].
    unfold try_finally, write_file, mbind, prog_bind, act. dying Hlife.
    now rewrite lookup_insert_ne.
  - destruct (first_free _ _ _ _) as [[tmp rest]|] eqn:Hfree; [|reflexivity].
    destruct (tmp_path_fresh _ _ _ _ Hfree) as [Hnone Hne].
    unfold try_finally, write_file, os_replace, mbind, prog_bind, act. dying Hlife.
    now rewrite !lookup_insert_ne.
Qed.

(** Killed at the rename: the temporary file is written in full. *)
Lemma write_progress_killed_at_rename (d : pyval) (w : world)
    (tmp : string) (rest : list string) :
  lifetime w = Some 3%nat ->
  first_free (files w) "progress_" ".json" (tmp_names w) = Some (tmp, rest) ->
  exists wc : world,
    write_progress json_dumps d w = (Killed, wc) /\
    files wc !! tmp = Some (File true (json_dumps d)).
Proof.
  intros Hlife Hfree.
  unfold write_progress, makedirs_exist_ok, mkstemp, mbind, prog_bind, act.
  dying Hlife. rewrite Hfree.
  unfold try_finally, write_file, os_replace, mbind, prog_bind, act. dying Hlife.
  eexists. split; [reflexivity|]. cbn [files set_files]. apply lookup_insert_eq.
Qed.

End ProgressFacts.

Lemma read_after_restart (json_loads : string -> option pyval) (w1 w2 : world) :
  files w1 !! PROGRESS_PATH = files w2 !! PROGRESS_PATH ->
  fst (read_progress json_loads (restart w1)) = fst (read_progress json_loads (restart w2)).
Proof.
  intros H. rewrite !read_progress_eq by reflexivity. simpl.
  unfold stored_progress. simpl. now rewrite H.
Qed.

(** C8. [read_progress] never raises; in a process that is not killed it
    returns a value and leaves the world as it was, and the value is the empty
    record when the file is missing, is a directory, cannot be read, or does
    not hold JSON, and the parsed value otherwise. *)
Theorem C8_read_never_raises (json_loads : string -> option pyval) (w : world) :
  (forall (e : exn) (w' : world), read_progress json_loads w <> (Raise e, w')) /\
  (lifetime w = None ->
   exists v : pyval,
     read_progress json_loads w = (Ret v, w) /\
     (files w !! PROGRESS_PATH = None \/
      files w !! PROGRESS_PATH = Some Dir \/
      (exists data, files w !! PROGRESS_PATH = Some (File false data)) \/
      (exists data, files w !! PROGRESS_PATH = Some (File true data) /\
                    json_loads data = None) ->
      v = PDict ∅) /\
     (forall data v0,
        files w !! PROGRESS_PATH = Some (File true data) ->
        json_loads data = Some v0 -> v = v0)).
Proof.
  split; [intros e w'; apply read_progress_no_raise|].
  intros Hlife. exists (stored_progress json_loads (files w)).
  split; [now apply read_progress_eq|]. unfold stored_progress. split.
  - intros [-> | [-> | [[data ->] | [data [-> ->]]]]]; reflexivity.
  - intros data v0 -> ->. reflexivity.
Qed.

Lemma C8_witness :
  let w := boot {[ PROGRESS_PATH := File true "{not json" ]} in
  MiniJson.loads "{not json" = None /\
  read_progress MiniJson.loads w = (Ret (PDict ∅), w) /\
  read_progress MiniJson.loads (boot ∅) = (Ret (PDict ∅), boot ∅).
Proof.
  intros w. split; [vm_compute; reflexivity|]. split.
  - destruct (proj2 (C8_read_never_raises MiniJson.loads w) eq_refl) as (v & Hv & Hbad & _).
    rewrite Hv. f_equal. f_equal. apply Hbad. right. right. right.
    exists "{not json". split; vm_compute; reflexivity.
  - destruct (proj2 (C8_read_never_raises MiniJson.loads (boot ∅)) eq_refl)
      as (v & Hv & Hbad & _).
    rewrite Hv. f_equal. f_equal. apply Hbad. left. vm_compute. reflexivity.
Defined.

(** C7. If the JSON codec gives back the record [d] it wrote, then in a
    process that is not killed [read_progress] after a [write_progress d] that
    returned gives [d], and [write_progress d] returns whenever the progress
    path is not a directory and a temporary name is free; a process killed at
    any of its first four system calls, the fourth being the rename, leaves
    the progress file as it was, so that [read_progress] after a restart gives
    what it gave before; killed at the rename it leaves the temporary file
    written in full. *)
Theorem C7_progress_round_trip
    (json_dumps : pyval -> string) (json_loads : string -> option pyval)
    (d : pyval) (w : world) :
  json_loads (json_dumps d) = Some d ->
  (lifetime w = None ->
   (forall w' : world,
      write_progress json_dumps d w = (Ret tt, w') ->
      read_progress json_loads w' = (Ret d, w')) /\
   (files w !! PROGRESS_PATH <> Some Dir ->
    first_free (files w) "progress_" ".json" (tmp_names w) <> None ->
    exists w' : world, write_progress json_dumps d w = (Ret tt, w'))) /\
  (forall n : nat,
     lifetime w = Some n -> (n <= 3)%nat ->
     let wc := snd (write_progress json_dumps d w) in
     files wc !! PROGRESS_PATH = files w !! PROGRESS_PATH /\
     fst (read_progress json_loads (restart wc)) = fst (read_progress json_loads (restart w))) /\
  (lifetime w = Some 3%nat ->
   forall (tmp : string) (rest : list string),
     first_free (files w) "progress_" ".json" (tmp_names w) = Some (tmp, rest) ->
     exists wc : world,
       write_progress json_dumps d w = (Killed, wc) /\
       files wc !! tmp = Some (File true (json_dumps d)) /\
       files wc !! PROGRESS_PATH = files w !! PROGRESS_PATH).
Proof.
  intros Hrep. split; [|split].
  - intros Hlife. split.
    + intros w' Hw. rewrite (write_progress_eq json_dumps d w Hlife) in Hw.
      destruct (first_free _ _ _ _) as [[tmp rest]|]; [|discriminate].
      cbv zeta in Hw.
      destruct (files w !! PROGRESS_PATH) as [[r data|]|]; try discriminate;
        injection Hw as <-;
        (rewrite read_progress_eq by exact Hlife); unfold stored_progress; simpl;
        rewrite lookup_insert_eq, Hrep; reflexivity.
    + intros Hdir Hfree. rewrite (write_progress_eq json_dumps d w Hlife).
      destruct (first_free _ _ _ _) as [[tmp rest]|]; [|congruence]. cbv zeta.
      destruct (files w !! PROGRESS_PATH) as [[r data|]|]; try congruence; eauto.
  - intros n Hlife Hn wc.
    assert (Hsame := write_progress_killed json_dumps d w n Hlife Hn).
    split; [exact Hsame | now apply read_after_restart].
  - intros Hlife tmp rest Hfree.
    destruct (write_progress_killed_at_rename json_dumps d w tmp rest Hlife Hfree)
      as (wc & Hrun & Htmp).
    exists wc. repeat split; try assumption.
    pose proof (write_progress_killed json_dumps d w 3 Hlife (le_n 3)) as Hsame.
    now rewrite Hrun in Hsame.
Qed.

Lemma C7_witness :
  let w := boot (with_progress example_record) in
  let d := PDict later_record in
  MiniJson.loads (MiniJson.dumps d) = Some d /\
  read_progress MiniJson.loads w = (Ret (PDict example_record), w) /\
  (exists w' : world,
     write_progress MiniJson.dumps d w = (Ret tt, w') /\
     read_progress MiniJson.loads w' = (Ret d, w')) /\
  (exists wc : world,
     write_progress MiniJson.dumps d (set_lifetime (Some 3%nat) w) = (Killed, wc) /\
     files wc !! "progress_x7k2m9qa.json" = Some (File true (MiniJson.dumps d)) /\
     fst (read_progress MiniJson.loads (restart wc)) = Ret (PDict example_record)).
Proof.
  intros w d.
  assert (Hrep : MiniJson.loads (MiniJson.dumps d) = Some d) by (vm_compute; reflexivity).
  assert (Hold : read_progress MiniJson.loads w = (Ret (PDict example_record), w))
    by (vm_compute; reflexivity).
  split; [exact Hrep|]. split; [exact Hold|].
  pose proof (C7_progress_round_trip MiniJson.dumps MiniJson.loads d w Hrep)
    as (Hlive & _ & _).
  pose proof (C7_progress_round_trip MiniJson.dumps MiniJson.loads d
                (set_lifetime (Some 3%nat) w) Hrep) as (_ & Hkill & Hat).
  split.
  - destruct (Hlive eq_refl) as [Hread Hret].
    destruct Hret as [w' Hw'].
    + vm_compute. discriminate.
    + vm_compute. discriminate.
    + exists w'. split; [exact Hw' | exact (Hread w' Hw')].
  - destruct (Hat eq_refl "progress_x7k2m9qa.json" ["b3n8w1zc"]) as (wc & Hrun & Htmp & _).
    { vm_compute. reflexivity. }
    exists wc. split; [exact Hrun|]. split; [exact Htmp|].
    destruct (Hkill 3%nat eq_refl (le_n 3)) as [_ Hsame].
    rewrite Hrun in Hsame. simpl in Hsame. rewrite Hsame.
    vm_compute. reflexivity.
Defined.

(** ** C6 and C10: the remembered files *)

Lemma py_in_true (v : pyval) (names : list string) :
  py_in v names = true <-> exists c, v = PStr c /\ c ∈ names.
Proof.
  unfold py_in. rewrite existsb_exists. split.
  - intros (c & Hc & Heq). destruct v; try discriminate.
    apply String.eqb_eq in Heq. subst. exists c. split; [reflexivity|].
    now apply list_elem_of_In.
  - intros (c & -> & Hc). exists c. split; [now apply list_elem_of_In|].
    apply String.eqb_refl.
Qed.

Lemma py_eq_str_true (v : pyval) (s : string) : py_eq_str v s = true <-> v = PStr s.
Proof.
  destruct v; simpl; try (split; [discriminate | intros [=]]).
  rewrite String.eqb_eq. split; [now intros -> | now intros [= ->]].
Qed.

(** [p.get("per_folder", {}) or {}] of a record whose [per_folder] is usable. *)
Lemma per_folder_or_empty (m : gmap string pyval) :
  per_folder_usable m = true ->
  py_or (default (PDict ∅) (m !! "per_folder")) (PDict ∅) = PDict (per_folder_of m).
Proof.
  unfold per_folder_usable, per_folder_of, py_or.
  destruct (m !! "per_folder") as [v|]; [|reflexivity].
  destruct v as [ | b | n | s | l | pf]; intros H; cbn [from_option id];
    try (apply negb_true_iff in H; now rewrite H).
  simpl. destruct (Nat.eqb_spec (size pf) 0) as [E|E]; simpl; [|reflexivity].
  apply map_size_empty_iff in E. now subst.
Qed.

(** The same expression, when it evaluates to a mapping at all. *)
Lemma per_folder_or_empty_inv (m pf : gmap string pyval) :
  py_or (default (PDict ∅) (m !! "per_folder")) (PDict ∅) = PDict pf ->
  pf = per_folder_of m /\ per_folder_usable m = true.
Proof.
  unfold per_folder_usable, per_folder_of, py_or.
  destruct (m !! "per_folder") as [v|]; [|simpl; intros [= <-]; auto].
  destruct v as [ | b | n | s | l | pf0]; simpl.
  - intros [= <-]; auto.
  - destruct b; simpl; [discriminate | intros [= <-]; auto].
  - destruct (n =? 0)%Z; simpl; [intros [= <-]; auto | discriminate].
  - destruct (String.eqb s ""); simpl; [intros [= <-]; auto | discriminate].
  - destruct (Nat.eqb (length l) 0); simpl; [intros [= <-]; auto | discriminate].
  - destruct (Nat.eqb_spec (size pf0) 0) as [E|E]; simpl; intros [= <-]; auto.
    apply map_size_empty_iff in E. auto.
Qed.

Section PickFacts.
Variable json_loads : string -> option pyval.

Lemma pick_last_eq (w : world) (m : gmap string pyval) (folder : string)
    (names : list string) :
  lifetime w = None ->
  read_progress json_loads w = (Ret (PDict m), w) ->
  per_folder_usable m = true ->
  pick_last_for_folder json_loads folder names w =
  (Ret (let cand := default PNone (per_folder_of m !! folder) in
        if py_in cand names then cand
        else if py_eq_str (default PNone (m !! "last_folder")) folder
                && py_in (default PNone (m !! "last_file")) names
             then default PNone (m !! "last_file")
             else PNone), w).
Proof.
  intros Hlife Hread Huse.
  unfold pick_last_for_folder, mbind, prog_bind. rewrite Hread.
  unfold py_get at 1. unfold mret, prog_ret.
  rewrite (per_folder_or_empty m Huse). unfold py_get. unfold mret, prog_ret.
  cbv zeta.
  destruct (py_in (default PNone (per_folder_of m !! folder)) names); [reflexivity|].
  destruct (py_eq_str (default PNone (m !! "last_folder")) folder); [|reflexivity].
  simpl. destruct (py_in (default PNone (m !! "last_file")) names); reflexivity.
Qed.

End PickFacts.

(** C6. For a persisted record whose [per_folder], if any, is a mapping,
    [pick_last_for_folder] returns, in a process that is not killed and
    without changing anything: the name remembered for the folder when it is
    one of the available names; otherwise [last_file] when [last_folder] is
    the folder and [last_file] is one of the available names; otherwise
    [None]. With [per_folder = {X: a.mp3}] it returns a.mp3 for folder X among
    a.mp3 and b.mp3, and [None] among b.mp3 alone. *)
Theorem C6_pick_last
    (json_loads : string -> option pyval) (w : world)
    (folder : string) (names : list string) :
  lifetime w = None ->
  (forall m : gmap string pyval,
     read_progress json_loads w = (Ret (PDict m), w) ->
     per_folder_usable m = true ->
     exists v : pyval,
       pick_last_for_folder json_loads folder names w = (Ret v, w) /\
       (forall c : string,
          per_folder_of m !! folder = Some (PStr c) -> c ∈ names -> v = PStr c) /\
       ((forall c : string, per_folder_of m !! folder = Some (PStr c) -> c ∉ names) ->
        forall l : string,
          m !! "last_folder" = Some (PStr folder) ->
          m !! "last_file" = Some (PStr l) -> l ∈ names -> v = PStr l) /\
       ((forall c : string, per_folder_of m !! folder = Some (PStr c) -> c ∉ names) ->
        (m !! "last_folder" = Some (PStr folder) ->
         forall l : string, m !! "last_file" = Some (PStr l) -> l ∉ names) ->
        v = PNone)) /\
  (read_progress json_loads w = (Ret (PDict example_record), w) ->
   pick_last_for_folder json_loads "X" ["a.mp3"; "b.mp3"] w = (Ret (PStr "a.mp3"), w) /\
   pick_last_for_folder json_loads "X" ["b.mp3"] w = (Ret PNone, w)).
Proof.
  intros Hlife. split.
  - intros m Hread Huse. eexists.
    split; [exact (pick_last_eq json_loads w m folder names Hlife Hread Huse)|].
    cbv zeta. split; [|split].
    + intros c Hc Hin. rewrite Hc. cbn [from_option id].
      rewrite (proj2 (py_in_true (PStr c) names) (ex_intro _ c (conj eq_refl Hin))).
      reflexivity.
    + intros Hnot l Hfolder Hfile Hin.
      destruct (py_in (default PNone (per_folder_of m !! folder)) names) eqn:E.
      { apply py_in_true in E as (c & Hc & Hcin).
        destruct (per_folder_of m !! folder) as [v|] eqn:Hv; simpl in Hc; [|discriminate].
        subst v. now destruct (Hnot c eq_refl). }
      rewrite Hfolder, Hfile. cbn [from_option id].
      rewrite (proj2 (py_eq_str_true (PStr folder) folder)) by reflexivity.
      rewrite (proj2 (py_in_true (PStr l) names) (ex_intro _ l (conj eq_refl Hin))).
      reflexivity.
    + intros Hnot Hlast.
      destruct (py_in (default PNone (per_folder_of m !! folder)) names) eqn:E.
      { apply py_in_true in E as (c & Hc & Hcin).
        destruct (per_folder_of m !! folder) as [v|] eqn:Hv; simpl in Hc; [|discriminate].
        subst v. now destruct (Hnot c eq_refl). }
      destruct (py_eq_str (default PNone (m !! "last_folder")) folder) eqn:Ef; [|reflexivity].
      destruct (py_in (default PNone (m !! "last_file")) names) eqn:El; [|reflexivity].
      apply py_eq_str_true in Ef. apply py_in_true in El as (l & Hl & Hlin).
      destruct (m !! "last_folder") as [lf|]; simpl in Ef; [|discriminate]. subst lf.
      destruct (m !! "last_file") as [lv|]; simpl in Hl; [|discriminate]. subst lv.
      now destruct (Hlast eq_refl l eq_refl).
  - intros Hread. split.
    + rewrite (pick_last_eq json_loads w example_record "X" _ Hlife Hread eq_refl).
      vm_compute. reflexivity.
    + rewrite (pick_last_eq json_loads w example_record "X" _ Hlife Hread eq_refl).
      vm_compute. reflexivity.
Qed.

Lemma C6_witness :
  let w := boot (with_progress example_record) in
  read_progress MiniJson.loads w = (Ret (PDict example_record), w) /\
  per_folder_of example_record !! "X" = Some (PStr "a.mp3") /\
  pick_last_for_folder MiniJson.loads "X" ["a.mp3"; "b.mp3"] w = (Ret (PStr "a.mp3"), w) /\
  pick_last_for_folder MiniJson.loads "X" ["b.mp3"] w = (Ret PNone, w).
Proof.
  intros w.
  assert (Hread : read_progress MiniJson.loads w = (Ret (PDict example_record), w))
    by (vm_compute; reflexivity).
  assert (Hx : per_folder_of example_record !! "X" = Some (PStr "a.mp3"))
    by (vm_compute; reflexivity).
  split; [exact Hread|]. split; [exact Hx|]. split.
  - destruct (proj1 (C6_pick_last MiniJson.loads w "X" ["a.mp3"; "b.mp3"] eq_refl)
                example_record Hread eq_refl) as (v & Hv & Hfirst & _ & _).
    rewrite Hv. now rewrite (Hfirst "a.mp3" Hx (list_elem_of_here _ _)).
  - destruct (proj1 (C6_pick_last MiniJson.loads w "X" ["b.mp3"] eq_refl)
                example_record Hread eq_refl) as (v & Hv & _ & _ & Hnone).
    rewrite Hv. rewrite Hnone; [reflexivity | |].
    + intros c Hc. rewrite Hx in Hc. injection Hc as <-.
      intros Hin. inversion Hin as [|? ? ? Hin']; inversion Hin'.
    + intros Hlast. vm_compute in Hlast. discriminate.
Defined.

Lemma per_folder_of_insert (m pf : gmap string pyval) :
  per_folder_of (<["per_folder" := PDict pf]> m) = pf.
Proof. unfold per_folder_of. now rewrite lookup_insert_eq. Qed.

Section UpdateFacts.
Variable json_dumps : pyval -> string.
Variable json_loads : string -> option pyval.

Lemma update_progress_eq (w : world) (folder filename : string) :
  lifetime w = None ->
  update_progress json_dumps json_loads folder filename w =
  match stored_progress json_loads (files w) with
  | PDict m =>
      match py_or (default (PDict ∅) (m !! "per_folder")) (PDict ∅) with
      | PDict pf =>
          write_progress json_dumps
            (PDict (<["per_folder" := PDict (<[folder := PStr filename]> pf)]>
                      (<["last_file" := PStr filename]>
                         (<["last_folder" := PStr folder]> m)))) w
      | _ => (Raise TypeError, w)
      end
  | _ => (Raise TypeError, w)
  end.
Proof.
  intros Hlife. unfold update_progress, mbind, prog_bind.
  rewrite (read_progress_eq json_loads w Hlife).
  destruct (stored_progress json_loads (files w)) as [ | | | | |m]; try reflexivity.
  cbn [py_setitem py_get mret prog_ret].
  rewrite lookup_insert_ne by discriminate. rewrite lookup_insert_ne by discriminate.
  destruct (py_or _ _); reflexivity.
Qed.

End UpdateFacts.

(** C10. In a process that is not killed, when [update_progress folder
    filename] returns, the record read from disk was a mapping [m] and the
    progress file holds the dump of a mapping [m'] that has [last_folder =
    folder], [last_file = filename], [per_folder[folder] = filename], the same
    [per_folder] entry as [m] for every other folder, and the same value as
    [m] under every other key. It returns whenever the record read is a
    mapping whose [per_folder], if any, is a mapping, the progress path is not
    a directory and a temporary name is free. *)
Theorem C10_update_progress_frame
    (json_dumps : pyval -> string) (json_loads : string -> option pyval)
    (w : world) (folder filename : string) :
  lifetime w = None ->
  (forall w' : world,
     update_progress json_dumps json_loads folder filename w = (Ret tt, w') ->
     exists m m' : gmap string pyval,
       read_progress json_loads w = (Ret (PDict m), w) /\
       files w' !! PROGRESS_PATH = Some (File true (json_dumps (PDict m'))) /\
       m' !! "last_folder" = Some (PStr folder) /\
       m' !! "last_file" = Some (PStr filename) /\
       per_folder_of m' !! folder = Some (PStr filename) /\
       (forall g : string, g <> folder -> per_folder_of m' !! g = per_folder_of m !! g) /\
       (forall k : string,
          k <> "last_folder" -> k <> "last_file" -> k <> "per_folder" ->
          m' !! k = m !! k)) /\
  (forall m : gmap string pyval,
     read_progress json_loads w = (Ret (PDict m), w) ->
     per_folder_usable m = true ->
     files w !! PROGRESS_PATH <> Some Dir ->
     first_free (files w) "progress_" ".json" (tmp_names w) <> None ->
     exists w' : world,
       update_progress json_dumps json_loads folder filename w = (Ret tt, w')).
Proof.
  intros Hlife. split.
  - intros w' Hrun. rewrite (update_progress_eq _ _ w folder filename Hlife) in Hrun.
    pose proof (read_progress_eq json_loads w Hlife) as Hread.
    destruct (stored_progress json_loads (files w)) as [ | | | | |m]; try discriminate.
    destruct (py_or _ _) as [ | | | | |pf] eqn:Hpf; try discriminate.
    apply per_folder_or_empty_inv in Hpf as [-> _].
    rewrite (write_progress_eq json_dumps _ w Hlife) in Hrun.
    destruct (first_free _ _ _ _) as [[tmp rest]|]; [|discriminate].
    cbv zeta in Hrun.
    exists m. eexists. split; [exact Hread|]. split.
    { destruct (files w !! PROGRESS_PATH) as [[r data|]|]; try discriminate;
        injection Hrun as <-; cbn [files set_files]; apply lookup_insert_eq. }
    split.
    { rewrite lookup_insert_ne by discriminate. rewrite lookup_insert_ne by discriminate.
      apply lookup_insert_eq. }
    split.
    { rewrite lookup_insert_ne by discriminate. apply lookup_insert_eq. }
    rewrite !per_folder_of_insert.
    split; [apply lookup_insert_eq|]. split.
    + intros g Hg. now rewrite lookup_insert_ne.
    + intros k H1 H2 H3. now rewrite !lookup_insert_ne.
  - intros m Hread Huse Hdir Hfree.
    rewrite (update_progress_eq _ _ w folder filename Hlife).
    rewrite (read_progress_eq json_loads w Hlife) in Hread. injection Hread as ->.
    rewrite (per_folder_or_empty m Huse).
    rewrite (write_progress_eq json_dumps _ w Hlife).
    destruct (first_free _ _ _ _) as [[tmp rest]|]; [|congruence]. cbv zeta.
    destruct (files w !! PROGRESS_PATH) as [[r data|]|]; try congruence; eauto.
Qed.

Lemma C10_witness :
  let w := boot (with_progress example_record) in
  read_progress MiniJson.loads w = (Ret (PDict example_record), w) /\
  exists w' : world,
    update_progress MiniJson.dumps MiniJson.loads "Y" "c.mp3" w = (Ret tt, w') /\
    read_progress MiniJson.loads w' = (Ret (PDict later_record), w') /\
    per_folder_of later_record !! "X" = per_folder_of example_record !! "X".
Proof.
  intros w.
  assert (Hread : read_progress MiniJson.loads w = (Ret (PDict example_record), w))
    by (vm_compute; reflexivity).
  split; [exact Hread|].
  pose proof (C10_update_progress_frame MiniJson.dumps MiniJson.loads w "Y" "c.mp3" eq_refl)
    as [Hframe Hreturns].
  destruct (Hreturns example_record Hread eq_refl) as [w' Hw'].
  - vm_compute. discriminate.
  - vm_compute. discriminate.
  - exists w'. split; [exact Hw'|].
    destruct (Hframe w' Hw') as (m & m' & _ & _ & _ & _ & _ & _ & _).
    assert (Hw'' : w' = snd (update_progress MiniJson.dumps MiniJson.loads "Y" "c.mp3" w))
      by now rewrite Hw'.
    rewrite Hw''. split; vm_compute; reflexivity.
Defined.

(** ** [safe_quote], the stream URL and the player markup *)

(** The characters a quoted string is made of. *)
Lemma all_in_app (p : ascii -> bool) (a b : string) :
  Str.all_in p (a ++ b) = Str.all_in p a && Str.all_in p b.
Proof.
  induction a as [|c a IH]; [reflexivity|].
  change (String c a ++ b) with (String c (a ++ b)). simpl.
  now rewrite IH, andb_assoc.
Qed.

Lemma quote_char_alphabet (c : ascii) :
  Str.all_in url_char (Url.quote_char SAFE c) = true.
Proof. destruct c as [[] [] [] [] [] [] [] []]; vm_compute; reflexivity. Qed.

Lemma quote_char_safe (c : ascii) :
  url_safe c = true -> Url.quote_char SAFE c = String c "".
Proof. destruct c as [[] [] [] [] [] [] [] []]; vm_compute; congruence. Qed.

Lemma unquote_head_quote_char (c : ascii) (r : string) :
  Unquote.head (Url.quote_char SAFE c ++ r) = Some (c, r).
Proof. destruct c as [[] [] [] [] [] [] [] []]; reflexivity. Qed.

(** X1. Whatever the path, [safe_quote] returns only letters, digits, the
    punctuation it is told to keep and percent signs: no blank, no double
    quote, no character above U+007F; and a string made of characters it
    keeps comes back unchanged. *)
Theorem X1_safe_quote_alphabet (s : string) :
  Str.all_in url_char (safe_quote s) = true /\
  count_char " " (safe_quote s) = 0%nat /\
  count_char dquote (safe_quote s) = 0%nat /\
  (Str.all_in url_safe s = true -> safe_quote s = s).
Proof.
  assert (Hall : Str.all_in url_char (safe_quote s) = true).
  { unfold safe_quote. induction s as [|c s IH]; [reflexivity|].
    simpl. now rewrite all_in_app, quote_char_alphabet, IH. }
  assert (Hcount : forall (x : ascii) (t : string),
             url_char x = false -> Str.all_in url_char t = true -> count_char x t = 0%nat).
  { intros x t Hx. induction t as [|y t IH]; [reflexivity|]. simpl.
    intros Ht. apply andb_true_iff in Ht as [Hy Ht].
    destruct (Ascii.eqb_spec y x) as [->|_]; [congruence | now apply IH]. }
  split; [exact Hall|]. split; [now apply Hcount|]. split; [now apply Hcount|].
  clear Hall. unfold safe_quote. induction s as [|c s IH]; [reflexivity|]. simpl.
  intros H. apply andb_true_iff in H as [Hc Hs].
  now rewrite (quote_char_safe c Hc), (IH Hs).
Qed.

Lemma X1_witness :
  Str.all_in url_safe "4RaM/vXuYxiCgD/2023/Modern_Sabahlar_15_01_23.mp3" = true /\
  safe_quote "4RaM/vXuYxiCgD/2023/Modern_Sabahlar_15_01_23.mp3"
  = "4RaM/vXuYxiCgD/2023/Modern_Sabahlar_15_01_23.mp3" /\
  safe_quote "Modern Sabahlar 15_01_23.mp3" = "Modern%20Sabahlar%2015_01_23.mp3".
Proof.
  split; [reflexivity|]. split; [|vm_compute; reflexivity].
  exact (proj2 (proj2 (proj2
    (X1_safe_quote_alphabet "4RaM/vXuYxiCgD/2023/Modern_Sabahlar_15_01_23.mp3"))) eq_refl).
Defined.

Lemma str_length_app (a b : string) :
  String.length (a ++ b) = (String.length a + String.length b)%nat.
Proof.
  induction a as [|c a IH]; [reflexivity|].
  change (String c a ++ b) with (String c (a ++ b)). simpl. now rewrite IH.
Qed.

Lemma str_app_inv_tail (a b t : string) : a ++ t = b ++ t -> a = b.
Proof.
  revert b. induction a as [|x a IH]; intros [|y b] H.
  - reflexivity.
  - apply (f_equal String.length) in H. rewrite !str_length_app in H. simpl in H. lia.
  - apply (f_equal String.length) in H. rewrite !str_length_app in H. simpl in H. lia.
  - change (String x (a ++ t) = String y (b ++ t)) in H. injection H as -> H.
    f_equal. now apply IH.
Qed.

Lemma safe_quote_inj (s1 s2 : string) : safe_quote s1 = safe_quote s2 -> s1 = s2.
Proof.
  unfold safe_quote. revert s2.
  induction s1 as [|c1 s1 IH]; intros [|c2 s2] H; simpl in H.
  - reflexivity.
  - apply (f_equal Unquote.head) in H. rewrite unquote_head_quote_char in H. discriminate.
  - apply (f_equal Unquote.head) in H. rewrite unquote_head_quote_char in H. discriminate.
  - apply (f_equal Unquote.head) in H. rewrite !unquote_head_quote_char in H.
    injection H as -> H. f_equal. now apply IH.
Qed.

(** X2. [safe_quote] loses nothing: two paths have the same quoted form
    exactly when they are the same path, and so two stream URLs built on one
    base URL and one token are equal exactly when the trimmed paths are. *)
Theorem X2_safe_quote_injective (s1 s2 base_url tok : string) :
  String.eqb (safe_quote s1) (safe_quote s2) = String.eqb s1 s2 /\
  String.eqb (build_file_url base_url tok s1) (build_file_url base_url tok s2)
  = String.eqb (Str.strip Str.is_slash s1) (Str.strip Str.is_slash s2).
Proof.
  assert (Hq : forall a b, String.eqb (safe_quote a) (safe_quote b) = String.eqb a b).
  { intros a b. destruct (String.eqb_spec a b) as [->|Hne]; [apply String.eqb_refl|].
    apply String.eqb_neq. intros H. now apply Hne, safe_quote_inj. }
  split; [apply Hq|].
  rewrite <- (Hq (Str.strip Str.is_slash s1) (Str.strip Str.is_slash s2)).
  unfold build_file_url.
  set (q1 := safe_quote (Str.strip Str.is_slash s1)).
  set (q2 := safe_quote (Str.strip Str.is_slash s2)).
  destruct (String.eqb_spec q1 q2) as [->|Hne]; [apply String.eqb_refl|].
  apply String.eqb_neq. intros H. apply Hne.
  apply (String.app_inj base_url) in H. apply (String.app_inj "/") in H.
  now apply str_app_inv_tail in H.
Qed.

Lemma count_char_app (x : ascii) (a b : string) :
  count_char x (a ++ b) = (count_char x a + count_char x b)%nat.
Proof.
  induction a as [|c a IH]; [reflexivity|].
  change (String c a ++ b) with (String c (a ++ b)). simpl. rewrite IH. lia.
Qed.

Lemma quote_char_keeps (x c : ascii) :
  x = "/"%char \/ x = "?"%char \/ x = "#"%char ->
  count_char x (Url.quote_char SAFE c) = count_char x (String c "").
Proof.
  intros [-> | [-> | ->]]; destruct c as [[] [] [] [] [] [] [] []]; reflexivity.
Qed.

(** X3. The stream URL of an entry uses the child path as
    [normalize_child_weblink] returned it: trimming it again changes nothing.
    In the quoted path every slash, question mark and hash sign of the path
    stands unescaped, and no other is added. *)
Theorem X3_stream_url (base_url tok parent : string) (item : entry) (path : string) :
  build_file_url base_url tok (normalize_child_weblink parent item)
  = base_url ++ "/" ++ safe_quote (normalize_child_weblink parent item) ++ "?key=" ++ tok /\
  count_char "/" (safe_quote path) = count_char "/" path /\
  count_char "?" (safe_quote path) = count_char "?" path /\
  count_char "#" (safe_quote path) = count_char "#" path.
Proof.
  split.
  - unfold build_file_url, normalize_child_weblink.
    destruct (String.eqb _ ""); [reflexivity | now rewrite strip_idem].
  - assert (H : forall x : ascii, x = "/"%char \/ x = "?"%char \/ x = "#"%char ->
                count_char x (safe_quote path) = count_char x path).
    { intros x Hx. unfold safe_quote. induction path as [|c s IH]; [reflexivity|].
      change (Url.quote SAFE (String c s)) with (Url.quote_char SAFE c ++ Url.quote SAFE s).
      rewrite count_char_app, IH, (quote_char_keeps x c Hx). simpl. lia. }
    repeat split; apply H; auto.
Qed.

(** X4. Whatever the source URL, the player markup holds exactly eight double
    quotes, the ones around its four attribute values: a double quote in the
    URL is written as %22 and cannot end the [src] attribute. *)
Theorem X4_audio_html_quotes (src : string) :
  count_char dquote (audio_html src) = 8%nat /\
  count_char dquote (replace_char dquote "%22" src) = 0%nat.
Proof.
  assert (Hesc : count_char dquote (replace_char dquote "%22" src) = 0%nat).
  { induction src as [|c s IH]; [reflexivity|]. simpl.
    destruct (Ascii.eqb_spec c dquote) as [->|Hne].
    - rewrite count_char_app, IH. reflexivity.
    - simpl. rewrite IH. now apply Ascii.eqb_neq in Hne as ->. }
  split; [|exact Hesc]. unfold audio_html. cbv zeta.
  rewrite !count_char_app, Hesc. reflexivity.
Qed.

(** ** The filter of the loaded files *)

Lemma isspace_lower (c : ascii) : Str.isspace (Str.lower_char c) = Str.isspace c.
Proof. destruct c as [[] [] [] [] [] [] [] []]; reflexivity. Qed.

Lemma lower_char_idem (c : ascii) : Str.lower_char (Str.lower_char c) = Str.lower_char c.
Proof. destruct c as [[] [] [] [] [] [] [] []]; reflexivity. Qed.

Lemma lower_idem (s : string) : Str.lower (Str.lower s) = Str.lower s.
Proof. induction s as [|c s IH]; simpl; [reflexivity|]. now rewrite lower_char_idem, IH. Qed.

Lemma lstrip_lower (s : string) :
  Str.lstrip Str.isspace (Str.lower s) = Str.lower (Str.lstrip Str.isspace s).
Proof.
  induction s as [|c s IH]; simpl; [reflexivity|].
  rewrite isspace_lower. destruct (Str.isspace c); [exact IH | reflexivity].
Qed.

Lemma rstrip_lower (s : string) :
  Str.rstrip Str.isspace (Str.lower s) = Str.lower (Str.rstrip Str.isspace s).
Proof.
  induction s as [|c s IH]; simpl; [reflexivity|].
  rewrite IH, isspace_lower.
  destruct (Str.rstrip Str.isspace s); simpl; [destruct (Str.isspace c)|]; reflexivity.
Qed.

Lemma strip_lower (s : string) :
  Str.strip Str.isspace (Str.lower s) = Str.lower (Str.strip Str.isspace s).
Proof. unfold Str.strip. now rewrite lstrip_lower, rstrip_lower. Qed.

Lemma strip_blank (p : ascii -> bool) (s : string) :
  Str.all_in p s = true -> Str.strip p s = "".
Proof.
  intros H. unfold Str.strip. now rewrite (proj2 (lstrip_empty p s) H).
Qed.

Lemma filter_all {A} (f : A -> bool) (l : list A) :
  (forall x, f x = true) -> List.filter f l = l.
Proof. intros H. induction l as [|x l IH]; simpl; [reflexivity|]. now rewrite H, IH. Qed.

Lemma filter_sublist {A} (f : A -> bool) (l : list A) : sublist (List.filter f l) l.
Proof.
  induction l as [|x l IH]; simpl; [constructor|].
  destruct (f x); now constructor.
Qed.

Lemma filter_filter_same {A} (f : A -> bool) (l : list A) :
  List.filter f (List.filter f l) = List.filter f l.
Proof.
  induction l as [|x l IH]; simpl; [reflexivity|].
  destruct (f x) eqn:E; simpl; [now rewrite E, IH | exact IH].
Qed.

(** X5. The filtered view keeps the loaded files in their order and drops the
    others; a query that is empty or all blanks keeps every file; a query and
    its lower-case form select the same files; filtering a filtered view again
    changes nothing. *)
Theorem X5_filter_files (text : string) (files : list entry) :
  sublist (filter_files text files) files /\
  (Str.all_in Str.isspace text = true -> filter_files text files = files) /\
  filter_files (Str.lower text) files = filter_files text files /\
  filter_files text (filter_files text files) = filter_files text files.
Proof.
  split; [apply filter_sublist|]. split; [|split].
  - intros H. unfold filter_files. rewrite (strip_blank _ _ H). simpl.
    now apply filter_all.
  - unfold filter_files. now rewrite strip_lower, lower_idem.
  - apply filter_filter_same.
Qed.

Lemma X5_witness :
  Str.all_in Str.isspace "   " = true /\
  filter_files "   " [file_named "a.mp3"; file_named "B.mp3"]
  = [file_named "a.mp3"; file_named "B.mp3"] /\
  filter_files " B.MP " [file_named "a.mp3"; file_named "B.mp3"] = [file_named "B.mp3"].
Proof.
  split; [reflexivity|]. split; [|vm_compute; reflexivity].
  exact (proj1 (proj2 (X5_filter_files "   " [file_named "a.mp3"; file_named "B.mp3"]))
           eq_refl).
Defined.

(** ** Navigation *)

Lemma rstrip_empty (p : ascii -> bool) (s : string) :
  Str.rstrip p s = "" <-> Str.all_in p s = true.
Proof.
  split.
  - intros H. rewrite <- all_in_rstrip, H. reflexivity.
  - induction s as [|c s IH]; simpl; [reflexivity|].
    intros H. apply andb_true_iff in H as [Hc Hs]. now rewrite (IH Hs), Hc.
Qed.

Lemma strip_empty (p : ascii -> bool) (s : string) :
  String.eqb (Str.strip p s) "" = Str.all_in p s.
Proof.
  destruct (Str.all_in p s) eqn:E.
  - now rewrite strip_blank.
  - apply String.eqb_neq. unfold Str.strip. intros H.
    apply rstrip_empty in H.
    destruct (Str.lstrip p s) as [|c r] eqn:El.
    + apply lstrip_empty in El. congruence.
    + apply lstrip_head in El. simpl in H. now rewrite El in H.
Qed.

(** X6. [normalize_child_weblink] returns the empty string, the sign that an
    entry cannot be opened, exactly when the entry has no remote path, or when
    its remote path and its name are both made of slashes only. *)
Theorem X6_not_navigable (parent : string) (item : entry) :
  String.eqb (normalize_child_weblink parent item) ""
  = String.eqb (or_empty (e_weblink item)) ""
    || Str.all_in Str.is_slash (or_empty (e_weblink item))
       && Str.all_in Str.is_slash (or_empty (e_name item)).
Proof.
  unfold normalize_child_weblink.
  set (w := or_empty (e_weblink item)). set (name := or_empty (e_name item)).
  destruct (String.eqb_spec w "") as [Hw|Hw]; [reflexivity|]. cbn [orb].
  rewrite strip_empty.
  destruct (String.eqb_spec name "") as [->|Hn]; cbn [negb andb].
  { simpl. now rewrite andb_true_r. }
  destruct (Str.endswith w ("/" ++ name)) eqn:E; cbn [negb].
  - apply endswith_inv in E as [u Hu]. rewrite Hu, !all_in_app.
    change (Str.all_in Str.is_slash "/") with true. cbn [andb].
    destruct (Str.all_in Str.is_slash u), (Str.all_in Str.is_slash name); reflexivity.
  - rewrite !all_in_app, all_in_rstrip. reflexivity.
Qed.

Lemma normalize_trimmed (parent : string) (item : entry) :
  normalize_child_weblink parent item <> "" ->
  trimmed_path (normalize_child_weblink parent item).
Proof.
  intros H. split; [exact H|]. unfold normalize_child_weblink in *.
  destruct (String.eqb _ ""); [congruence|].
  split; [apply strip_not_startswith_slash | apply strip_not_endswith_slash].
Qed.

Lemma nav_step_shape (share : string) (a : nav_action) (s : session_state) (rest : list string) :
  nav s = share :: rest -> Forall trimmed_path rest ->
  exists rest', nav (nav_step share a s) = share :: rest' /\ Forall trimmed_path rest'.
Proof.
  intros Hnav Hrest. destruct a as [ | |f]; simpl.
  - exists []. split; [reflexivity | constructor].
  - rewrite Hnav. destruct rest as [|p rest]; simpl; [exists []; rewrite Hnav; auto|].
    exists (removelast (p :: rest)). split; [reflexivity|].
    destruct (exists_last (l := p :: rest)) as (l' & x & Hl); [discriminate|].
    rewrite Hl, removelast_last. rewrite Hl in Hrest.
    apply Forall_app in Hrest. tauto.
  - destruct (String.eqb_spec (normalize_child_weblink (current_of s) f) "") as [E|E]; simpl.
    + exists rest. auto.
    + exists (rest ++ [normalize_child_weblink (current_of s) f])%list.
      rewrite Hnav. split; [reflexivity|].
      apply Forall_app. split; [exact Hrest|].
      constructor; [now apply normalize_trimmed | constructor].
Qed.

(** X7. From the first run on, whatever buttons are pressed, the navigation
    stack is never empty and starts with the share; every path pushed after it
    is non-empty and has no leading or trailing slash. A step that changes the
    stack clears the offset, the loaded files and folders and the selection
    together, and no step touches the token. "Up one level" after a folder was
    opened gives back the stack as it was. *)
Theorem X7_navigation_stack (share : string) (actions : list nav_action)
    (s0 : session_state) :
  let s := run_nav share actions (start_nav share s0) in
  (exists rest : list string, nav s = share :: rest /\ Forall trimmed_path rest) /\
  (forall a : nav_action,
     let s' := nav_step share a s in
     (nav s' <> nav s ->
      offset s' = 0%Z /\ loaded_files s' = [] /\ loaded_folders s' = [] /\
      selected_name s' = None) /\
     token s' = token s /\ token_ts s' = token_ts s /\ now_ts s' = now_ts s) /\
  (forall f : entry,
     String.eqb (normalize_child_weblink (current_of s) f) "" = false ->
     nav (nav_step share UpOneLevel (nav_step share (OpenFolder f) s)) = nav s).
Proof.
  intros s.
  assert (Hshape : exists rest, nav s = share :: rest /\ Forall trimmed_path rest).
  { subst s. induction actions as [|a actions IH] using rev_ind.
    - exists []. split; [reflexivity | constructor].
    - unfold run_nav in *. rewrite fold_left_app. simpl.
      destruct IH as (rest & Hnav & Hrest). eapply nav_step_shape; eassumption. }
  split; [exact Hshape|]. split.
  - intros a s'. subst s'. split.
    + destruct a as [ | |f]; simpl.
      * auto.
      * destruct (1 <? length (nav s))%nat; [auto|]. intros H. now destruct H.
      * destruct (String.eqb (normalize_child_weblink (current_of s) f) ""); simpl; [|auto].
        intros H. now destruct H.
    + destruct a as [ | |f]; simpl.
      * auto.
      * destruct (1 <? length (nav s))%nat; auto.
      * destruct (String.eqb (normalize_child_weblink (current_of s) f) ""); auto.
  - intros f Hchild. destruct Hshape as (rest & Hnav & _).
    cbn [nav_step]. rewrite Hchild. cbn [negb].
    cbn [nav reset_listing set_nav set_selected_name set_loaded_folders set_loaded_files
           set_offset].
    rewrite length_app, Hnav. simpl length.
    replace (1 <? S (length rest) + 1)%nat with true by (symmetry; apply Nat.ltb_lt; lia).
    cbn [nav reset_listing set_nav set_selected_name set_loaded_folders set_loaded_files
           set_offset].
    unfold pop. now rewrite removelast_last.
Qed.

Lemma X7_witness :
  let year := {| e_type := Some "folder"; e_name := Some "2023";
                 e_weblink := Some "4RaM/vXuYxiCgD/2023" |} in
  let s := run_nav "4RaM/vXuYxiCgD" [OpenFolder year]
             (start_nav "4RaM/vXuYxiCgD" empty_session) in
  nav s = ["4RaM/vXuYxiCgD"; "4RaM/vXuYxiCgD/2023"] /\
  nav (nav_step "4RaM/vXuYxiCgD" UpOneLevel
         (nav_step "4RaM/vXuYxiCgD" (OpenFolder year)
            (run_nav "4RaM/vXuYxiCgD" [] (start_nav "4RaM/vXuYxiCgD" empty_session))))
  = ["4RaM/vXuYxiCgD"].
Proof.
  intros year s. split; [vm_compute; reflexivity|].
  exact (proj2 (proj2 (X7_navigation_stack "4RaM/vXuYxiCgD" [] empty_session)) year eq_refl).
Defined.

(** ** The loaded folders and files *)

Lemma str_ltb_irrefl (a : string) : Str.ltb a a = false.
Proof.
  destruct (Str.ltb a a) eqn:E; [|reflexivity].
  pose proof (str_ltb_asym a a E). congruence.
Qed.

Section Stable.
Context {A K : Type} `{PyLt K} (key : A -> K) (same : A -> bool).
Hypothesis same_not_lt :
  forall x y : A, same x = true -> same y = true -> py_lt (key x) (key y) = false.

Lemma insert_by_filter (x : A) (l : list A) :
  List.filter same (insert_by key x l) = List.filter same (x :: l).
Proof.
  induction l as [|y l IH]; [reflexivity|]. simpl insert_by.
  destruct (py_lt (key y) (key x)) eqn:E; [|reflexivity].
  simpl. rewrite IH. simpl.
  destruct (same y) eqn:Ey, (same x) eqn:Ex; try reflexivity.
  rewrite (same_not_lt y x Ey Ex) in E. discriminate.
Qed.

(** [sorted] is stable: entries that do not compare keep their order. *)
Lemma sorted_stable (l : list A) : List.filter same (sorted key l) = List.filter same l.
Proof.
  induction l as [|x l IH]; [reflexivity|].
  unfold sorted in *. simpl foldr. rewrite insert_by_filter. simpl. now rewrite IH.
Qed.
End Stable.

(** X8. [sorted] with [folder_sort_key] returns the folders in ascending
    order of their lower-case names, loses and adds none, and keeps folders
    whose names agree up to case in the order they came in. *)
Theorem X8_folder_order (folders : list entry) (name : string) :
  let out := sorted folder_sort_key folders in
  Permutation out folders /\
  (forall (i j : nat) (a b : entry),
     (i < j)%nat -> out !! i = Some a -> out !! j = Some b ->
     Str.ltb (lower_name b) (lower_name a) = false) /\
  List.filter (fun f => String.eqb (lower_name f) name) out
  = List.filter (fun f => String.eqb (lower_name f) name) folders.
Proof.
  intros out. split; [apply sorted_perm|]. split.
  - intros i j a b Hij Ha Hb.
    apply (strongly_sorted_lookup (key_le folder_sort_key) out) with i j; try assumption.
    apply sorted_strongly.
    + exact str_ltb_asym.
    + exact str_ltb_negtrans.
  - apply sorted_stable. intros x y Hx Hy.
    apply String.eqb_eq in Hx, Hy. unfold folder_sort_key, lower_name in *.
    rewrite Hx, Hy. apply str_ltb_irrefl.
Qed.

Lemma X8_witness :
  map e_name (sorted folder_sort_key
                [folder_named "b"; folder_named "A"; folder_named "B"; folder_named "a"])
  = [Some "A"; Some "a"; Some "b"; Some "B"] /\
  Str.ltb (lower_name (folder_named "b")) (lower_name (folder_named "A")) = false.
Proof.
  split; [vm_compute; reflexivity|].
  exact (proj1 (proj2 (X8_folder_order
           [folder_named "b"; folder_named "A"; folder_named "B"; folder_named "a"] ""))
           0%nat 2%nat (folder_named "A") (folder_named "b") (le_S _ _ (le_n 1))
           eq_refl eq_refl).
Defined.

Lemma sorted_files_strongly (l : list entry) :
  StronglySorted (key_le file_sort_key) (sorted file_sort_key l).
Proof. apply sorted_strongly; [exact sort_key_lt_asym | exact sort_key_lt_negtrans]. Qed.

Lemma sorted_folders_strongly (l : list entry) :
  StronglySorted (key_le folder_sort_key) (sorted folder_sort_key l).
Proof. apply sorted_strongly; [exact str_ltb_asym | exact str_ltb_negtrans]. Qed.

Section LoadedFacts.
Variable folder_reply : nat -> string -> Z -> Z -> option listing.
Variable current : string.

Lemma fetched_entries_app (t : string) (l1 l2 : list fetch) :
  fetched_entries t (l1 ++ l2)%list = (fetched_entries t l1 ++ fetched_entries t l2)%list.
Proof. unfold fetched_entries. apply flat_map_app. Qed.

Lemma page_step_loaded (a : page_action) (w : world) :
  loaded_ok w -> loaded_ok (snd (page_step folder_reply current a w)).
Proof.
  intros (Hf & Hd & Hsf & Hsd). destruct a; simpl.
  - rewrite load_first_page_eq.
    destruct (nothing_loaded (session w)) eqn:Hguard; [|repeat split; assumption].
    assert (Hempty : loaded_files (session w) = [] /\ loaded_folders (session w) = []).
    { unfold nothing_loaded in Hguard. apply negb_true_iff in Hguard.
      apply orb_false_iff in Hguard as [Hguard H2].
      apply orb_false_iff in Hguard as [_ H1].
      apply negb_false_iff, Nat.eqb_eq in H1, H2.
      split; now apply length_zero_iff_nil. }
    destruct Hempty as [E1 E2]. rewrite E1 in Hf. rewrite E2 in Hd.
    apply Permutation_nil in Hf, Hd.
    cbv zeta. remember (logged folder_reply current w 0) as f eqn:Ef.
    destruct (f_reply f) as [r|] eqn:Er; unfold loaded_ok; simpl;
      rewrite !fetched_entries_app, Hf, Hd; unfold fetched_entries at 1 2; simpl;
      rewrite Er, ?app_nil_r.
    + repeat split; try apply sorted_perm;
        [apply sorted_files_strongly | apply sorted_folders_strongly].
    + rewrite E1, E2. repeat split; constructor.
  - unfold mbind, prog_bind. rewrite load_more_eq. cbv zeta.
    remember (logged folder_reply current w (offset (session w))) as f eqn:Ef.
    destruct (f_reply f) as [r|] eqn:Er; unfold loaded_ok; simpl;
      rewrite !fetched_entries_app; unfold fetched_entries at 2 4; simpl;
      rewrite Er, ?app_nil_r.
    + repeat split; try (rewrite sorted_perm; now apply Permutation_app_tail);
        [apply sorted_files_strongly | apply sorted_folders_strongly].
    + repeat split; assumption.
Qed.

Lemma run_pages_loaded (actions : list page_action) (w : world) :
  loaded_ok (run_pages folder_reply current actions (enter_directory w)).
Proof.
  apply run_pages_inv; [|intros a w1; apply page_step_loaded].
  repeat split; constructor.
Qed.

End LoadedFacts.

(** X9. After every sequence of page loads in a directory, the loaded files
    are exactly the file entries of the pages fetched so far, and the loaded
    folders the folder entries, none lost and none twice; the files stand
    with the dated ones first in chronological order and the others by
    trimmed lower-case name, the folders by lower-case name. *)
Theorem X9_loaded_lists
    (folder_reply : nat -> string -> Z -> Z -> option listing)
    (current : string) (actions : list page_action) (w0 : world) :
  let w := run_pages folder_reply current actions (enter_directory w0) in
  Permutation (loaded_files (session w)) (fetched_entries "file" (list_log w)) /\
  Permutation (loaded_folders (session w)) (fetched_entries "folder" (list_log w)) /\
  (forall (i j : nat) (a b : entry),
     (i < j)%nat ->
     loaded_files (session w) !! i = Some a -> loaded_files (session w) !! j = Some b ->
     (file_date a = None -> file_date b = None) /\
     (forall da db : Z * Z * Z,
        file_date a = Some da -> file_date b = Some db -> date_le da db) /\
     (file_date a = None -> file_date b = None ->
      Str.ltb (trimmed_lower_name b) (trimmed_lower_name a) = false)) /\
  (forall (i j : nat) (a b : entry),
     (i < j)%nat ->
     loaded_folders (session w) !! i = Some a -> loaded_folders (session w) !! j = Some b ->
     Str.ltb (lower_name b) (lower_name a) = false).
Proof.
  intros w. destruct (run_pages_loaded folder_reply current actions w0)
    as (Hf & Hd & Hsf & Hsd).
  split; [exact Hf|]. split; [exact Hd|]. split.
  - intros i j a b Hij Ha Hb. apply file_key_le.
    exact (strongly_sorted_lookup _ _ Hsf i j a b Hij Ha Hb).
  - intros i j a b Hij Ha Hb.
    exact (strongly_sorted_lookup _ _ Hsd i j a b Hij Ha Hb).
Qed.

Lemma X9_witness :
  let dir := [file_named "random.mp3"; folder_named "2023";
              file_named "Modern_Sabahlar_15_01_23.mp3"] in
  let w := run_pages (serve dir) "4RaM/vXuYxiCgD" [FirstPage; LoadMore]
             (enter_directory (boot ∅)) in
  map e_name (loaded_files (session w))
  = [Some "Modern_Sabahlar_15_01_23.mp3"; Some "random.mp3"] /\
  map e_name (loaded_folders (session w)) = [Some "2023"] /\
  (file_date (file_named "Modern_Sabahlar_15_01_23.mp3") = None ->
   file_date (file_named "random.mp3") = None).
Proof.
  intros dir w. split; [vm_compute; reflexivity|]. split; [vm_compute; reflexivity|].
  assert (H0 : loaded_files (session w) !! 0%nat
               = Some (file_named "Modern_Sabahlar_15_01_23.mp3")) by (vm_compute; reflexivity).
  assert (H1 : loaded_files (session w) !! 1%nat = Some (file_named "random.mp3"))
    by (vm_compute; reflexivity).
  exact (proj1 (proj1 (proj2 (proj2 (X9_loaded_lists (serve dir) "4RaM/vXuYxiCgD"
           [FirstPage; LoadMore] (boot ∅)))) 0%nat 1%nat _ _ (le_n 1) H0 H1)).
Defined.

Section GuardFacts.
Variable folder_reply : nat -> string -> Z -> Z -> option listing.
Variable current : string.

Lemma nothing_fetched (t : string) (log : list fetch) :
  fetched_items log = 0%Z -> fetched_entries t log = [].
Proof.
  induction log as [|f log IH]; [reflexivity|].
  change (f :: log) with ([f] ++ log)%list.
  rewrite fetched_items_app, fetched_entries_app, fetched_items_one.
  pose proof (fetched_items_nonneg log) as Hnn.
  unfold fetched_entries at 1. simpl.
  destruct (f_reply f) as [r|]; intros H.
  - assert (Hr : l_items r = []) by (apply length_zero_iff_nil; lia).
    rewrite Hr. simpl. apply IH. lia.
  - simpl. apply IH. lia.
Qed.

Lemma page_step_failure (a : page_action) (w : world) (e : exn) (w' : world) :
  page_step folder_reply current a w = (Raise e, w') ->
  e = RequestException /\ session w' = session w.
Proof.
  destruct a; simpl.
  - rewrite load_first_page_eq. destruct (nothing_loaded (session w)); [|discriminate].
    cbv zeta. destruct (f_reply _); [discriminate|]. intros [= <- <-]. auto.
  - unfold mbind, prog_bind. rewrite load_more_eq. cbv zeta.
    destruct (f_reply _); [discriminate|]. intros [= <- <-]. auto.
Qed.

End GuardFacts.

(** X10. In a directory where at least one item was fetched,
    [load_first_page_if_needed] sends no request and changes nothing; where
    every request so far returned no item it sends one request, at offset 0.
    When a request of either loader fails the exception is the request's and
    the session state is as before. *)
Theorem X10_first_page_guard
    (folder_reply : nat -> string -> Z -> Z -> option listing)
    (current : string) (actions : list page_action) (w0 : world) :
  let w := run_pages folder_reply current actions (enter_directory w0) in
  ((0 < fetched_items (list_log w))%Z ->
   load_first_page_if_needed folder_reply current w = (Ret tt, w)) /\
  (fetched_items (list_log w) = 0%Z ->
   list_log (snd (load_first_page_if_needed folder_reply current w))
   = (list_log w ++ [logged folder_reply current w 0])%list) /\
  (forall (a : page_action) (e : exn) (w' : world),
     page_step folder_reply current a w = (Raise e, w') ->
     e = RequestException /\ session w' = session w).
Proof.
  intros w.
  pose proof (run_pages_offset folder_reply current actions w0) as Hoff.
  destruct (run_pages_loaded folder_reply current actions w0) as (Hf & Hd & _ & _).
  fold w in Hoff, Hf, Hd. cbv zeta in Hoff. fold w in Hoff.
  split; [|split].
  - intros Hpos. rewrite load_first_page_eq. unfold nothing_loaded.
    replace (0 <? offset (session w))%Z with true by (symmetry; apply Z.ltb_lt; lia).
    reflexivity.
  - intros Hzero. rewrite load_first_page_eq.
    rewrite (nothing_fetched "file" _ Hzero) in Hf.
    rewrite (nothing_fetched "folder" _ Hzero) in Hd.
    apply Permutation_sym, Permutation_nil in Hf.
    apply Permutation_sym, Permutation_nil in Hd.
    unfold nothing_loaded. rewrite Hf, Hd, Hoff, Hzero. simpl.
    destruct (folder_reply _ _ _ _); reflexivity.
  - intros a e w'. apply page_step_failure.
Qed.

Lemma X10_witness :
  let dir := [folder_named "2023"; file_named "a.mp3"] in
  let w := run_pages (serve dir) "4RaM/vXuYxiCgD" [FirstPage] (enter_directory (boot ∅)) in
  fetched_items (list_log w) = 2%Z /\
  load_first_page_if_needed (serve dir) "4RaM/vXuYxiCgD" w = (Ret tt, w) /\
  length (list_log (snd (load_first_page_if_needed (serve []) "4RaM/vXuYxiCgD"
                           (run_pages (serve []) "4RaM/vXuYxiCgD" [FirstPage]
                              (enter_directory (boot ∅)))))) = 2%nat.
Proof.
  intros dir w.
  assert (H2 : fetched_items (list_log w) = 2%Z) by (vm_compute; reflexivity).
  split; [exact H2|]. split; [|vm_compute; reflexivity].
  apply (proj1 (X10_first_page_guard (serve dir) "4RaM/vXuYxiCgD" [FirstPage] (boot ∅))).
  fold w. rewrite H2. reflexivity.
Defined.

(** ** The progress store: what is left on disk, and what comes back *)

Section StoreFacts.
Variable json_dumps : pyval -> string.
Variable json_loads : string -> option pyval.

(** The temporary file is gone when [write_progress] ends. *)
Lemma tmp_removed (fs : gmap string node) (tmp : string) (a b : node) :
  fs !! tmp = None -> delete tmp (<[tmp := a]> (<[tmp := b]> fs)) = fs.
Proof.
  intros H. apply map_eq. intros k. destruct (decide (k = tmp)) as [->|Hk].
  - now rewrite lookup_delete_eq.
  - now rewrite lookup_delete_ne, !lookup_insert_ne by congruence.
Qed.

Lemma write_progress_files (d : pyval) (w : world) :
  lifetime w = None ->
  write_progress json_dumps d w =
  match first_free (files w) "progress_" ".json" (tmp_names w) with
  | None => (Raise FileExistsError, set_tmp_names [] w)
  | Some (tmp, rest) =>
      match files w !! PROGRESS_PATH with
      | Some Dir => (Raise IsADirectoryError, set_files (files w) (set_tmp_names rest w))
      | _ =>
          (Ret tt,
           set_files (<[PROGRESS_PATH := File true (json_dumps d)]> (files w))
             (set_tmp_names rest w))
      end
  end.
Proof.
  intros Hlife. rewrite (write_progress_eq json_dumps d w Hlife).
  destruct (first_free _ _ _ _) as [[tmp rest]|] eqn:Hfree; [|reflexivity].
  destruct (tmp_path_fresh _ _ _ _ Hfree) as [Hnone _]. cbv zeta.
  now rewrite (tmp_removed _ _ _ _ Hnone).
Qed.

(** What [update_progress] does to a record that is a usable mapping. *)
Lemma update_progress_usable (w : world) (m : gmap string pyval)
    (folder filename : string) :
  lifetime w = None ->
  stored_progress json_loads (files w) = PDict m ->
  per_folder_usable m = true ->
  update_progress json_dumps json_loads folder filename w =
  write_progress json_dumps (PDict (updated_record m folder filename)) w.
Proof.
  intros Hlife Hm Huse. rewrite (update_progress_eq _ _ w folder filename Hlife), Hm.
  now rewrite (per_folder_or_empty m Huse).
Qed.

Lemma updated_record_usable (m : gmap string pyval) (folder filename : string) :
  per_folder_usable (updated_record m folder filename) = true.
Proof. unfold per_folder_usable, updated_record. now rewrite lookup_insert_eq. Qed.

Lemma per_folder_of_updated (m : gmap string pyval) (folder filename : string) :
  per_folder_of (updated_record m folder filename)
  = <[folder := PStr filename]> (per_folder_of m).
Proof. apply per_folder_of_insert. Qed.

(** A record that is not read as a mapping, or whose [per_folder] is a true
    value other than a mapping. *)
Lemma or_not_dict (v : pyval) :
  truthy v = true -> (forall pf, v <> PDict pf) ->
  forall pf : gmap string pyval, py_or v (PDict ∅) <> PDict pf.
Proof.
  intros Ht Hv pf. unfold py_or. rewrite Ht. apply Hv.
Qed.

Lemma unusable_inv (m : gmap string pyval) :
  per_folder_usable m = false ->
  exists v, m !! "per_folder" = Some v /\ truthy v = true /\ forall pf, v <> PDict pf.
Proof.
  unfold per_folder_usable. destruct (m !! "per_folder") as [v|]; [|discriminate].
  intros H. exists v. split; [reflexivity|].
  destruct v; try discriminate; (split; [now apply negb_false_iff | discriminate]).
Qed.

End StoreFacts.

Lemma index_of_in (v : pyval) (names : list string) :
  py_in v names = true ->
  exists (i : nat) (n : string),
    index_of v names = Some i /\ v = PStr n /\ names !! i = Some n /\
    (i < length names)%nat /\
    forall j : nat, (j < i)%nat -> names !! j <> Some n.
Proof.
  unfold py_in. induction names as [|a names IH]; simpl; [discriminate|].
  destruct (py_eq_str v a) eqn:E.
  - intros _. apply py_eq_str_true in E. exists O, a.
    repeat split; [exact E | lia | intros j Hj; lia].
  - simpl. intros H. destruct (IH H) as (i & n & Hi & Hv & Hn & Hlt & Hfirst).
    exists (S i), n. rewrite Hi. repeat split; [exact Hv | exact Hn | lia |].
    intros [|j] Hj; simpl.
    + intros [= ->]. subst v. simpl in E. now rewrite String.eqb_refl in E.
    + apply Hfirst. lia.
Qed.

Lemma pick_last_none_or_name (json_loads : string -> option pyval) (w : world)
    (m : gmap string pyval) (folder : string) (names : list string) :
  lifetime w = None ->
  read_progress json_loads w = (Ret (PDict m), w) ->
  per_folder_usable m = true ->
  exists v : pyval,
    pick_last_for_folder json_loads folder names w = (Ret v, w) /\
    (v = PNone \/ exists n : string, v = PStr n /\ n ∈ names).
Proof.
  intros Hlife Hread Huse. eexists.
  split; [exact (pick_last_eq json_loads w m folder names Hlife Hread Huse)|].
  cbv zeta.
  destruct (py_in (default PNone (per_folder_of m !! folder)) names) eqn:E.
  { right. now apply py_in_true. }
  destruct (py_eq_str (default PNone (m !! "last_folder")) folder); [|now left].
  simpl. destruct (py_in (default PNone (m !! "last_file")) names) eqn:El; [|now left].
  right. now apply py_in_true.
Qed.

(** X11. In a process that is not killed: whenever [write_progress d]
    returns, the working directory differs from the one before only in the
    progress file, which holds the dump of [d], so that the temporary file is
    not left behind; whenever it raises, the working directory is as it was
    before the call, the temporary file removed and the progress file
    untouched. The session state is the same in both cases. *)
Theorem X11_write_progress_leaves_no_temp
    (json_dumps : pyval -> string) (d : pyval) (w : world) :
  lifetime w = None ->
  (forall w' : world,
     write_progress json_dumps d w = (Ret tt, w') ->
     files w' = <[PROGRESS_PATH := File true (json_dumps d)]> (files w) /\
     session w' = session w) /\
  (forall (e : exn) (w' : world),
     write_progress json_dumps d w = (Raise e, w') ->
     files w' = files w /\ session w' = session w).
Proof.
  intros Hlife. rewrite (write_progress_files json_dumps d w Hlife).
  destruct (first_free _ _ _ _) as [[tmp rest]|] eqn:Hfree.
  - destruct (files w !! PROGRESS_PATH) as [[r data|]|] eqn:Hp.
    + split; [intros w' [= <-]; auto | intros e w' [=]].
    + split; [intros w' [=] | intros e w' [= <- <-]; auto].
    + split; [intros w' [= <-]; auto | intros e w' [=]].
  - split; [intros w' [=] | intros e w' [= <- <-]; auto].
Qed.

Lemma X11_witness :
  let w := boot (<["progress_x7k2m9qa.json" := File true "old"]> (with_progress example_record)) in
  let w' := snd (write_progress MiniJson.dumps (PDict later_record) w) in
  files w' = <[PROGRESS_PATH := File true (MiniJson.dumps (PDict later_record))]> (files w) /\
  files w' !! "progress_b3n8w1zc.json" = None.
Proof.
  intros w w'.
  assert (Hlife : lifetime w = None) by reflexivity.
  assert (Hrun : write_progress MiniJson.dumps (PDict later_record) w = (Ret tt, w'))
    by (vm_compute; reflexivity).
  split; [|vm_compute; reflexivity].
  exact (proj1 (proj1 (X11_write_progress_leaves_no_temp MiniJson.dumps
                         (PDict later_record) w Hlife) w' Hrun)).
Defined.

(** X12. When the progress file is missing, cannot be read or does not
    parse, [update_progress folder filename] is [write_progress] of the
    record with [last_folder = folder], [last_file = filename] and
    [per_folder = {folder: filename}], and nothing else: it ends as that call
    ends, and whenever it returns the progress file holds the dump of this
    record. *)
Theorem X12_update_progress_starts_afresh
    (json_dumps : pyval -> string) (json_loads : string -> option pyval)
    (w : world) (folder filename : string) :
  lifetime w = None ->
  (files w !! PROGRESS_PATH = None \/
   exists (r : bool) (data : string),
     files w !! PROGRESS_PATH = Some (File r data) /\
     (r = false \/ json_loads data = None)) ->
  let fresh := PDict {[ "per_folder" := PDict {[ folder := PStr filename ]};
                        "last_file" := PStr filename;
                        "last_folder" := PStr folder ]} in
  update_progress json_dumps json_loads folder filename w
  = write_progress json_dumps fresh w /\
  forall w' : world,
    update_progress json_dumps json_loads folder filename w = (Ret tt, w') ->
    files w' !! PROGRESS_PATH = Some (File true (json_dumps fresh)).
Proof.
  intros Hlife Hstore fresh.
  assert (Hm : stored_progress json_loads (files w) = PDict ∅).
  { unfold stored_progress.
    destruct Hstore as [->|(r & data & -> & [->|Hbad])]; [reflexivity|reflexivity|].
    destruct r; [now rewrite Hbad | reflexivity]. }
  assert (Hrun : update_progress json_dumps json_loads folder filename w
                 = write_progress json_dumps fresh w).
  { now rewrite (update_progress_usable json_dumps json_loads w ∅ folder filename
                   Hlife Hm eq_refl). }
  split; [exact Hrun|]. rewrite Hrun. intros w' Hret.
  rewrite (write_progress_files json_dumps fresh w Hlife) in Hret.
  destruct (first_free _ _ _ _) as [[tmp rest]|]; [|discriminate].
  destruct (files w !! PROGRESS_PATH) as [[r data|]|]; try discriminate;
    injection Hret as <-; cbn [files set_files]; apply lookup_insert_eq.
Qed.

Lemma X12_witness :
  let w := boot {[ PROGRESS_PATH := File true "{ not json" ]} in
  let fresh := PDict {[ "per_folder" := PDict {[ "X" := PStr "a.mp3" ]};
                        "last_file" := PStr "a.mp3";
                        "last_folder" := PStr "X" ]} in
  let w' := snd (update_progress MiniJson.dumps MiniJson.loads "X" "a.mp3" w) in
  files w' !! PROGRESS_PATH = Some (File true (MiniJson.dumps fresh)) /\
  MiniJson.loads (MiniJson.dumps fresh) = Some fresh.
Proof.
  intros w fresh w'.
  assert (Hlife : lifetime w = None) by reflexivity.
  assert (Hbad : MiniJson.loads "{ not json" = None) by (vm_compute; reflexivity).
  assert (Hfile : files w !! PROGRESS_PATH = Some (File true "{ not json"))
    by (vm_compute; reflexivity).
  assert (Hrun : update_progress MiniJson.dumps MiniJson.loads "X" "a.mp3" w = (Ret tt, w'))
    by (vm_compute; reflexivity).
  split; [|vm_compute; reflexivity].
  exact (proj2 (X12_update_progress_starts_afresh MiniJson.dumps MiniJson.loads w "X" "a.mp3"
                  Hlife (or_intror (ex_intro _ true (ex_intro _ "{ not json"
                     (conj Hfile (or_intror Hbad))))))
           w' Hrun).
Defined.

(** X13. After [update_progress folder filename] has returned, with a codec
    that gives back the record written: [pick_last_for_folder folder names]
    returns [filename] whenever it is one of the available names, and
    [default_index] is then a position of [names] that holds [filename];
    and for every other folder whose remembered name is available,
    [pick_last_for_folder] still returns that name. *)
Theorem X13_update_then_pick
    (json_dumps : pyval -> string) (json_loads : string -> option pyval)
    (w w' : world) (m : gmap string pyval) (folder filename : string)
    (names : list string) :
  lifetime w = None ->
  read_progress json_loads w = (Ret (PDict m), w) ->
  json_loads (json_dumps (PDict (updated_record m folder filename)))
  = Some (PDict (updated_record m folder filename)) ->
  update_progress json_dumps json_loads folder filename w = (Ret tt, w') ->
  (filename ∈ names ->
   pick_last_for_folder json_loads folder names w' = (Ret (PStr filename), w') /\
   exists i : nat,
     default_index json_loads folder names w' = (Ret i, w') /\
     names !! i = Some filename) /\
  (forall g c : string,
     g <> folder -> per_folder_of m !! g = Some (PStr c) -> c ∈ names ->
     pick_last_for_folder json_loads g names w' = (Ret (PStr c), w')).
Proof.
  intros Hlife Hread Hcodec Hrun.
  rewrite (read_progress_eq json_loads w Hlife) in Hread. injection Hread as Hm.
  rewrite (update_progress_eq _ _ w folder filename Hlife), Hm in Hrun.
  destruct (py_or _ _) as [ | | | | |pf] eqn:Hpf; try discriminate.
  apply per_folder_or_empty_inv in Hpf as [-> Huse].
  fold (updated_record m folder filename) in Hrun.
  rewrite (write_progress_files json_dumps _ w Hlife) in Hrun.
  destruct (first_free _ _ _ _) as [[tmp rest]|]; [|discriminate].
  assert (Hw' : lifetime w' = None /\
                files w' !! PROGRESS_PATH
                = Some (File true (json_dumps (PDict (updated_record m folder filename))))).
  { destruct (files w !! PROGRESS_PATH) as [[r data|]|]; try discriminate;
      injection Hrun as <-; (split; [exact Hlife|]); cbn [files set_files];
      apply lookup_insert_eq. }
  destruct Hw' as [Hlife' Hfile'].
  assert (Hread' : read_progress json_loads w'
                   = (Ret (PDict (updated_record m folder filename)), w')).
  { rewrite (read_progress_eq json_loads w' Hlife'). unfold stored_progress.
    now rewrite Hfile', Hcodec. }
  pose proof (updated_record_usable m folder filename) as Huse'.
  split.
  - intros Hin.
    assert (Hpick : pick_last_for_folder json_loads folder names w'
                    = (Ret (PStr filename), w')).
    { rewrite (pick_last_eq json_loads w' _ folder names Hlife' Hread' Huse').
      rewrite per_folder_of_updated, lookup_insert_eq. cbn [from_option id].
      now rewrite (proj2 (py_in_true (PStr filename) names)
                     (ex_intro _ filename (conj eq_refl Hin))). }
    split; [exact Hpick|].
    unfold default_index, mbind, prog_bind. rewrite Hpick. cbn [is_none negb].
    destruct (index_of_in (PStr filename) names) as (i & n & Hi & Hv & Hn & _).
    { apply py_in_true. now exists filename. }
    injection Hv as <-. exists i. unfold names_index. rewrite Hi. now split.
  - intros g c Hg Hc Hin.
    rewrite (pick_last_eq json_loads w' _ g names Hlife' Hread' Huse').
    rewrite per_folder_of_updated, lookup_insert_ne by congruence.
    rewrite Hc. cbn [from_option id].
    now rewrite (proj2 (py_in_true (PStr c) names) (ex_intro _ c (conj eq_refl Hin))).
Qed.

Lemma X13_witness :
  let w := boot (with_progress example_record) in
  let w' := snd (update_progress MiniJson.dumps MiniJson.loads "Y" "c.mp3" w) in
  pick_last_for_folder MiniJson.loads "Y" ["b.mp3"; "c.mp3"] w' = (Ret (PStr "c.mp3"), w') /\
  pick_last_for_folder MiniJson.loads "X" ["a.mp3"; "c.mp3"] w' = (Ret (PStr "a.mp3"), w').
Proof.
  intros w w'.
  assert (Hlife : lifetime w = None) by reflexivity.
  assert (Hread : read_progress MiniJson.loads w = (Ret (PDict example_record), w))
    by (vm_compute; reflexivity).
  assert (Hcodec : MiniJson.loads (MiniJson.dumps (PDict (updated_record example_record "Y" "c.mp3")))
                   = Some (PDict (updated_record example_record "Y" "c.mp3")))
    by (vm_compute; reflexivity).
  assert (Hrun : update_progress MiniJson.dumps MiniJson.loads "Y" "c.mp3" w = (Ret tt, w'))
    by (vm_compute; reflexivity).
  assert (Hin : "c.mp3" ∈ ["b.mp3"; "c.mp3"]) by (apply list_elem_of_In; simpl; auto).
  assert (Hin2 : "a.mp3" ∈ ["a.mp3"; "c.mp3"]) by (apply list_elem_of_In; simpl; auto).
  assert (Hg : "X" <> "Y") by discriminate.
  assert (Hc : per_folder_of example_record !! "X" = Some (PStr "a.mp3"))
    by (vm_compute; reflexivity).
  split.
  - exact (proj1 (proj1 (X13_update_then_pick MiniJson.dumps MiniJson.loads w w'
                           example_record "Y" "c.mp3" ["b.mp3"; "c.mp3"]
                           Hlife Hread Hcodec Hrun) Hin)).
  - exact (proj2 (X13_update_then_pick MiniJson.dumps MiniJson.loads w w'
                    example_record "Y" "c.mp3" ["a.mp3"; "c.mp3"]
                    Hlife Hread Hcodec Hrun) "X" "a.mp3" Hg Hc Hin2).
Defined.

(** X14. When the progress file parses to something that is not a mapping,
    or to a mapping whose [per_folder] is a true value other than a mapping,
    [update_progress] raises [TypeError] and [pick_last_for_folder] raises
    [AttributeError]; neither changes the working directory or the session
    state, and [default_index] raises with [pick_last_for_folder]. *)
Theorem X14_unusable_record_raises
    (json_dumps : pyval -> string) (json_loads : string -> option pyval)
    (w : world) (v : pyval) (folder filename : string) (names : list string) :
  lifetime w = None ->
  read_progress json_loads w = (Ret v, w) ->
  ((forall m : gmap string pyval, v <> PDict m) \/
   exists m : gmap string pyval, v = PDict m /\ per_folder_usable m = false) ->
  update_progress json_dumps json_loads folder filename w = (Raise TypeError, w) /\
  pick_last_for_folder json_loads folder names w = (Raise AttributeError, w) /\
  default_index json_loads folder names w = (Raise AttributeError, w).
Proof.
  intros Hlife Hread Hbad.
  assert (Hpick : pick_last_for_folder json_loads folder names w = (Raise AttributeError, w)).
  { unfold pick_last_for_folder, mbind, prog_bind. rewrite Hread.
    destruct Hbad as [Hv|(m & -> & Huse)].
    - destruct v as [ | | | | |g]; try reflexivity. now destruct (Hv g).
    - apply unusable_inv in Huse as (x & Hx & Ht & Hnd).
      cbn [py_get mret prog_ret]. rewrite Hx. cbn [from_option id].
      unfold py_or. rewrite Ht.
      destruct x as [ | | | | |g]; try reflexivity. now destruct (Hnd g). }
  split; [|split; [exact Hpick|]].
  - rewrite (update_progress_eq _ _ w folder filename Hlife).
    rewrite (read_progress_eq json_loads w Hlife) in Hread. injection Hread as ->.
    destruct Hbad as [Hv|(m & -> & Huse)].
    + destruct v as [ | | | | |g]; try reflexivity. now destruct (Hv g).
    + apply unusable_inv in Huse as (x & Hx & Ht & Hnd).
      rewrite Hx. cbn [from_option id].
      pose proof (or_not_dict x Ht Hnd) as Hor.
      destruct (py_or x (PDict ∅)) as [ | | | | |g] eqn:Eor; try reflexivity.
      now destruct (Hor g).
  - unfold default_index, mbind, prog_bind. now rewrite Hpick.
Qed.

Lemma X14_witness :
  let w := boot {[ PROGRESS_PATH := File true (MiniJson.dumps (PList [PStr "a.mp3"])) ]} in
  update_progress MiniJson.dumps MiniJson.loads "X" "a.mp3" w = (Raise TypeError, w) /\
  pick_last_for_folder MiniJson.loads "X" ["a.mp3"] w = (Raise AttributeError, w) /\
  default_index MiniJson.loads "X" ["a.mp3"] w = (Raise AttributeError, w).
Proof.
  intros w.
  assert (Hlife : lifetime w = None) by reflexivity.
  assert (Hread : read_progress MiniJson.loads w = (Ret (PList [PStr "a.mp3"]), w))
    by (vm_compute; reflexivity).
  assert (Hv : forall m : gmap string pyval, PList [PStr "a.mp3"] <> PDict m)
    by (intros m; discriminate).
  exact (X14_unusable_record_raises MiniJson.dumps MiniJson.loads w _ "X" "a.mp3" ["a.mp3"]
           Hlife Hread (or_introl Hv)).
Defined.

(** X15. For a persisted record that is a mapping with a usable
    [per_folder], whatever its values are, [pick_last_for_folder] returns
    [None] or one of the available names, and never a name that the record
    holds neither for the folder nor as [last_file]. *)
Theorem X15_pick_last_is_available
    (json_loads : string -> option pyval) (w : world) (m : gmap string pyval)
    (folder : string) (names : list string) :
  lifetime w = None ->
  read_progress json_loads w = (Ret (PDict m), w) ->
  per_folder_usable m = true ->
  exists v : pyval,
    pick_last_for_folder json_loads folder names w = (Ret v, w) /\
    (v = PNone \/
     exists n : string,
       v = PStr n /\ n ∈ names /\
       (per_folder_of m !! folder = Some (PStr n) \/
        m !! "last_folder" = Some (PStr folder) /\ m !! "last_file" = Some (PStr n))).
Proof.
  intros Hlife Hread Huse. eexists.
  split; [exact (pick_last_eq json_loads w m folder names Hlife Hread Huse)|].
  cbv zeta.
  destruct (py_in (default PNone (per_folder_of m !! folder)) names) eqn:E.
  - right. apply py_in_true in E as (n & Hn & Hin). exists n.
    split; [exact Hn|]. split; [exact Hin|]. left.
    destruct (per_folder_of m !! folder) as [x|]; simpl in Hn; [now subst | discriminate].
  - destruct (py_eq_str (default PNone (m !! "last_folder")) folder) eqn:Ef; [|now left].
    destruct (py_in (default PNone (m !! "last_file")) names) eqn:El; [|now left].
    right. apply py_eq_str_true in Ef. apply py_in_true in El as (n & Hn & Hin).
    exists n. split; [exact Hn|]. split; [exact Hin|]. right.
    destruct (m !! "last_folder") as [x|]; simpl in Ef; [subst x | discriminate].
    destruct (m !! "last_file") as [y|]; simpl in Hn; [subst y | discriminate].
    now split.
Qed.

Lemma X15_witness :
  let w := boot (with_progress later_record) in
  exists v : pyval,
    pick_last_for_folder MiniJson.loads "Y" ["a.mp3"; "c.mp3"] w = (Ret v, w) /\
    (v = PNone \/
     exists n : string,
       v = PStr n /\ n ∈ ["a.mp3"; "c.mp3"] /\
       (per_folder_of later_record !! "Y" = Some (PStr n) \/
        later_record !! "last_folder" = Some (PStr "Y") /\
        later_record !! "last_file" = Some (PStr n))).
Proof.
  intros w.
  assert (Hlife : lifetime w = None) by reflexivity.
  assert (Hread : read_progress MiniJson.loads w = (Ret (PDict later_record), w))
    by (vm_compute; reflexivity).
  assert (Huse : per_folder_usable later_record = true) by (vm_compute; reflexivity).
  exact (X15_pick_last_is_available MiniJson.loads w later_record "Y" ["a.mp3"; "c.mp3"]
           Hlife Hread Huse).
Defined.

(** X16. With such a record the default selection never raises and changes
    nothing: the index is a position of [names] whenever there is a name at
    all; it holds the name [pick_last_for_folder] returned when that is not
    [None]; otherwise the first position of the name selected in the
    session when that name is available; otherwise it is 0. *)
Theorem X16_default_index
    (json_loads : string -> option pyval) (w : world) (m : gmap string pyval)
    (current : string) (names : list string) :
  lifetime w = None ->
  read_progress json_loads w = (Ret (PDict m), w) ->
  per_folder_usable m = true ->
  exists i : nat,
    default_index json_loads current names w = (Ret i, w) /\
    (names <> [] -> (i < length names)%nat) /\
    (forall n : string,
       pick_last_for_folder json_loads current names w = (Ret (PStr n), w) ->
       names !! i = Some n) /\
    (pick_last_for_folder json_loads current names w = (Ret PNone, w) ->
     (forall n : string,
        selected_name (session w) = Some n -> n ∈ names ->
        names !! i = Some n /\ forall j : nat, (j < i)%nat -> names !! j <> Some n) /\
     ((forall n : string, selected_name (session w) = Some n -> n ∉ names) -> i = O)).
Proof.
  intros Hlife Hread Huse.
  destruct (pick_last_none_or_name json_loads w m current names Hlife Hread Huse)
    as (v & Hpick & Hv).
  unfold default_index, mbind, prog_bind. rewrite Hpick.
  destruct Hv as [->|(n & -> & Hin)].
  - cbn [is_none negb]. unfold get_session.
    destruct (py_in (selected_value (session w)) names) eqn:Esel.
    + destruct (index_of_in _ _ Esel) as (i & n & Hi & Hv & Hn & Hlt & Hfirst).
      exists i. unfold names_index. rewrite Hi. split; [reflexivity|].
      split; [intros _; exact Hlt|]. split; [intros n0 [=]|]. intros _. split.
      * intros n0 Hsel _. unfold selected_value in Hv. rewrite Hsel in Hv.
        injection Hv as ->. split; [exact Hn | exact Hfirst].
      * intros Hnot. unfold selected_value in Hv.
        destruct (selected_name (session w)) as [n0|]; [|discriminate].
        injection Hv as ->. destruct (Hnot n eq_refl).
        apply list_elem_of_lookup_2 with i. exact Hn.
    + exists O. split; [reflexivity|]. split.
      { destruct names; [congruence | simpl; lia]. }
      split; [intros n0 [=]|]. intros _. split; [|reflexivity].
      intros n0 Hsel Hin. unfold selected_value in Esel. rewrite Hsel in Esel.
      rewrite (proj2 (py_in_true (PStr n0) names)) in Esel by eauto. discriminate.
  - cbn [is_none negb].
    destruct (index_of_in (PStr n) names) as (i & n' & Hi & Hv & Hn & Hlt & _).
    { apply py_in_true. eauto. }
    injection Hv as <-. exists i. unfold names_index. rewrite Hi.
    split; [reflexivity|]. split; [intros _; exact Hlt|].
    split; [intros n0 [= <-]; exact Hn|]. intros [=].
Qed.

Lemma X16_witness :
  let w := boot (with_progress example_record) in
  exists i : nat,
    default_index MiniJson.loads "X" ["b.mp3"; "a.mp3"] w = (Ret i, w) /\
    (i < 2)%nat.
Proof.
  intros w.
  assert (Hlife : lifetime w = None) by reflexivity.
  assert (Hread : read_progress MiniJson.loads w = (Ret (PDict example_record), w))
    by (vm_compute; reflexivity).
  assert (Huse : per_folder_usable example_record = true) by (vm_compute; reflexivity).
  assert (Hne : ["b.mp3"; "a.mp3"] <> []) by discriminate.
  destruct (X16_default_index MiniJson.loads w example_record "X" ["b.mp3"; "a.mp3"]
              Hlife Hread Huse) as (i & Hrun & Hlt & _).
  exists i. split; [exact Hrun | exact (Hlt Hne)].
Defined.

(** ** The token across interactions *)

Section TokenRuns.
Variable token_reply : nat -> option string.

Lemma get_download_token_eq (w : world) :
  get_download_token token_reply w =
  match token (session w), token_ts (session w) with
  | Some held, Some ts =>
      if (60 * 4 <? default 0 (now_ts (session w)) - ts)%Z
      then store_new_token token_reply w else (Ret held, w)
  | _, _ => store_new_token token_reply w
  end.
Proof.
  unfold get_download_token, mbind, prog_bind, get_session.
  destruct (token (session w)), (token_ts (session w)); try reflexivity.
  destruct (_ <? _)%Z; reflexivity.
Qed.

(** What a call that goes to [get_download_token_cached] leaves. *)
Lemma store_new_token_spec (w : world) :
  match store_new_token token_reply w with
  | (Ret tok, w') =>
      session w' = set_token_ts (Some (default 0%Z (now_ts (session w))))
                     (set_token (Some tok) (session w)) /\
      (token_requests w' = token_requests w \/
       token_requests w' = S (token_requests w) /\
       token_reply (token_requests w) = Some tok)
  | (Raise e, w') =>
      e = RequestException /\ session w' = session w /\
      token_requests w' = S (token_requests w) /\
      token_reply (token_requests w) = None
  | (Killed, _) => False
  end.
Proof.
  rewrite store_new_token_eq. unfold get_download_token_cached.
  destruct (token_memo w) as [[tok stored]|]; [destruct (_ <? _)%Z|];
    try (split; [reflexivity | left; reflexivity]);
    destruct (token_reply (token_requests w)) eqn:E; simpl; auto.
Qed.

Lemma ticks_session (n : nat) (w : world) :
  token (session (ticks n w)) = token (session w) /\
  token_ts (session (ticks n w)) = token_ts (session w) /\
  default 0%Z (now_ts (session (ticks n w)))
  = (default 0 (now_ts (session w)) + Z.of_nat n)%Z.
Proof.
  induction n as [|n (IH1 & IH2 & IH3)].
  - simpl. repeat split. lia.
  - unfold ticks in *. rewrite Nat.iter_succ.
    set (w1 := Nat.iter n _ w) in *.
    unfold advance_now_ts, mbind, prog_bind, get_session, put_session. simpl.
    rewrite IH1, IH2, IH3. repeat split. lia.
Qed.

End TokenRuns.

(** X17. [get_download_token] never ends a process. When it returns a token
    the session holds that token, stamped with a tick of which the current
    one is at most 240 ahead; at most one request was sent; the rest of the
    session state is as before; and the call repeated at once, or after any
    number of interactions that keeps the tick-age within 240, returns the
    same token and changes nothing. When it raises, the exception is the
    request's, one request was sent, and the session is as it was, a token
    held before included. *)
Theorem X17_token_is_held (token_reply : nat -> option string) (w : world) :
  (forall (tok : string) (w' : world),
     get_download_token token_reply w = (Ret tok, w') ->
     token (session w') = Some tok /\
     (exists ts : Z,
        token_ts (session w') = Some ts /\
        (default 0 (now_ts (session w')) - ts <= 60 * 4)%Z /\
        forall n : nat,
          (default 0 (now_ts (session w')) - ts + Z.of_nat n <= 60 * 4)%Z ->
          get_download_token token_reply (ticks n w') = (Ret tok, ticks n w')) /\
     (token_requests w' <= S (token_requests w))%nat /\
     now_ts (session w') = now_ts (session w) /\
     nav (session w') = nav (session w) /\
     offset (session w') = offset (session w) /\
     loaded_files (session w') = loaded_files (session w) /\
     loaded_folders (session w') = loaded_folders (session w) /\
     selected_name (session w') = selected_name (session w)) /\
  (forall (e : exn) (w' : world),
     get_download_token token_reply w = (Raise e, w') ->
     e = RequestException /\ session w' = session w /\
     token_requests w' = S (token_requests w)) /\
  (exists w' : world,
     (exists tok : string, get_download_token token_reply w = (Ret tok, w')) \/
     get_download_token token_reply w = (Raise RequestException, w')).
Proof.
  assert (Hlater : forall (w' : world) (tok : string) (ts : Z),
            token (session w') = Some tok -> token_ts (session w') = Some ts ->
            forall n : nat,
              (default 0 (now_ts (session w')) - ts + Z.of_nat n <= 60 * 4)%Z ->
              get_download_token token_reply (ticks n w') = (Ret tok, ticks n w')).
  { intros w' tok ts Htok Hts n Hage.
    destruct (ticks_session n w') as (H1 & H2 & H3).
    rewrite get_download_token_eq, H1, H2, Htok, Hts, H3.
    destruct (Z.ltb_spec (60 * 4) (default 0 (now_ts (session w')) + Z.of_nat n - ts)%Z);
      [lia | reflexivity]. }
  pose proof (store_new_token_spec token_reply w) as Hstore.
  assert (Hfresh : forall (tok : string) (w' : world),
            store_new_token token_reply w = (Ret tok, w') ->
            token (session w') = Some tok /\
            (exists ts : Z,
               token_ts (session w') = Some ts /\
               (default 0 (now_ts (session w')) - ts <= 60 * 4)%Z /\
               forall n : nat,
                 (default 0 (now_ts (session w')) - ts + Z.of_nat n <= 60 * 4)%Z ->
                 get_download_token token_reply (ticks n w') = (Ret tok, ticks n w')) /\
            (token_requests w' <= S (token_requests w))%nat /\
            now_ts (session w') = now_ts (session w) /\
            nav (session w') = nav (session w) /\
            offset (session w') = offset (session w) /\
            loaded_files (session w') = loaded_files (session w) /\
            loaded_folders (session w') = loaded_folders (session w) /\
            selected_name (session w') = selected_name (session w)).
  { intros tok w' Hrun. rewrite Hrun in Hstore. destruct Hstore as [Hs Hreq].
    assert (Htok : token (session w') = Some tok) by now rewrite Hs.
    assert (Hts : token_ts (session w') = Some (default 0%Z (now_ts (session w))))
      by now rewrite Hs.
    assert (Hnow : now_ts (session w') = now_ts (session w)) by now rewrite Hs.
    split; [exact Htok|]. split.
    { eexists. split; [exact Hts|]. rewrite Hnow. split; [lia|].
      intros n Hn. apply (Hlater w' tok _ Htok Hts). now rewrite Hnow. }
    split; [destruct Hreq as [->|[-> _]]; lia|].
    rewrite Hs. repeat split. }
  assert (Hfail : forall (e : exn) (w' : world),
            store_new_token token_reply w = (Raise e, w') ->
            e = RequestException /\ session w' = session w /\
            token_requests w' = S (token_requests w)).
  { intros e w' Hrun. rewrite Hrun in Hstore. tauto. }
  assert (Hends : exists w' : world,
            (exists tok : string, store_new_token token_reply w = (Ret tok, w')) \/
            store_new_token token_reply w = (Raise RequestException, w')).
  { destruct (store_new_token token_reply w) as [[tok|e|] w'].
    - exists w'. left. now exists tok.
    - exists w'. right. now destruct Hstore as [-> _].
    - destruct Hstore. }
  rewrite get_download_token_eq.
  destruct (token (session w)) as [held|] eqn:Htok; [|exact (conj Hfresh (conj Hfail Hends))].
  destruct (token_ts (session w)) as [ts|] eqn:Hts; [|exact (conj Hfresh (conj Hfail Hends))].
  destruct (Z.ltb_spec (60 * 4) (default 0 (now_ts (session w)) - ts)%Z);
    [exact (conj Hfresh (conj Hfail Hends))|].
  split; [|split].
  - intros tok w' [= <- <-]. split; [exact Htok|]. split.
    { exists ts. split; [exact Hts|]. split; [lia|]. now apply Hlater. }
    split; [lia|]. repeat split.
  - intros e w' [=].
  - exists w. left. now exists held.
Qed.

Lemma X17_witness :
  let w1 := snd (get_download_token issue (boot ∅)) in
  token (session w1) = Some "token-0" /\
  get_download_token issue (ticks 240 w1) = (Ret "token-0", ticks 240 w1).
Proof.
  intros w1.
  assert (Hrun : get_download_token issue (boot ∅) = (Ret "token-0", w1))
    by (vm_compute; reflexivity).
  destruct (proj1 (X17_token_is_held issue (boot ∅)) "token-0" w1 Hrun)
    as (Htok & (ts & Hts & _ & Hlater) & _).
  split; [exact Htok|]. apply Hlater.
  assert (E : token_ts (session w1) = Some 0%Z) by (vm_compute; reflexivity).
  rewrite E in Hts. injection Hts as <-. vm_compute. discriminate.
Defined.

(** *** The two refresh buttons *)

Section ButtonFacts.
Variable token_reply : nat -> option string.

(** How [get_download_token_cached] ends. *)
Lemma cached_cases (w : world) :
  match get_download_token_cached token_reply w with
  | (Ret tok, w1) =>
      (w1 = w /\ exists stored : Z, token_memo w = Some (tok, stored)) \/
      (token_requests w1 = S (token_requests w) /\
       token_reply (token_requests w) = Some tok /\
       token_memo w1 = Some (tok, clock w))
  | (Raise _, w1) =>
      token_requests w1 = S (token_requests w) /\ token_memo w1 = token_memo w
  | (Killed, _) => False
  end.
Proof.
  unfold get_download_token_cached.
  destruct (token_memo w) as [[tok stored]|] eqn:Hmemo.
  - destruct (_ <? _)%Z.
    + left. split; [reflexivity | now exists stored].
    + destruct (token_reply (token_requests w)) eqn:E.
      * right. split; [reflexivity|]. split; reflexivity.
      * split; [reflexivity | first [exact Hmemo | reflexivity]].
  - destruct (token_reply (token_requests w)) eqn:E.
    + right. split; [reflexivity|]. split; reflexivity.
    + split; [reflexivity | first [exact Hmemo | reflexivity]].
Qed.

Lemma issued_since_mono (n : nat) (w w' : world) (tok : string) :
  (token_requests w <= token_requests w')%nat ->
  issued_since token_reply n w tok -> issued_since token_reply n w' tok.
Proof. intros Hle (k & Hk & Hreply). exists k. split; [lia | exact Hreply]. Qed.

Lemma memo_since_ext (n : nat) (w w' : world) :
  token_memo w' = token_memo w -> token_requests w' = token_requests w ->
  memo_since token_reply n w -> memo_since token_reply n w'.
Proof.
  intros Hm Hr [Hle Hmemo]. split; [lia|].
  intros tok stored H. rewrite Hm in H.
  apply (issued_since_mono n w); [lia | eapply Hmemo, H].
Qed.

(** A call that goes to [get_download_token_cached] keeps the memo within
    the requests counted from [n], and returns a token issued by one of them. *)
Lemma store_memo_since (n : nat) (w : world) :
  memo_since token_reply n w ->
  memo_since token_reply n (snd (store_new_token token_reply w)) /\
  forall (tok : string) (w' : world),
    store_new_token token_reply w = (Ret tok, w') -> issued_since token_reply n w' tok.
Proof.
  intros [Hle Hmemo]. rewrite store_new_token_eq.
  pose proof (cached_cases w) as Hc.
  destruct (get_download_token_cached token_reply w) as [[tok|e|] w1]; [| |destruct Hc].
  - destruct Hc as [[-> [stored Hs]]|(Hreq & Hreply & Hm1)].
    + split.
      * apply (memo_since_ext n w); [reflexivity | reflexivity | now split].
      * intros tok' w' [= <- <-].
        apply (issued_since_mono n w); [reflexivity | eapply Hmemo, Hs].
    + assert (Hnew : issued_since token_reply n w1 tok).
      { exists (token_requests w). split; [lia | exact Hreply]. }
      split.
      * split; [cbn [snd token_requests set_session]; lia|].
        intros tok' stored H. cbn [snd token_memo set_session] in H.
        rewrite Hm1 in H. injection H as <- _.
        apply (issued_since_mono n w1); [reflexivity | exact Hnew].
      * intros tok' w' [= <- <-].
        apply (issued_since_mono n w1); [reflexivity | exact Hnew].
  - destruct Hc as [Hreq Hm1]. split.
    + change (memo_since token_reply n w1). split; [lia|]. intros tok stored H.
      rewrite Hm1 in H. apply (issued_since_mono n w); [lia | eapply Hmemo, H].
    + intros tok w' [=].
Qed.

Lemma get_memo_since (n : nat) (w : world) :
  memo_since token_reply n w ->
  memo_since token_reply n (snd (get_download_token token_reply w)).
Proof.
  intros H. rewrite get_download_token_eq.
  destruct (token (session w)); [|now apply store_memo_since].
  destruct (token_ts (session w)); [|now apply store_memo_since].
  destruct (_ <? _)%Z; [now apply store_memo_since | exact H].
Qed.

Lemma rerun_memo_since (n : nat) (c : Z) (w : world) :
  memo_since token_reply n w -> memo_since token_reply n (snd (rerun token_reply c w)).
Proof.
  intros H. unfold rerun. apply get_memo_since.
  apply (memo_since_ext n w); [reflexivity | reflexivity | exact H].
Qed.

Lemma reruns_memo_since (n : nat) (cs : list Z) (w : world) :
  memo_since token_reply n w -> memo_since token_reply n (reruns token_reply cs w).
Proof.
  revert w. induction cs as [|c cs IH]; intros w H; [exact H|].
  apply IH. now apply rerun_memo_since.
Qed.

End ButtonFacts.

(** X18. What the two buttons do to the token. A press is a run of the
    script that ends in the handler; the token is asked for in the run that
    follows. After "Refresh now" alone a token whose tick-age stays within
    240 over the two runs is returned as it is and no request is sent. After
    "Refresh token" alone, while the memo of [get_download_token_cached] is
    younger than 300 seconds, the token of the memo is returned and no
    request is sent. After "Refresh now", any number of runs, and then
    "Refresh token", a token the next run returns was issued by a request
    sent after "Refresh now" was pressed. In the other order, with a memo
    younger than 300 seconds, the run after "Refresh token" takes the token
    of the memo, and the run after "Refresh now" returns that same token:
    no request is sent at all. *)
Theorem X18_refresh_buttons (token_reply : nat -> option string) (w : world) :
  (forall (held : string) (ts c c' : Z),
     token (session w) = Some held -> token_ts (session w) = Some ts ->
     (default 0 (now_ts (session w)) - ts + 2 <= 60 * 4)%Z ->
     let r := rerun token_reply c' (press refresh_now_button c w) in
     fst r = Ret held /\ token_requests (snd r) = token_requests w) /\
  (forall (tok : string) (stored c c' : Z),
     token_memo w = Some (tok, stored) -> (c' - stored < 60 * 5)%Z ->
     let r := rerun token_reply c' (press refresh_token_button c w) in
     fst r = Ret tok /\ token_requests (snd r) = token_requests w) /\
  (forall (c1 c2 c3 : Z) (cs : list Z) (tok : string),
     let w1 := reruns token_reply cs (press refresh_now_button c1 w) in
     let r := rerun token_reply c3 (press refresh_token_button c2 w1) in
     fst r = Ret tok -> issued_since token_reply (token_requests w) (snd r) tok) /\
  (forall (tok : string) (stored c1 c2 c3 c4 : Z),
     token_memo w = Some (tok, stored) -> (c2 - stored < 60 * 5)%Z ->
     let w1 := snd (rerun token_reply c2 (press refresh_token_button c1 w)) in
     let r := rerun token_reply c4 (press refresh_now_button c3 w1) in
     fst r = Ret tok /\ token_requests (snd r) = token_requests w).
Proof.
  assert (Hmemo_hit : forall (tok : string) (stored c c' : Z),
            token_memo w = Some (tok, stored) -> (c' - stored < 60 * 5)%Z ->
            rerun token_reply c' (press refresh_token_button c w)
            = (Ret tok,
               set_session
                 (set_token_ts
                    (Some (default 0 (now_ts (session w)) + 1 + 1)%Z)
                    (set_token (Some tok)
                       (session (snd (advance_now_ts
                          (set_clock c' (press refresh_token_button c w)))))))
                 (snd (advance_now_ts (set_clock c' (press refresh_token_button c w)))))).
  { intros tok stored c c' Hmemo Hage. unfold rerun.
    set (W := snd (advance_now_ts (set_clock c' (press refresh_token_button c w)))).
    rewrite get_download_token_eq.
    assert (Hnone : token (session W) = None) by reflexivity. rewrite Hnone.
    rewrite store_new_token_eq.
    rewrite (cached_hit token_reply W tok stored); [reflexivity | exact Hmemo | exact Hage]. }
  split; [|split; [|split]].
  - intros held ts c c' Htok Hts Hage r. subst r. unfold rerun.
    rewrite get_download_token_eq.
    unfold press, refresh_now_button, advance_now_ts, mbind, prog_bind, act, get_session,
      put_session. simpl. rewrite Htok, Hts.
    destruct (Z.ltb_spec (60 * 4) (default 0 (now_ts (session w)) + 1 + 1 - ts)%Z); [lia|].
    split; reflexivity.
  - intros tok stored c c' Hmemo Hage r. subst r.
    rewrite (Hmemo_hit tok stored c c' Hmemo Hage). split; reflexivity.
  - intros c1 c2 c3 cs tok w1 r Hret. subst r. unfold rerun in *.
    set (W := snd (advance_now_ts (set_clock c3 (press refresh_token_button c2 w1)))) in *.
    assert (Hsince : memo_since token_reply (token_requests w) W).
    { apply (memo_since_ext token_reply _ w1); [reflexivity | reflexivity |].
      apply reruns_memo_since. split; [reflexivity|]. intros t st H. discriminate H. }
    assert (Hnone : token (session W) = None) by reflexivity.
    rewrite get_download_token_eq, Hnone in Hret |- *.
    destruct (store_new_token token_reply W) as [[tok'|e|] W'] eqn:Hrun;
      simpl in Hret; try discriminate.
    injection Hret as ->.
    exact (proj2 (store_memo_since token_reply _ W Hsince) tok W' Hrun).
  - intros tok stored c1 c2 c3 c4 Hmemo Hage w1 r. subst r w1.
    rewrite (Hmemo_hit tok stored c1 c2 Hmemo Hage). unfold rerun.
    rewrite get_download_token_eq.
    unfold press, refresh_now_button, refresh_token_button, advance_now_ts, mbind,
      prog_bind, act, get_session, put_session. simpl.
    destruct (Z.ltb_spec (60 * 4)
                (default 0 (now_ts (session w)) + 1 + 1 + 1 + 1
                 - (default 0 (now_ts (session w)) + 1 + 1))%Z); [lia|].
    split; reflexivity.
Qed.

Lemma X18_witness :
  let w1 := set_clock 10 (snd (get_download_token issue (boot ∅))) in
  fst (rerun issue 12 (press refresh_now_button 11 w1)) = Ret "token-0" /\
  fst (rerun issue 12 (press refresh_token_button 11 w1)) = Ret "token-0" /\
  fst (rerun issue 15
         (press refresh_now_button 14
            (snd (rerun issue 12 (press refresh_token_button 11 w1))))) = Ret "token-0" /\
  fst (rerun issue 15
         (press refresh_token_button 14
            (reruns issue [12%Z] (press refresh_now_button 11 w1)))) = Ret "token-1" /\
  issue 1 = Some "token-1".
Proof.
  intros w1.
  assert (Htok : token (session w1) = Some "token-0") by (vm_compute; reflexivity).
  assert (Hts : token_ts (session w1) = Some 0%Z) by (vm_compute; reflexivity).
  assert (Hage : (default 0 (now_ts (session w1)) - 0 + 2 <= 60 * 4)%Z)
    by (vm_compute; discriminate).
  assert (Hmemo : token_memo w1 = Some ("token-0", 0%Z)) by (vm_compute; reflexivity).
  assert (Hfresh : (12 - 0 < 60 * 5)%Z) by (vm_compute; reflexivity).
  destruct (X18_refresh_buttons issue w1) as (Hnow & Hbutton & _ & Hboth).
  split; [exact (proj1 (Hnow _ _ 11%Z 12%Z Htok Hts Hage))|].
  split; [exact (proj1 (Hbutton _ _ 11%Z 12%Z Hmemo Hfresh))|].
  split; [exact (proj1 (Hboth _ _ 11%Z 12%Z 14%Z 15%Z Hmemo Hfresh))|].
  split; vm_compute; reflexivity.
Defined.

(** ** Entering a directory *)

Lemma reset_nothing_loaded (s : session_state) : nothing_loaded (reset_listing s) = true.
Proof. reflexivity. Qed.

Lemma nav_step_resets (share : string) (a : nav_action) (s : session_state) :
  nav (nav_step share a s) <> nav s \/ a = ResetToRoot ->
  exists l : list string, nav_step share a s = reset_listing (set_nav l s).
Proof.
  destruct a as [ | |f]; simpl.
  - intros _. now exists [share].
  - destruct (1 <? length (nav s))%nat; [intros _; eauto|].
    intros [H|H]; [now destruct H | discriminate].
  - destruct (String.eqb (normalize_child_weblink (current_of s) f) ""); simpl;
      [|intros _; eauto].
    intros [H|H]; [now destruct H | discriminate].
Qed.

(** X19. After "Reset to root", after any navigation step that changes the
    stack, and after "Refresh now", the next [load_first_page_if_needed]
    sends one request, at offset 0 and with the page size as limit, for the
    directory that is then the current one; when the request is answered,
    the loaded files and folders are the sorted files and folders of that
    page alone and the offset is the number of its items, so that nothing of
    the directory shown before is kept. *)
Theorem X19_first_page_of_a_directory
    (folder_reply : nat -> string -> Z -> Z -> option listing)
    (share : string) (a : nav_action) (w w1 : world) :
  (nav (nav_step share a (session w)) <> nav (session w) \/ a = ResetToRoot) /\
  w1 = set_session (nav_step share a (session w)) w \/
  w1 = snd (refresh_now_button w) ->
  let current := current_of (session w1) in
  let req := logged folder_reply current w1 0 in
  let w2 := snd (load_first_page_if_needed folder_reply current w1) in
  f_weblink req = Str.strip Str.is_slash current /\
  f_offset req = 0%Z /\ f_limit req = PAGE_SIZE /\
  list_log w2 = (list_log w ++ [req])%list /\
  forall r : listing,
    f_reply req = Some r ->
    loaded_files (session w2)
    = sorted file_sort_key (List.filter (has_type "file") (l_items r)) /\
    loaded_folders (session w2)
    = sorted folder_sort_key (List.filter (has_type "folder") (l_items r)) /\
    offset (session w2) = Z.of_nat (length (l_items r)).
Proof.
  intros Hw1 current req w2.
  assert (H : nothing_loaded (session w1) = true /\ list_log w1 = list_log w).
  { destruct Hw1 as [[Hnav ->]| ->].
    - destruct (nav_step_resets share a (session w) Hnav) as [l ->].
      split; reflexivity.
    - split; reflexivity. }
  destruct H as [Hguard Hlog].
  split; [reflexivity|]. split; [reflexivity|]. split; [reflexivity|].
  subst w2. rewrite load_first_page_eq, Hguard. cbv zeta. fold req.
  destruct (f_reply req) as [r|]; cbn [snd list_log set_list_log set_session].
  - split; [now rewrite Hlog|]. intros r0 [= <-]. repeat split.
  - split; [now rewrite Hlog|]. intros r0 [=].
Qed.

Lemma X19_witness :
  let year := {| e_type := Some "folder"; e_name := Some "2023";
                 e_weblink := Some "4RaM/vXuYxiCgD/2023" |} in
  let dir := [file_named "b.mp3"; folder_named "old"; file_named "a.mp3"] in
  let w := snd (load_first_page_if_needed (serve [year]) "4RaM/vXuYxiCgD" (boot ∅)) in
  let w1 := set_session (nav_step "4RaM/vXuYxiCgD" (OpenFolder year) (session w)) w in
  let w2 := snd (load_first_page_if_needed (serve dir) (current_of (session w1)) w1) in
  current_of (session w1) = "4RaM/vXuYxiCgD/2023" /\
  map e_name (loaded_files (session w2)) = [Some "a.mp3"; Some "b.mp3"] /\
  length (list_log w2) = S (length (list_log w)).
Proof.
  intros year dir w w1 w2.
  assert (Hnav : nav (nav_step "4RaM/vXuYxiCgD" (OpenFolder year) (session w))
                 <> nav (session w)) by (vm_compute; discriminate).
  destruct (X19_first_page_of_a_directory (serve dir) "4RaM/vXuYxiCgD" (OpenFolder year)
              w w1 (or_introl (conj (or_introl Hnav) eq_refl)))
    as (_ & _ & _ & Hlog & _).
  split; [vm_compute; reflexivity|]. split; [vm_compute; reflexivity|].
  fold w2 in Hlog. rewrite Hlog, length_app. simpl. lia.
Defined.

(** ** The dates [parse_date_key] returns *)

Lemma digit_value_range (c : ascii) :
  Str.isdigit c = true -> (0 <= Str.digit_value c <= 9)%Z.
Proof.
  unfold Str.isdigit, Str.digit_value. intros H.
  apply andb_true_iff in H as [H1 H2]. apply N.leb_le in H1, H2. lia.
Qed.

Lemma two_digits_range (a b : ascii) :
  Str.isdigit a = true -> Str.isdigit b = true -> (0 <= two_digits a b <= 99)%Z.
Proof.
  intros Ha Hb. apply digit_value_range in Ha, Hb.
  unfold two_digits, Str.int_of_digits. cbn [list_ascii_of_string fold_left]. lia.
Qed.

Lemma year_of_range (yy : Z) : (0 <= yy <= 99)%Z -> (1970 <= year_of yy <= 2069)%Z.
Proof. unfold year_of. destruct (Z.ltb_spec yy 70); lia. Qed.

Lemma search_inv (p : list Re.piece) (s : string) (gs : list string) :
  Re.search p s = Some gs ->
  exists head tail, s = head ++ tail /\ Re.match_to_end p tail = Some gs.
Proof.
  induction s as [|c s IH]; simpl.
  - destruct (Re.match_to_end p "") eqn:E; [|discriminate].
    intros [= <-]. now exists "", "".
  - destruct (Re.match_to_end p (String c s)) eqn:E.
    + intros [= <-]. now exists "", (String c s).
    + intros H. destruct (IH H) as (head & tail & -> & Hm).
      now exists (String c head), tail.
Qed.

(** Every group of a match is two decimal digits. *)
Lemma match_groups (p : list Re.piece) :
  forall (s : string) (gs : list string) (rest : string),
    Re.match_here p s = Some (gs, rest) ->
    Forall (fun g => exists x y : ascii,
                       g = String x (String y "") /\
                       Str.isdigit x = true /\ Str.isdigit y = true) gs.
Proof.
  induction p as [|[c|cs|] p IH]; intros s gs rest; simpl.
  - intros [= <- _]. constructor.
  - destruct s as [|x s']; [discriminate|].
    destruct (Ascii.eqb _ _); [apply IH | discriminate].
  - destruct s as [|x s']; [discriminate|].
    destruct (Re.in_class cs x); [apply IH | discriminate].
  - destruct s as [|x [|y s']]; try discriminate.
    destruct (Str.isdigit x) eqn:Hx, (Str.isdigit y) eqn:Hy; simpl; try discriminate.
    destruct (Re.match_here p s') as [[gs' rest']|] eqn:E; [|discriminate].
    intros [= <- <-]. constructor; [now exists x, y | eapply IH, E].
Qed.

(** X20. A date that [parse_date_key] returns is not checked against the
    calendar: its year is 2000+YY or 1900+YY for two digits YY and so lies
    in 1970..2069, and its month and its day are any two digits each, in
    0..99. *)
Theorem X20_parse_date_key_range (name : string) (y m d : Z) :
  parse_date_key name = Some (y, m, d) ->
  (exists yy : Z, (0 <= yy <= 99)%Z /\ y = year_of yy) /\
  (1970 <= y <= 2069)%Z /\ (0 <= m <= 99)%Z /\ (0 <= d <= 99)%Z.
Proof.
  unfold parse_date_key. intros H.
  destruct (Re.search date_re (Str.strip Str.isspace name)) as [gs|] eqn:Hs; [|discriminate].
  apply search_inv in Hs as (head & tail & _ & Hm).
  unfold Re.match_to_end in Hm.
  destruct (Re.match_here date_re tail) as [[gs' rest]|] eqn:Hhere; [|discriminate].
  destruct (Re.at_end rest); [|discriminate]. injection Hm as ->.
  apply match_groups in Hhere.
  destruct gs as [|g1 [|g2 [|g3 [|g4 gs]]]]; try discriminate.
  apply Forall_cons in Hhere as [(d1 & d2 & -> & Hd1 & Hd2) Hhere].
  apply Forall_cons in Hhere as [(m1 & m2 & -> & Hm1 & Hm2) Hhere].
  apply Forall_cons in Hhere as [(y1 & y2 & -> & Hy1 & Hy2) _].
  injection H as <- <- <-.
  pose proof (two_digits_range d1 d2 Hd1 Hd2) as Rd.
  pose proof (two_digits_range m1 m2 Hm1 Hm2) as Rm.
  pose proof (two_digits_range y1 y2 Hy1 Hy2) as Ry.
  fold (two_digits d1 d2). fold (two_digits m1 m2). fold (two_digits y1 y2).
  fold (year_of (two_digits y1 y2)).
  split; [now exists (two_digits y1 y2)|].
  split; [now apply year_of_range|]. split; assumption.
Qed.

Lemma X20_witness :
  parse_date_key "  intro Modern Sabahlar_31_13_69.MP3 " = Some (2069, 13, 31)%Z /\
  (0 <= 13 <= 99)%Z.
Proof.
  assert (H : parse_date_key "  intro Modern Sabahlar_31_13_69.MP3 "
              = Some (2069, 13, 31)%Z) by (vm_compute; reflexivity).
  split; [exact H|].
  exact (proj1 (proj2 (proj2 (X20_parse_date_key_range _ _ _ _ H)))).
Defined.
